(** * Ateema proposal builder: the greedy fill-to-cap allocator

    A shallow embedding of [app/ateema/upgrader.py], in its two source
    variants ([Ateema_Proposal_Builder_CloudVersion] and
    [Ateema_Proposal_Builder_CloudVersion_Final]), and of the table helpers
    of [app/streamlit_app.py]: [qty_from_tier], [make_reasoning], [_row_key],
    [_apply_price_overrides], [_apply_from_editor] and the Networking Event
    step of [rows_from_selection].

    Conventions of the embedding:
    - Python [str] is [string]; [str.lower] acts on the ASCII letters.
    - Python [float] prices are exact rationals [Q]: comparisons, sums and
      products are the mathematical ones, and [round(x, 2)] is rounding to
      the nearest hundredth, ties to even. The pool budgets of
      [run_fill_to_cap] are computed as Python computes them, in binary64
      arithmetic ([Binary64]), since a budget is compared with prices.
    - The insertion-ordered [dict]s that the allocator iterates over
      ([products], [picks]) are association lists; [meta], which is only
      looked up, is a [gmap].
    - [products[pname]] may raise [KeyError]; the [while] loop runs on
      fuel. Both are outcomes of the [outcome] monad. *)

From Stdlib Require Import Ascii String QArith Qround Qminmax Qabs Qpower Lia Lqa.
From Stdlib Require Import Decimal DecimalNat DecimalString.
From stdpp Require Import base option list strings gmap.

(** ** Strings *)

Module Str.

(** [c.lower()] on one ASCII character. *)
Definition lower_ascii (c : ascii) : ascii :=
  let n := nat_of_ascii c in
  if ((65 <=? n) && (n <=? 90))%nat then ascii_of_nat (n + 32) else c.

(** [s.lower()] *)
Fixpoint lower (s : string) : string :=
  match s with
  | EmptyString => EmptyString
  | String c t => String (lower_ascii c) (lower t)
  end.

(** [needle in hay]: [needle] occurs in [hay] as a contiguous substring. *)
Fixpoint contains (needle hay : string) : bool :=
  String.prefix needle hay ||
  match hay with
  | EmptyString => false
  | String _ t => contains needle t
  end.

(** A character that [lower] can produce. *)
Definition not_upper (c : ascii) : bool :=
  let n := nat_of_ascii c in negb ((65 <=? n) && (n <=? 90))%nat.

Fixpoint all_chars (p : ascii -> bool) (s : string) : bool :=
  match s with
  | EmptyString => true
  | String c t => p c && all_chars p t
  end.

End Str.

(** ** The variants of the source *)

Inductive variant : Type :=
| Cloud   (* Ateema_Proposal_Builder_CloudVersion *)
| Final.  (* Ateema_Proposal_Builder_CloudVersion_Final *)

(** ** Tier eligibility: [_is_restricted_tier] *)

(** The list literal [restricted_keywords]. In the Cloud variant the comma
    after the second string is missing, so Python concatenates the second
    and the third literal into one keyword. *)
Definition restricted_keywords (v : variant) : list string :=
  match v with
  | Cloud =>
      [ "with any campaign";
        "Contract with multiple products" +:+ "with campaign";
        "existing advertiser";
        "advertiser rate";
        "bundle";
        "add-on";
        "package price" ]
  | Final =>
      [ "with any campaign";
        "Contract with multiple products";
        "with campaign";
        "existing advertiser";
        "advertiser rate";
        "bundle";
        "add-on";
        "package price" ]
  end.

Definition _is_restricted_tier (v : variant) (label : string) (is_advertiser : bool) : bool :=
  if is_advertiser then false
  else
    let lbl := Str.lower label in
    if Str.contains "advertiser" lbl
       && negb (Str.contains "non-advertiser" lbl)
       && negb (Str.contains "non advertiser" lbl)
    then true
    else existsb (fun kw => Str.contains kw lbl) (restricted_keywords v).

(** ** Numbers *)

(** [x < y] on prices, as a boolean. Python's [a > b] is [Qltb b a]. *)
Definition Qltb (x y : Q) : bool :=
  match (x ?= y)%Q with Lt => true | _ => false end.

(** Rounding to the nearest integer, ties to even. *)
Definition round_half_even (x : Q) : Z :=
  let f := Qfloor x in
  match (x - inject_Z f ?= 1 # 2)%Q with
  | Lt => f
  | Gt => (f + 1)%Z
  | Eq => if Z.even f then f else (f + 1)%Z
  end.

(** [round(x, 2)] *)
Definition round2 (x : Q) : Q := Qmake (round_half_even (x * 100)) 100.

(** ** Binary floating point: the arithmetic of a Python [float] *)

Module Binary64.

(** [floor(log2 x)] of a positive rational. *)
Definition ilog2 (x : Q) : Z :=
  let k := (Z.log2 (Qnum x) - Z.log2 (Zpos (Qden x)))%Z in
  if Qle_bool (2 ^ k) x then k else (k - 1)%Z.

(** The exponent of the unit in the last place of the binary64 numbers
    around [x]: 53 bits of significand, and no exponent below -1074. *)
Definition ulp_exp (x : Q) : Z := Z.max (ilog2 (Qabs x) - 52) (-1074).

(** The binary64 number nearest to [x], ties to the even significand: the
    value that a floating-point operation returns for the exact result [x],
    subnormal numbers included. It is meant for the results that are
    [finite] below. *)
Definition fl (x : Q) : Q :=
  if Qeq_bool x 0 then 0
  else let u := (2 ^ ulp_exp x)%Q in (inject_Z (round_half_even (x / u)) * u)%Q.

(** The exact result [x] rounds to a finite float: it is below the middle
    of the greatest float and [2^1024], from where on Python answers
    [inf]. *)
Definition finite (x : Q) : Prop := (Qabs x < 2 ^ 1024 - 2 ^ 970)%Q.

(** [x * y] and [x / y] on floats, for a [finite] exact result. *)
Definition fmul (x y : Q) : Q := fl (x * y).
Definition fdiv (x y : Q) : Q := fl (x / y).

End Binary64.

(** ** Outcomes: a value, a [KeyError], or a loop that ran out of fuel *)

Inductive outcome (A : Type) : Type :=
| Ret (a : A)
| KeyError (k : string)
| OutOfFuel.
Arguments Ret {A} a.
Arguments KeyError {A} k.
Arguments OutOfFuel {A}.

#[global] Instance outcome_ret : MRet outcome := fun A a => Ret a.
#[global] Instance outcome_bind : MBind outcome := fun A B f m =>
  match m with
  | Ret a => f a
  | KeyError k => KeyError k
  | OutOfFuel => OutOfFuel
  end.

(** ** Insertion-ordered dictionaries with string keys *)

(** [d[k]], [None] standing for [KeyError]. *)
Fixpoint dict_get {V : Type} (k : string) (d : list (string * V)) : option V :=
  match d with
  | [] => None
  | (k', v') :: t => if String.eqb k k' then Some v' else dict_get k t
  end.

(** [d[k] = v]: an existing key keeps its position, a new key goes last. *)
Fixpoint dict_set {V : Type} (k : string) (v : V) (d : list (string * V)) : list (string * V) :=
  match d with
  | [] => [(k, v)]
  | (k', v') :: t =>
      if String.eqb k k' then (k, v) :: t else (k', v') :: dict_set k v t
  end.

Definition keys {V : Type} (d : list (string * V)) : list string := d.*1.
#[global] Arguments keys : simpl never.

(** ** Data model *)

(** A pick [(opt_name, lbl, eff_base)]. *)
Definition Pick : Type := string * string * Q.

(** An enumerated price point [(opt_name, lbl, eff_base, line)]. *)
Definition Candidate : Type := string * string * Q * Q.

Definition cand_pick (c : Candidate) : Pick := fst c.
Definition cand_line (c : Candidate) : Q := snd c.

(** [Selection(picks=..., subtotal=...)] of [ateema.models]. *)
Record Selection : Type := mkSelection {
  picks : list (string * Pick);
  subtotal : Q
}.

(** What [upgrader.py] imports from [ateema.pricing] and [ateema.models]:
    the record types and the three pricing functions. The allocator is
    embedded over any implementation of this interface. *)
Class Pricing : Type := {
  ProductRecord : Type;
  PriceOption : Type;
  ProductMeta : Type;
  Date : Type;
  (** [product.price_options] *)
  price_options : ProductRecord -> list PriceOption;
  (** [opt.get("name")] *)
  option_name : PriceOption -> option string;
  (** the empty dict of [meta.get(pname, {})] *)
  empty_meta : ProductMeta;
  price_points : PriceOption -> list (string * Q);
  get_effective_unit_price :
    string -> string -> Q -> ProductMeta -> option Date -> bool -> Q;
  effective_line_price : ProductRecord -> string -> Q -> Q
}.

(** ** [map_line_price] (Final variant) *)

Definition MAP_NAME : string := "Chicago Does Interactive Map".

(** [None] is the Python [None] that signals "not handled here". A quarter
    count that is falsy ([None] or [0]) becomes [1]. *)
Definition map_line_price (pname tier_label : string) (eff_base : Q)
    (interactive_map_quarters : option Z) : option Q :=
  if negb (String.eqb pname "Chicago Does Interactive Map") then None
  else
    let quarters :=
      match interactive_map_quarters with
      | None | Some 0%Z => 1%Z
      | Some n => n
      end in
    Some (eff_base * inject_Z quarters)%Q.

Section Allocator.

Context `{P : Pricing}.

Variable v : variant.
Variable budget : Q.
Variable products : list (string * ProductRecord).
Variable meta : gmap string ProductMeta.
Variable chosen_date : option Date.
Variable is_advertiser : bool.
Variable interactive_map_quarters : option Z.

(** The line price of a price point: in the Final variant
    [map_line_price] first, [effective_line_price] when it answers [None];
    in the Cloud variant [effective_line_price] alone. *)
Definition line_price (pname : string) (product : ProductRecord)
    (lbl : string) (eff_base : Q) : Q :=
  match v with
  | Final =>
      match map_line_price pname lbl eff_base interactive_map_quarters with
      | Some map_price => map_price
      | None => effective_line_price product lbl eff_base
      end
  | Cloud => effective_line_price product lbl eff_base
  end.

(** The Summit Booth filter: [true] when the option is skipped. *)
Definition summit_booth_skip (pname opt_name : string) : bool :=
  if Str.contains "summit" (Str.lower pname) && Str.contains "booth" (Str.lower pname)
  then
    let low := Str.lower opt_name in
    let has_non := Str.contains "non-advertiser" low || Str.contains "non advertiser" low in
    let has_adv := Str.contains "advertiser" low && negb has_non in
    (is_advertiser && has_non) || (negb is_advertiser && has_adv)
  else false.

(** The price points of one option that survive [_is_restricted_tier],
    each with its effective unit price and its line price. *)
Definition priced_option (pname : string) (product : ProductRecord)
    (opt : PriceOption) : list Candidate :=
  let opt_name := default pname (option_name opt) in
  if summit_booth_skip pname opt_name then []
  else
    flat_map
      (fun '(lbl, base_price) =>
         if _is_restricted_tier v lbl is_advertiser then []
         else
           let eff_base :=
             get_effective_unit_price pname opt_name base_price
               (default empty_meta (meta !! pname)) chosen_date is_advertiser in
           [(opt_name, lbl, eff_base, line_price pname product lbl eff_base)])
      (price_points opt).

(** The two nested [for] loops over [product.price_options] and
    [price_points(opt)], which phase 1 and the upgrade loop both run: the
    eligible price points of a product, in enumeration order. *)
Definition priced_points (pname : string) (product : ProductRecord) : list Candidate :=
  flat_map (priced_option pname product) (price_options product).

(** *** Phase 1: baseline picks *)

(** One visit of the innermost loop body: does the point replace [best]? *)
Definition baseline_step (pname : string) (best : option Candidate)
    (c : Candidate) : option Candidate :=
  let line := cand_line c in
  match v with
  | Final =>
      if String.eqb pname "Chicago Does Interactive Map" then
        if Qle_bool line budget &&
           match best with None => true | Some b => Qltb (cand_line b) line end
        then Some c else best
      else
        if match best with None => true | Some b => Qltb line (cand_line b) end
        then Some c else best
  | Cloud =>
      if match best with None => true | Some b => Qltb line (cand_line b) end
      then Some c else best
  end.

Definition baseline_best (pname : string) (product : ProductRecord) : option Candidate :=
  fold_left (baseline_step pname) (priced_points pname product) None.

(** The body of [for pname, product in products.items()]. *)
Definition baseline_product (st : list (string * Pick) * Q)
    (entry : string * ProductRecord) : list (string * Pick) * Q :=
  let '(pname, product) := entry in
  match baseline_best pname product with
  | Some (opt_name, lbl, eff_base, _) =>
      (dict_set pname (opt_name, lbl, eff_base) (fst st),
       (snd st + line_price pname product lbl eff_base)%Q)
  | None => st
  end.

Definition baseline : list (string * Pick) * Q :=
  fold_left baseline_product products ([], 0%Q).

(** *** Phase 2: the upgrade loop *)

(** [upgrades.sort(key=lambda x: x[3])]: a stable ascending sort. *)
Fixpoint insert_by_line (c : Candidate) (l : list Candidate) : list Candidate :=
  match l with
  | [] => [c]
  | d :: t =>
      if Qle_bool (cand_line c) (cand_line d) then c :: d :: t
      else d :: insert_by_line c t
  end.

Definition sort_by_line (l : list Candidate) : list Candidate :=
  foldr insert_by_line [] l.

Record loop_state : Type := mkState {
  st_subtotal : Q;
  st_picks : list (string * Pick);
  st_improved : bool
}.

(** The upgrade candidates of a product at its current line price. *)
Definition upgrades_of (pname : string) (product : ProductRecord) (cur_line : Q) : list Candidate :=
  sort_by_line
    (List.filter (fun c => Qltb cur_line (cand_line c)) (priced_points pname product)).

(** The body of [for pname, (cur_opt, cur_lbl, cur_base) in list(picks.items())]. *)
Definition upgrade_step (st : loop_state) (entry : string * Pick) : outcome loop_state :=
  let '(pname, (cur_opt, cur_lbl, cur_base)) := entry in
  match dict_get pname products with
  | None => KeyError pname
  | Some product =>
      let cur_line := line_price pname product cur_lbl cur_base in
      match
        find (fun c => Qle_bool (st_subtotal st - cur_line + cand_line c) budget)
             (upgrades_of pname product cur_line)
      with
      | Some (opt_name, lbl, eff_base, new_line) =>
          Ret (mkState (st_subtotal st - cur_line + new_line)%Q
                       (dict_set pname (opt_name, lbl, eff_base) (st_picks st))
                       true)
      | None => Ret st
      end
  end.

(** One pass of the [for] loop over the snapshot [list(picks.items())]. *)
Fixpoint upgrade_pass (snapshot : list (string * Pick)) (st : loop_state) : outcome loop_state :=
  match snapshot with
  | [] => Ret st
  | entry :: rest => st' ← upgrade_step st entry; upgrade_pass rest st'
  end.

(** [while improved: ...], [fuel] passes at most. *)
Fixpoint upgrade_loop (fuel : nat) (subtotal : Q) (picks : list (string * Pick))
    : outcome (list (string * Pick) * Q) :=
  match fuel with
  | O => OutOfFuel
  | S fuel' =>
      st ← upgrade_pass picks (mkState subtotal picks false);
      if st_improved st then upgrade_loop fuel' (st_subtotal st) (st_picks st)
      else Ret (st_picks st, st_subtotal st)
  end.

(** The allocator up to the final rounding: picks, the running subtotal
    and [forced_overage]. *)
Definition greedy_raw (fuel : nat) : outcome (list (string * Pick) * Q * bool) :=
  let '(picks0, subtotal0) := baseline in
  let forced_overage := Qltb budget subtotal0 in
  if forced_overage then Ret (picks0, subtotal0, true)
  else
    r ← upgrade_loop fuel subtotal0 picks0;
    Ret (fst r, snd r, false).

Definition greedy_fill_to_cap_fuel (fuel : nat) : outcome (Selection * bool) :=
  r ← greedy_raw fuel;
  let '(picks, subtotal, forced_overage) := r in
  Ret (mkSelection picks (round2 subtotal), forced_overage).

(** The number of price points of its product that are strictly dearer
    than a pick: how many more upgrades the product can take. *)
Definition dearer_count (entry : string * Pick) : nat :=
  let '(pname, (_, lbl, eff_base)) := entry in
  match dict_get pname products with
  | None => 0
  | Some product =>
      length (List.filter (fun c => Qltb (line_price pname product lbl eff_base) (cand_line c))
                          (priced_points pname product))
  end.

Definition headroom (picks : list (string * Pick)) : nat :=
  sum_list (map dearer_count picks).

(** Passes that suffice: one per upgrade still possible after phase 1,
    and the last pass, which changes nothing. *)
Definition max_passes : nat := S (headroom (fst baseline)).

Definition greedy_fill_to_cap : outcome (Selection * bool) :=
  greedy_fill_to_cap_fuel max_passes.

End Allocator.

(** ** [run_fill_to_cap] *)

(** [total_budget * (pct / 100.0)]: the quotient is rounded to a float, and
    then the product is. *)
Definition pool_budget (total_budget pct : Q) : Q :=
  Binary64.fmul total_budget (Binary64.fdiv pct 100).

Definition warning_text (v : variant) : string :=
  match v with
  | Cloud =>
      "Heads up: Even with the most cost-effective options selected, the current budget distribution cannot support this product mix. "
      +:+ "To proceed with these items, please consider adjusting the budget distribution % or increasing the overall investment."
  | Final =>
      "Heads up: Even with the most cost-effective options selected, "
      +:+ "the current budget distribution cannot support this product mix."
  end.

Definition run_fill_to_cap `{P : Pricing} (v : variant)
    (total_budget tourist_pct industry_pct : Q)
    (t_set i_set : list (string * ProductRecord))
    (meta : gmap string ProductMeta) (chosen_date : option Date)
    (is_advertiser : bool) (interactive_map_quarters : option Z)
    : outcome (Selection * Selection * Q * option string) :=
  let t_budget := pool_budget total_budget tourist_pct in
  let i_budget := pool_budget total_budget industry_pct in
  '(t_sel, t_warn) ← greedy_fill_to_cap v t_budget t_set meta chosen_date
                        is_advertiser interactive_map_quarters;
  '(i_sel, i_warn) ← greedy_fill_to_cap v i_budget i_set meta chosen_date
                        is_advertiser interactive_map_quarters;
  let grand_total := round2 (subtotal t_sel + subtotal i_sel) in
  let warning_msg := if t_warn || i_warn then Some (warning_text v) else None in
  Ret (t_sel, i_sel, grand_total, warning_msg).

(** ** [qty_from_tier] of [streamlit_app.py] *)

Module Tier.

(** [str.isspace] on ASCII. *)
Definition is_space (c : ascii) : bool :=
  let n := nat_of_ascii c in
  (((9 <=? n) && (n <=? 13)) || ((28 <=? n) && (n <=? 32)))%nat.

Definition is_digit (c : ascii) : bool :=
  let n := nat_of_ascii c in ((48 <=? n) && (n <=? 57))%nat.

(** A character below 128. On a label of such characters [str.strip],
    [\s] and [\d] see the blanks and digits above and no others. *)
Definition is_ascii (c : ascii) : bool := (nat_of_ascii c <? 128)%nat.

(** The longest numeral that [int] converts ([sys.int_max_str_digits]);
    a longer one raises [ValueError]. *)
Definition MAX_STR_DIGITS : nat := 4300.

Fixpoint lstrip (s : string) : string :=
  match s with
  | String c t => if is_space c then lstrip t else s
  | EmptyString => EmptyString
  end.

(** [s.rstrip()]: drop the trailing white space. *)
Fixpoint rstrip (s : string) : string :=
  match s with
  | EmptyString => EmptyString
  | String c t =>
      match rstrip t with
      | EmptyString => if is_space c then EmptyString else String c EmptyString
      | t' => String c t'
      end
  end.

Definition strip (s : string) : string := rstrip (lstrip s).

(** [\s*[xX]] up to the end of the string. *)
Fixpoint spaces_then_x (s : string) : bool :=
  match s with
  | String c EmptyString => Ascii.eqb c "x" || Ascii.eqb c "X"
  | String c t => is_space c && spaces_then_x t
  | EmptyString => false
  end.

(** [(\d+)] with the digits read so far in [acc], then [spaces_then_x]. *)
Fixpoint digits_then (acc : Z) (s : string) : option Z :=
  match s with
  | String c t =>
      if is_digit c
      then
        let acc' := (10 * acc + Z.of_nat (nat_of_ascii c - 48))%Z in
        match digits_then acc' t with
        | Some n => Some n
        | None => if spaces_then_x t then Some acc' else None
        end
      else None
  | EmptyString => None
  end.

(** [re.fullmatch(r"(\d+)\s*[xX]", tier.strip())], and [1] without a match
    or for an empty tier: the quantity that the function returns for a
    label of ASCII characters whose numeral [int] converts. *)
Definition qty_from_tier (tier : string) : Z :=
  match tier with
  | EmptyString => 1%Z
  | _ => match digits_then 0 (strip tier) with Some n => n | None => 1%Z end
  end.

End Tier.

(** ** The pricing collaborators as the specification describes them *)

Module SpecPricing.

Record price_option : Type := mkOption {
  name : option string;
  points : list (string * Q)
}.

Record product_record : Type := mkProduct {
  options : list price_option
}.

(** Dates as day numbers. A seasonal window [(option, first, last, price)]
    and an advertiser override [(option, price)]. *)
Record product_meta : Type := mkMeta {
  seasonal : list (string * Z * Z * Q);
  advertiser_prices : list (string * Q)
}.

(** Modelled from the spec: [get_effective_unit_price] of [ateema.pricing]
    is not among the sources. "Applies, in order: (1) a seasonal override if
    reference_date falls within a configured window for that product/option,
    replacing base_price; (2) an advertiser-specific override price if
    is_advertiser is true and one is configured for that product/option,
    replacing the (possibly seasonal) price"; absent metadata and an absent
    date leave the base price as it is. *)
Definition get_effective_unit_price (product_name option_name : string)
    (base_price : Q) (m : product_meta) (chosen_date : option Z)
    (is_advertiser : bool) : Q :=
  let seasonal_price :=
    match chosen_date with
    | None => base_price
    | Some d =>
        match
          find (fun w : string * Z * Z * Q =>
                  let '(o, first, last, _) := w in
                  String.eqb o option_name && (first <=? d)%Z && (d <=? last)%Z)
               (seasonal m)
        with
        | Some (_, _, _, p) => p
        | None => base_price
        end
    end in
  if is_advertiser then
    match dict_get option_name (advertiser_prices m) with
    | Some p => p
    | None => seasonal_price
    end
  else seasonal_price.

(** Modelled from the spec: [effective_line_price] of [ateema.pricing] is
    not among the sources. "It derives a quantity from the tier label
    pattern <integer>x (case-insensitive), defaulting to quantity 1 when the
    tier label does not match that pattern, and multiplies unit_price by
    that quantity"; the quantity is read as [qty_from_tier] reads it. *)
Definition effective_line_price (product : product_record) (tier_label : string)
    (unit_price : Q) : Q :=
  (unit_price * inject_Z (Tier.qty_from_tier tier_label))%Q.

(** Modelled from the spec: [price_points] of [ateema.pricing] is not among
    the sources. A price option has "a sequence of (tier label, base price)
    pairs (price points)". *)
Definition price_points (opt : price_option) : list (string * Q) := points opt.

#[global] Instance pricing : Pricing :=
  Build_Pricing product_record price_option product_meta Z
    options name (mkMeta [] [])
    price_points get_effective_unit_price effective_line_price.

End SpecPricing.

(** ** Sample catalogs *)

Module Samples.
Import SpecPricing.

Definition banner_ad : list (string * ProductRecord) :=
  [("Banner Ad", mkProduct [mkOption None [("1x", 100%Q); ("4x", 350%Q)]])].

Definition no_meta : gmap string ProductMeta := ∅.

(** An Interactive Map with two tiers next to a one-tier product. *)
Definition map_and_banner : list (string * ProductRecord) :=
  [("Chicago Does Interactive Map",
    mkProduct [mkOption None [("Standard", 5%Q); ("Premium", 10%Q)]]);
   ("Banner Ad", mkProduct [mkOption None [("1x", 3%Q)]])].

(** An Interactive Map with one per-quarter price. *)
Definition map_500 : list (string * ProductRecord) :=
  [("Chicago Does Interactive Map", mkProduct [mkOption None [("Quarterly", 500%Q)]])].

(** A product with a negative price in front of an Interactive Map. *)
Definition rebate_and_map : list (string * ProductRecord) :=
  [("Banner Ad", mkProduct [mkOption None [("Rebate", (-3)%Q); ("Plus", (39 # 10)%Q)]]);
   ("Chicago Does Interactive Map",
    mkProduct [mkOption None [("Standard", 5%Q); ("Premium", 10%Q)]])].

(** A product with an advertiser-only tier and a Summit Booth with one
    option per audience. *)
Definition segmented : list (string * ProductRecord) :=
  [("Banner Ad",
    mkProduct [mkOption None [("Existing Advertiser Rate", 10%Q); ("1x", 100%Q)]]);
   ("Summit Booth",
    mkProduct [mkOption (Some "Advertiser Booth") [("1x", 500%Q)];
               mkOption (Some "Non-Advertiser Booth") [("1x", 900%Q)]])].

(** One product at 2850, which is 57% of 5000. *)
Definition sponsorship : list (string * ProductRecord) :=
  [("Gala Sponsorship", mkProduct [mkOption None [("Standard", 2850%Q)]])].

(** Two products with two tiers each. *)
Definition two_products : list (string * ProductRecord) :=
  [("Banner Ad", mkProduct [mkOption None [("1x", 100%Q); ("2x", 90%Q)]]);
   ("Newsletter", mkProduct [mkOption (Some "Newsletter Feature")
                               [("Standard", 50%Q); ("Premium", 120%Q)]])].

End Samples.

(** ** The table rows of [streamlit_app.py] *)

Module Rows.

(** A row of the proposal table: the dict that [rows_from_selection] and
    [_render_table] build, with its nine keys. *)
Record Row : Type := mkRow {
  row_product : string;
  row_option : string;
  row_qty : Z;
  row_unit_price_original : Q;
  row_unit_price : Q;
  row_discount : string;
  row_total_price_original : Q;
  row_total_price : Q;
  row_reasoning : string
}.

(** [f"{pool_label}|{row.get('product', '')}|{row.get('option', '')}"] *)
Definition _row_key (pool_label : string) (row : Row) : string :=
  pool_label +:+ "|" +:+ row_product row +:+ "|" +:+ row_option row.

(** [float(rr.get("qty") or 1) or 1.0] *)
Definition effective_qty (row : Row) : Q :=
  if (row_qty row =? 0)%Z then 1%Q else inject_Z (row_qty row).

(** [note + (" | " if note else "") + tag] *)
Definition tagged (note tag : string) : string :=
  note +:+ (match note with EmptyString => "" | _ => " | " end) +:+ tag.

(** The body of the loop of [_apply_price_overrides] for a row whose key
    has the override [new_total]. The unit price is the exact quotient,
    which Python rounds to a float. *)
Definition override_row (new_total : Q) (rr : Row) : Row :=
  mkRow (row_product rr) (row_option rr) (row_qty rr) (row_unit_price_original rr)
        (new_total / effective_qty rr)
        (tagged (row_discount rr) "Price override")
        (row_total_price_original rr) new_total (row_reasoning rr).

(** [_apply_price_overrides] of the Final variant; [overrides] is
    [st.session_state["price_overrides"]], empty when the key is not set. *)
Definition _apply_price_overrides (overrides : gmap string Q) (pool_label : string)
    (rows : list Row) : list Row :=
  map (fun r =>
         match overrides !! _row_key pool_label r with
         | Some new_total => override_row new_total r
         | None => r
         end)
      rows.

(** A row of the override editor: [Pool], [Product], [Option],
    [Base Total] and [New Total]. *)
Record EditRow : Type := mkEditRow {
  edit_pool : string;
  edit_product : string;
  edit_option : string;
  edit_base_total : Q;
  edit_new_total : Q
}.

(** [f"{row['Pool']}|{row['Product']}|{row['Option']}"] *)
Definition edit_key (row : EditRow) : string :=
  edit_pool row +:+ "|" +:+ edit_product row +:+ "|" +:+ edit_option row.

(** [_apply_from_editor]: the overrides that it stores back into the
    session state. *)
Definition _apply_from_editor (overrides : gmap string Q) (edited : list EditRow)
    : gmap string Q :=
  fold_left
    (fun ov row =>
       if Qltb (1 # 1000000000) (Qabs (edit_new_total row - edit_base_total row))
       then <[edit_key row := edit_new_total row]> ov
       else delete (edit_key row) ov)
    edited overrides.

(** The editor row that the dialog builds for a table row of a pool. *)
Definition editor_row (pool : string) (base : Row) (new_total : Q) : EditRow :=
  mkEditRow pool (row_product base) (row_option base) (row_total_price base) new_total.

(** *** The Networking Event benefit, the tail of [rows_from_selection] *)

Definition THRESHOLD : Q := 12500.

Definition benefit_label : string := "Included at no cost with $12,500+ investment".

(** ["network" in pname and "event" in pname], on the lower-cased name. *)
Definition is_network (row : Row) : bool :=
  let pname := Str.lower (row_product row) in
  Str.contains "network" pname && Str.contains "event" pname.

(** [is_network and is_host] of the Final variant. *)
Definition is_host_row (row : Row) : bool :=
  let opt := Str.lower (row_option row) in
  let unit_orig := row_unit_price_original row in
  is_network row &&
  (Str.contains "host" opt || Qltb (Qabs (unit_orig - 3500)) (1 # 1000000)).

(** The sum of [total_price] over the rows that [p] selects. *)
Definition total_where (p : Row -> bool) (rows : list Row) : Q :=
  fold_left (fun acc r => if p r then (acc + row_total_price r)%Q else acc) rows 0%Q.

(** A row made complimentary. *)
Definition complimentary (row : Row) : Row :=
  mkRow (row_product row) (row_option row) (row_qty row) (row_unit_price_original row)
        0 benefit_label (row_total_price_original row) 0 (row_reasoning row).

(** The row that the Cloud variant appends when no Network Event is in
    the table. *)
Definition free_network_event : Row :=
  mkRow "Network Event" "Standard Network Event" 1 3500 0 benefit_label 3500 0
        "Complimentary networking event benefit for $12,500+ investment.".

(** What [rows_from_selection] does to the rows [out] that it has built,
    from the comment "Networking Event host/attend" to its [return]. *)
Definition networking_benefit (v : variant) (label : string) (grand_total : option Q)
    (out : list Row) : list Row :=
  if negb (String.eqb label "industry") then out
  else
    match grand_total with
    | None => out
    | Some gt =>
        match v with
        | Final =>
            if negb (existsb is_host_row out) then out
            else if Qltb (gt - total_where is_host_row out) THRESHOLD then out
            else map (fun r => if is_host_row r then complimentary r else r) out
        | Cloud =>
            if Qltb gt THRESHOLD then out
            else if existsb is_network out
            then map (fun r => if is_network r then complimentary r else r) out
            else out ++ [free_network_event]
        end
    end.

(** [sum(r["total_price"] for r in rows)] of [_render_table]. *)
Definition table_total (rows : list Row) : Q :=
  fold_left (fun acc r => (acc + row_total_price r)%Q) rows 0%Q.

End Rows.

(** ** The reasoning column: [make_reasoning] of [streamlit_app.py] *)

Module Reasoning.

(** The entry of the global [meta] for a product, with the three keys that
    [make_reasoning] reads; a key that is missing reads as the empty
    string, an option without notes as no entry of [option_notes]. *)
Record ProductInfo : Type := mkInfo {
  product_description : string;
  sales_strategy : string;
  option_notes : gmap string string
}.

(** [{}], the default of [meta.get(product, {})]. *)
Definition no_info : ProductInfo := mkInfo "" "" ∅.

(** [s.split(".")[0]] *)
Fixpoint before_dot (s : string) : string :=
  match s with
  | EmptyString => EmptyString
  | String c t => if Ascii.eqb "." c then EmptyString else String c (before_dot t)
  end.

(** [text.strip().split(".")[0]] *)
Definition first_clause (text : string) : string := before_dot (Tier.strip text).

(** [if text: bullets.append(text.strip().split(".")[0])] *)
Definition add_clause (text : string) (bullets : list string) : list string :=
  match text with
  | EmptyString => bullets
  | _ => bullets ++ [first_clause text]
  end.

(** The list [bullets] at the end of [make_reasoning], after [bullets[:4]]. *)
Definition bullets (meta : gmap string ProductInfo)
    (product option focus market_target : string) : list string :=
  let info := default no_info (meta !! product) in
  let desc := product_description info in
  let strategy := sales_strategy info in
  let notes := default "" (option_notes info !! option) in
  take 4
    (add_clause strategy
       (add_clause desc
          (add_clause notes
             ["Supports " +:+ Str.lower focus; "Reaches " +:+ Str.lower market_target]))).

(** [sep.join(items)] *)
Fixpoint join (sep : string) (items : list string) : string :=
  match items with
  | [] => ""
  | [x] => x
  | x :: rest => x +:+ sep +:+ join sep rest
  end.

(** [make_reasoning]; it does not read [tier] and [label]. *)
Definition make_reasoning (meta : gmap string ProductInfo)
    (product option tier label focus market_target : string) : string :=
  join "; " (bullets meta product option focus market_target).

End Reasoning.

(** ** Predicates used in the statements *)

(** [c], at position [i] of [l], has the least line price of [l], and is
    the first of [l] to have it. *)
Definition is_first_min (l : list Candidate) (i : nat) (c : Candidate) : Prop :=
  l !! i = Some c /\
  forall j d, l !! j = Some d ->
    (cand_line c <= cand_line d)%Q /\ (j < i -> (cand_line c < cand_line d)%Q).

(** [c], at position [i] of [l], has the greatest line price among the
    points of [l] that do not exceed [budget], and is the first to have it. *)
Definition is_first_max_under (budget : Q) (l : list Candidate) (i : nat)
    (c : Candidate) : Prop :=
  l !! i = Some c /\ (cand_line c <= budget)%Q /\
  forall j d, l !! j = Some d -> (cand_line d <= budget)%Q ->
    (cand_line d <= cand_line c)%Q /\ (j < i -> (cand_line d < cand_line c)%Q).

(** The entries of the snapshot that a pass has still to visit are the
    current picks of their products, and every product is in the catalog. *)
Definition snapshot_ok `{P : Pricing} (products : list (string * ProductRecord))
    (rest picks : list (string * Pick)) : Prop :=
  NoDup (keys rest) /\
  forall k p, (k, p) ∈ rest -> dict_get k picks = Some p /\ k ∈ keys products.

(** The states of the upgrade loop that starts from subtotal [s0] and
    picks [p0]: the start, the state after any step, and the state at the
    start of a further pass. *)
Inductive loop_visits `{P : Pricing} (v : variant) (budget : Q)
    (products : list (string * ProductRecord)) (meta : gmap string ProductMeta)
    (chosen_date : option Date) (is_advertiser : bool)
    (interactive_map_quarters : option Z)
    (s0 : Q) (p0 : list (string * Pick)) : loop_state -> Prop :=
| visit_start :
    loop_visits v budget products meta chosen_date is_advertiser
      interactive_map_quarters s0 p0 (mkState s0 p0 false)
| visit_step st e st' :
    loop_visits v budget products meta chosen_date is_advertiser
      interactive_map_quarters s0 p0 st ->
    upgrade_step v budget products meta chosen_date is_advertiser
      interactive_map_quarters st e = Ret st' ->
    loop_visits v budget products meta chosen_date is_advertiser
      interactive_map_quarters s0 p0 st'
| visit_next_pass st :
    loop_visits v budget products meta chosen_date is_advertiser
      interactive_map_quarters s0 p0 st ->
    loop_visits v budget products meta chosen_date is_advertiser
      interactive_map_quarters s0 p0 (mkState (st_subtotal st) (st_picks st) false).

(** No eligible price point of the catalog has a negative line price. *)
Definition nonneg_lines `{P : Pricing} (v : variant)
    (products : list (string * ProductRecord)) (meta : gmap string ProductMeta)
    (chosen_date : option Date) (is_advertiser : bool)
    (interactive_map_quarters : option Z) : Prop :=
  forall pname product c,
    (pname, product) ∈ products ->
    c ∈ priced_points v meta chosen_date is_advertiser interactive_map_quarters
          pname product ->
    (0 <= cand_line c)%Q.

(** The quarter count that [map_line_price] multiplies by. *)
Definition quarters_or_one (interactive_map_quarters : option Z) : Z :=
  match interactive_map_quarters with
  | None | Some 0%Z => 1%Z
  | Some n => n
  end.

(** ** Measures and predicates on the picks of a Selection *)

(** The line price of a pick, as the upgrade loop computes [cur_line]. *)
Definition pick_line `{P : Pricing} (v : variant)
    (products : list (string * ProductRecord))
    (interactive_map_quarters : option Z) (entry : string * Pick) : Q :=
  let '(pname, (_, lbl, eff_base)) := entry in
  match dict_get pname products with
  | Some product => line_price v interactive_map_quarters pname product lbl eff_base
  | None => 0%Q
  end.

(** The sum of the line prices of the picks. *)
Definition picks_total `{P : Pricing} (v : variant)
    (products : list (string * ProductRecord))
    (interactive_map_quarters : option Z) (picks : list (string * Pick)) : Q :=
  foldr (fun e acc => (pick_line v products interactive_map_quarters e + acc)%Q) 0%Q picks.

(** The pick is one of the eligible price points of the product of that
    name in the catalog. *)
Definition eligible_pick `{P : Pricing} (v : variant)
    (products : list (string * ProductRecord)) (meta : gmap string ProductMeta)
    (chosen_date : option Date) (is_advertiser : bool)
    (interactive_map_quarters : option Z) (pname : string) (pick : Pick) : Prop :=
  exists (product : ProductRecord) (c : Candidate),
    dict_get pname products = Some product /\
    c ∈ priced_points v meta chosen_date is_advertiser interactive_map_quarters
          pname product /\
    cand_pick c = pick.

(** The subtotal is the sum of the line prices of the picks, and every
    pick is an eligible price point of its product. *)
Definition sum_and_eligible `{P : Pricing} (v : variant)
    (products : list (string * ProductRecord)) (meta : gmap string ProductMeta)
    (chosen_date : option Date) (is_advertiser : bool)
    (interactive_map_quarters : option Z)
    (st : list (string * Pick) * Q) : Prop :=
  (st.2 == picks_total v products interactive_map_quarters st.1)%Q /\
  forall k p,
    dict_get k st.1 = Some p ->
    eligible_pick v products meta chosen_date is_advertiser interactive_map_quarters k p.

(** The two variants of [_is_restricted_tier] agree on every tier label
    of the catalog. *)
Definition variants_filter_alike `{P : Pricing}
    (products : list (string * ProductRecord)) (is_advertiser : bool) : Prop :=
  forall pname product opt lbl base_price,
    (pname, product) ∈ products ->
    opt ∈ price_options product ->
    (lbl, base_price) ∈ price_points opt ->
    _is_restricted_tier Cloud lbl is_advertiser
      = _is_restricted_tier Final lbl is_advertiser.

(** * Properties *)

(** ** Examples *)

Example restricted_existing_advertiser_rate :
  _is_restricted_tier Final "Existing Advertiser Rate" false = true /\
  _is_restricted_tier Cloud "Existing Advertiser Rate" false = true /\
  _is_restricted_tier Final "Existing Advertiser Rate" true = false.
Proof. repeat split; reflexivity. Qed.

Example restricted_non_advertiser_bundle :
  _is_restricted_tier Final "Non-Advertiser 4x" false = false /\
  _is_restricted_tier Final "Non-Advertiser Bundle" false = true /\
  _is_restricted_tier Final "Rate With Campaign" false = true /\
  _is_restricted_tier Cloud "Rate With Campaign" false = false.
Proof. repeat split; reflexivity. Qed.

Example qty_from_tier_examples :
  Tier.qty_from_tier "4x" = 4%Z /\ Tier.qty_from_tier " 12 X " = 12%Z /\
  Tier.qty_from_tier "1x" = 1%Z /\ Tier.qty_from_tier "Annual" = 1%Z /\
  Tier.qty_from_tier "4x rate" = 1%Z /\ Tier.qty_from_tier "" = 1%Z /\
  Tier.qty_from_tier "x" = 1%Z.
Proof. repeat split; reflexivity. Qed.

(** The Interactive Map at 500 per quarter and a budget of 2000: three
    quarters fit, five quarters do not and leave the Map without a pick. *)
Example map_quarters_scenario :
  greedy_fill_to_cap Final 2000 Samples.map_500 Samples.no_meta None false (Some 3%Z)
    = Ret (mkSelection
             [("Chicago Does Interactive Map",
               ("Chicago Does Interactive Map", "Quarterly", 500%Q))]
             (round2 1500), false) /\
  greedy_fill_to_cap Final 2000 Samples.map_500 Samples.no_meta None false (Some 5%Z)
    = Ret (mkSelection [] (round2 0), false).
Proof. split; vm_compute; reflexivity. Qed.

(** A catalog that no budget share can pay: both pools report forced
    overage and the run carries the warning. *)
Example run_fill_to_cap_warning :
  exists t_sel i_sel grand_total,
    run_fill_to_cap Final 100 60 40 Samples.banner_ad Samples.two_products
      Samples.no_meta None true None
    = Ret (t_sel, i_sel, grand_total, Some (warning_text Final)) /\
    (grand_total == 250)%Q.
Proof. eexists _, _, _. split; [vm_compute; reflexivity | reflexivity]. Qed.

(** ** Comparisons and rounding *)

Lemma Qltb_lt (x y : Q) : Qltb x y = true <-> (x < y)%Q.
Proof.
  unfold Qltb. rewrite Qlt_alt. destruct (x ?= y)%Q; split; congruence.
Qed.

Lemma Qltb_ge (x y : Q) : Qltb x y = false <-> (y <= x)%Q.
Proof.
  rewrite <- Bool.not_true_iff_false, Qltb_lt. split.
  - apply Qnot_lt_le.
  - intros H1 H2. exact (Qlt_not_le _ _ H2 H1).
Qed.

Lemma Qle_bool_false (x y : Q) : Qle_bool x y = false <-> (y < x)%Q.
Proof.
  rewrite <- Bool.not_true_iff_false, Qle_bool_iff. split.
  - apply Qnot_le_lt.
  - intros H1 H2. exact (Qlt_not_le _ _ H1 H2).
Qed.

Lemma round_half_even_bounds (x : Q) :
  (Qfloor x <= round_half_even x <= Qfloor x + 1)%Z.
Proof.
  unfold round_half_even.
  destruct (x - inject_Z (Qfloor x) ?= 1 # 2)%Q; [destruct (Z.even _) | |]; lia.
Qed.

Lemma round_half_even_mono (x y : Q) :
  (x <= y)%Q -> (round_half_even x <= round_half_even y)%Z.
Proof.
  intros Hxy.
  pose proof (Qfloor_resp_le _ _ Hxy) as Hf.
  destruct (Z.eq_dec (Qfloor x) (Qfloor y)) as [Heq | Hne].
  - unfold round_half_even. rewrite <- Heq.
    destruct (x - inject_Z (Qfloor x) ?= 1 # 2)%Q eqn:Hx;
      destruct (y - inject_Z (Qfloor x) ?= 1 # 2)%Q eqn:Hy;
      try (destruct (Z.even (Qfloor x)); lia); try lia; exfalso.
    + apply Qeq_alt in Hx. apply Qlt_alt in Hy. lra.
    + apply Qgt_alt in Hx. apply Qeq_alt in Hy. lra.
    + apply Qgt_alt in Hx. apply Qlt_alt in Hy. lra.
  - pose proof (round_half_even_bounds x). pose proof (round_half_even_bounds y). lia.
Qed.

Lemma round2_mono (x y : Q) : (x <= y)%Q -> (round2 x <= round2 y)%Q.
Proof.
  intros Hxy. unfold round2, Qle. simpl.
  apply Z.mul_le_mono_nonneg_r; [lia |].
  apply round_half_even_mono. lra.
Qed.

(** ** Dictionaries *)

Section Dict.
Context {V : Type}.
Implicit Types (d : list (string * V)) (k : string) (x : V).

Lemma keys_cons k x d : keys ((k, x) :: d) = k :: keys d.
Proof. reflexivity. Qed.

Lemma dict_get_elem_of k d x : dict_get k d = Some x -> (k, x) ∈ d.
Proof.
  induction d as [| [k' x'] t IH]; simpl; [discriminate |].
  destruct (String.eqb_spec k k') as [-> | Hne].
  - intros [= ->]. left.
  - intros H. right. auto.
Qed.

Lemma dict_get_None k d : dict_get k d = None <-> k ∉ keys d.
Proof.
  induction d as [| [k' x'] t IH]; simpl.
  - split; [intros _; apply not_elem_of_nil | reflexivity].
  - rewrite keys_cons, not_elem_of_cons.
    destruct (String.eqb_spec k k') as [-> | Hne].
    + split; [discriminate | intros [H _]; congruence].
    + rewrite IH. tauto.
Qed.

Lemma dict_get_is_Some k d : k ∈ keys d -> exists x, dict_get k d = Some x.
Proof.
  intros Hin. destruct (dict_get k d) as [x |] eqn:E; [eauto |].
  apply dict_get_None in E. tauto.
Qed.

Lemma dict_get_Some_key k d x : dict_get k d = Some x -> k ∈ keys d.
Proof.
  intros H. destruct (decide (k ∈ keys d)) as [Hin | Hnin]; [assumption |].
  apply dict_get_None in Hnin. congruence.
Qed.

Lemma dict_get_NoDup k d x : NoDup (keys d) -> (k, x) ∈ d -> dict_get k d = Some x.
Proof.
  induction d as [| [k' x'] t IH]; simpl.
  - intros _ H. apply elem_of_nil in H. tauto.
  - rewrite keys_cons, NoDup_cons, elem_of_cons. intros [Hk' Hnd] [Heq | Hin].
    + inversion Heq; subst. now rewrite String.eqb_refl.
    + destruct (String.eqb_spec k k') as [-> | Hne]; [| auto].
      exfalso. apply Hk'. apply (list_elem_of_fmap_2 fst) in Hin. exact Hin.
Qed.

Lemma dict_get_set_eq k x d : dict_get k (dict_set k x d) = Some x.
Proof.
  induction d as [| [k' x'] t IH]; simpl.
  - now rewrite String.eqb_refl.
  - destruct (String.eqb_spec k k') as [-> | Hne]; simpl.
    + now rewrite String.eqb_refl.
    + destruct (String.eqb_spec k k'); [congruence | exact IH].
Qed.

Lemma dict_get_set_ne k k' x d : k <> k' -> dict_get k' (dict_set k x d) = dict_get k' d.
Proof.
  intros Hne. induction d as [| [k0 x0] t IH]; simpl.
  - destruct (String.eqb_spec k' k); [congruence | reflexivity].
  - destruct (String.eqb_spec k k0) as [-> | Hne0]; simpl.
    + destruct (String.eqb_spec k' k0); [congruence | reflexivity].
    + destruct (String.eqb_spec k' k0); [reflexivity | exact IH].
Qed.

(** Assigning to a key that is present leaves the keys as they are. *)
Lemma keys_dict_set_present k x d : k ∈ keys d -> keys (dict_set k x d) = keys d.
Proof.
  induction d as [| [k0 x0] t IH]; simpl.
  - intros H. apply elem_of_nil in H. tauto.
  - rewrite !keys_cons, elem_of_cons. intros Hin.
    destruct (String.eqb_spec k k0) as [-> | Hne]; [reflexivity |].
    rewrite keys_cons. f_equal. apply IH. destruct Hin; [congruence | assumption].
Qed.

(** A new key goes last. *)
Lemma keys_dict_set_absent k x d : k ∉ keys d -> keys (dict_set k x d) = keys d ++ [k].
Proof.
  induction d as [| [k0 x0] t IH]; simpl; [reflexivity |].
  rewrite !keys_cons, not_elem_of_cons. intros [Hne Hin].
  destruct (String.eqb_spec k k0) as [-> | _]; [congruence |].
  rewrite keys_cons. simpl. f_equal. apply IH. assumption.
Qed.

Lemma elem_of_keys_dict_set k k' x d : k' ∈ keys (dict_set k x d) <-> k' = k \/ k' ∈ keys d.
Proof.
  destruct (decide (k ∈ keys d)) as [Hin | Hnin].
  - rewrite keys_dict_set_present by assumption. split; [tauto |].
    intros [-> | ?]; assumption.
  - rewrite keys_dict_set_absent by assumption.
    rewrite elem_of_app, list_elem_of_singleton. tauto.
Qed.

Lemma NoDup_keys_dict_set k x d : NoDup (keys d) -> NoDup (keys (dict_set k x d)).
Proof.
  intros Hnd. destruct (decide (k ∈ keys d)) as [Hin | Hnin].
  - now rewrite keys_dict_set_present.
  - rewrite keys_dict_set_absent by assumption.
    apply NoDup_app. split; [assumption |]. split; [| apply NoDup_singleton].
    intros y Hy Hy'. apply list_elem_of_singleton in Hy'. subst. tauto.
Qed.

End Dict.

(** ** Phase 1 *)

Section Baseline.
Context `{P : Pricing}.
Variables (v : variant) (budget : Q).

Lemma baseline_step_cheapest (pname : string) (best : option Candidate) (c : Candidate) :
  v = Cloud \/ pname <> MAP_NAME ->
  baseline_step v budget pname best c =
    if match best with None => true | Some b => Qltb (cand_line c) (cand_line b) end
    then Some c else best.
Proof.
  intros Hv. unfold baseline_step. destruct v; [reflexivity |].
  destruct Hv as [Hv | Hne]; [discriminate |].
  destruct (String.eqb_spec pname "Chicago Does Interactive Map"); [| reflexivity].
  contradiction.
Qed.

Lemma baseline_step_map (best : option Candidate) (c : Candidate) :
  baseline_step Final budget MAP_NAME best c =
    if Qle_bool (cand_line c) budget &&
       match best with None => true | Some b => Qltb (cand_line b) (cand_line c) end
    then Some c else best.
Proof. reflexivity. Qed.

(** The cheapest-first fold returns the first cheapest point. *)
Lemma fold_cheapest (pname : string) (l : list Candidate) :
  v = Cloud \/ pname <> MAP_NAME ->
  match fold_left (baseline_step v budget pname) l None with
  | None => l = []
  | Some c => exists i, is_first_min l i c
  end.
Proof.
  intros Hv. induction l as [| x l IH] using rev_ind; [reflexivity |].
  rewrite fold_left_app. simpl. rewrite baseline_step_cheapest by assumption.
  destruct (fold_left _ l None) as [b |].
  - destruct IH as (i & Hi & Hmin).
    destruct (Qltb (cand_line x) (cand_line b)) eqn:Hlt.
    + apply Qltb_lt in Hlt. exists (length l). split.
      * apply list_lookup_middle. reflexivity.
      * intros j d Hj. apply lookup_snoc_Some in Hj as [[Hjl Hj] | [-> ->]].
        -- destruct (Hmin j d Hj) as [Hle _]. split; [lra | intros _; lra].
        -- split; [lra | lia].
    + apply Qltb_ge in Hlt. exists i. split.
      * apply lookup_app_l_Some. exact Hi.
      * intros j d Hj. apply lookup_snoc_Some in Hj as [[Hjl Hj] | [-> ->]].
        -- exact (Hmin j d Hj).
        -- split; [exact Hlt |]. intros Hji.
           apply lookup_lt_Some in Hi. lia.
  - subst l. exists 0. split; [reflexivity |].
    intros j d Hj. apply list_lookup_singleton_Some in Hj as [-> ->].
    split; [lra | lia].
Qed.

(** The Interactive Map fold returns the first dearest point among those
    within the budget, and nothing when no point is within the budget. *)
Lemma fold_map (l : list Candidate) :
  match fold_left (baseline_step Final budget MAP_NAME) l None with
  | None => forall d, d ∈ l -> (budget < cand_line d)%Q
  | Some c => exists i, is_first_max_under budget l i c
  end.
Proof.
  induction l as [| x l IH] using rev_ind.
  - simpl. intros d Hd. apply elem_of_nil in Hd. tauto.
  - rewrite fold_left_app. cbn [fold_left]. rewrite baseline_step_map.
    destruct (fold_left _ l None) as [b |].
    + destruct IH as (i & Hi & Hb & Hmax).
      destruct (Qle_bool (cand_line x) budget) eqn:Hfit; simpl.
      * apply Qle_bool_iff in Hfit.
        destruct (Qltb (cand_line b) (cand_line x)) eqn:Hlt.
        -- apply Qltb_lt in Hlt. exists (length l). split; [| split].
           ++ apply list_lookup_middle. reflexivity.
           ++ exact Hfit.
           ++ intros j d Hj Hd. apply lookup_snoc_Some in Hj as [[Hjl Hj] | [-> ->]].
              ** destruct (Hmax j d Hj Hd) as [Hle _]. split; [lra | intros _; lra].
              ** split; [lra | lia].
        -- apply Qltb_ge in Hlt. exists i. split; [| split].
           ++ apply lookup_app_l_Some. exact Hi.
           ++ exact Hb.
           ++ intros j d Hj Hd. apply lookup_snoc_Some in Hj as [[Hjl Hj] | [-> ->]].
              ** exact (Hmax j d Hj Hd).
              ** split; [exact Hlt |]. intros Hji. apply lookup_lt_Some in Hi. lia.
      * apply Qle_bool_false in Hfit. exists i. split; [| split].
        -- apply lookup_app_l_Some. exact Hi.
        -- exact Hb.
        -- intros j d Hj Hd. apply lookup_snoc_Some in Hj as [[Hjl Hj] | [-> ->]].
           ++ exact (Hmax j d Hj Hd).
           ++ lra.
    + destruct (Qle_bool (cand_line x) budget) eqn:Hfit; simpl.
      * apply Qle_bool_iff in Hfit. exists (length l). split; [| split].
        -- apply list_lookup_middle. reflexivity.
        -- exact Hfit.
        -- intros j d Hj Hd. apply lookup_snoc_Some in Hj as [[Hjl Hj] | [-> ->]].
           ++ apply list_elem_of_lookup_2 in Hj. specialize (IH d Hj). lra.
           ++ split; [lra | lia].
      * apply Qle_bool_false in Hfit. intros d Hd.
        apply elem_of_app in Hd as [Hd | Hd]; [auto |].
        apply list_elem_of_singleton in Hd. now subst.
Qed.

End Baseline.

(** ** The enumeration of price points and the sort *)

Section Enumeration.
Context `{P : Pricing}.
Variables (v : variant) (meta : gmap string ProductMeta) (chosen_date : option Date)
  (is_advertiser : bool) (interactive_map_quarters : option Z).

Abbreviation line_of := (line_price v interactive_map_quarters).
Abbreviation points_of := (priced_points v meta chosen_date is_advertiser interactive_map_quarters).

(** The line price stored with an enumerated point is the line price that
    the allocator computes again from the pick. *)
Lemma priced_points_line (pname : string) (product : ProductRecord) (c : Candidate) :
  c ∈ points_of pname product ->
  cand_line c = line_of pname product (cand_pick c).1.2 (cand_pick c).2.
Proof.
  unfold priced_points. rewrite list_elem_of_In, in_flat_map.
  intros (opt & _ & Hc). unfold priced_option in Hc.
  destruct (summit_booth_skip _ _ _); [destruct Hc |].
  apply in_flat_map in Hc as ([lbl base] & _ & Hc).
  destruct (_is_restricted_tier _ _ _); [destruct Hc |].
  destruct Hc as [<- | []]. reflexivity.
Qed.

Lemma elem_of_insert_by_line (c d : Candidate) (l : list Candidate) :
  d ∈ insert_by_line c l <-> d = c \/ d ∈ l.
Proof.
  induction l as [| x l IH]; simpl.
  - rewrite list_elem_of_singleton, elem_of_nil. tauto.
  - destruct (Qle_bool _ _); rewrite !elem_of_cons; [tauto |].
    rewrite IH. tauto.
Qed.

Lemma elem_of_sort_by_line (d : Candidate) (l : list Candidate) :
  d ∈ sort_by_line l <-> d ∈ l.
Proof.
  induction l as [| x l IH]; simpl; [reflexivity |].
  rewrite elem_of_insert_by_line, elem_of_cons, IH. tauto.
Qed.

Lemma elem_of_upgrades_of (pname : string) (product : ProductRecord) (cur_line : Q)
    (c : Candidate) :
  c ∈ upgrades_of v meta chosen_date is_advertiser interactive_map_quarters
        pname product cur_line <->
  c ∈ points_of pname product /\ (cur_line < cand_line c)%Q.
Proof.
  unfold upgrades_of. rewrite elem_of_sort_by_line, list_elem_of_In, filter_In.
  rewrite <- list_elem_of_In, Qltb_lt. reflexivity.
Qed.

End Enumeration.

(** A filter that keeps less, and drops an element the other keeps, is
    strictly shorter. *)
Lemma filter_length_lt {A : Type} (p q : A -> bool) (l : list A) (c : A) :
  (forall d, p d = true -> q d = true) ->
  c ∈ l -> q c = true -> p c = false ->
  length (List.filter p l) < length (List.filter q l).
Proof.
  intros Hpq Hc Hqc Hpc.
  assert (Hle : forall l', length (List.filter p l') <= length (List.filter q l')).
  { induction l' as [| x l' IH]; simpl; [lia |].
    destruct (p x) eqn:Hp; [rewrite (Hpq x Hp); simpl; lia |].
    destruct (q x); simpl; lia. }
  induction l as [| x l IH]; [apply elem_of_nil in Hc; tauto |].
  apply elem_of_cons in Hc as [<- | Hc]; simpl.
  - rewrite Hqc, Hpc. simpl. specialize (Hle l). lia.
  - specialize (IH Hc). destruct (p x) eqn:Hp; [rewrite (Hpq x Hp); simpl; lia |].
    destruct (q x); simpl; lia.
Qed.

(** ** Phase 2: one step, one pass, the loop *)

Section Loop.
Context `{P : Pricing}.
Variables (v : variant) (budget : Q) (products : list (string * ProductRecord))
  (meta : gmap string ProductMeta) (chosen_date : option Date)
  (is_advertiser : bool) (interactive_map_quarters : option Z).

Abbreviation line_of := (line_price v interactive_map_quarters).
Abbreviation points_of :=
  (priced_points v meta chosen_date is_advertiser interactive_map_quarters).
Abbreviation step :=
  (upgrade_step v budget products meta chosen_date is_advertiser interactive_map_quarters).
Abbreviation pass :=
  (upgrade_pass v budget products meta chosen_date is_advertiser interactive_map_quarters).
Abbreviation loop :=
  (upgrade_loop v budget products meta chosen_date is_advertiser interactive_map_quarters).
Abbreviation dearer :=
  (dearer_count v products meta chosen_date is_advertiser interactive_map_quarters).
Abbreviation room :=
  (headroom v products meta chosen_date is_advertiser interactive_map_quarters).

(** A step either leaves the state as it is, or moves the product to a
    strictly dearer eligible point that fits the budget. *)
Lemma upgrade_step_cases (st : loop_state) (pname : string) (pick : Pick)
    (product : ProductRecord) :
  dict_get pname products = Some product ->
  let cur_line := line_of pname product pick.1.2 pick.2 in
  step st (pname, pick) = Ret st \/
  exists c : Candidate,
    c ∈ points_of pname product /\
    (cur_line < cand_line c)%Q /\
    (st_subtotal st - cur_line + cand_line c <= budget)%Q /\
    step st (pname, pick) =
      Ret (mkState (st_subtotal st - cur_line + cand_line c)
                   (dict_set pname (cand_pick c) (st_picks st)) true).
Proof.
  intros Hprod cur_line. destruct pick as [[cur_opt cur_lbl] cur_base].
  unfold upgrade_step. rewrite Hprod. simpl in cur_line. fold cur_line.
  destruct (find _ _) as [[[[opt_name lbl] eff_base] new_line] |] eqn:Hfind; [right | now left].
  apply find_some in Hfind as [Hin Hfit].
  apply list_elem_of_In, elem_of_upgrades_of in Hin as [Hin Hlt].
  apply Qle_bool_iff in Hfit.
  exists (opt_name, lbl, eff_base, new_line). auto.
Qed.

Lemma upgrade_step_KeyError (st : loop_state) (pname : string) (pick : Pick) :
  dict_get pname products = None ->
  step st (pname, pick) = KeyError pname.
Proof.
  intros H. destruct pick as [[cur_opt cur_lbl] cur_base].
  unfold upgrade_step. now rewrite H.
Qed.

(** A property that every step preserves holds after a pass. *)
Lemma upgrade_pass_preserves (I : loop_state -> Prop) :
  (forall st e st', I st -> step st e = Ret st' -> I st') ->
  forall snapshot st st', I st -> pass snapshot st = Ret st' -> I st'.
Proof.
  intros Hstep. induction snapshot as [| e rest IH]; simpl; intros st st' Hst Hrun.
  - now inversion Hrun; subst.
  - destruct (step st e) as [st1 | |] eqn:E; try discriminate.
    exact (IH _ _ (Hstep _ _ _ Hst E) Hrun).
Qed.

(** A property of subtotal and picks that every step preserves holds for
    the result of the loop. *)
Lemma upgrade_loop_preserves (I : Q -> list (string * Pick) -> Prop) :
  (forall st e st', I (st_subtotal st) (st_picks st) -> step st e = Ret st' ->
                    I (st_subtotal st') (st_picks st')) ->
  forall fuel subtotal picks r,
    I subtotal picks -> loop fuel subtotal picks = Ret r -> I r.2 r.1.
Proof.
  intros Hstep. induction fuel as [| fuel IH]; simpl; intros subtotal picks r HI Hrun;
    [discriminate |].
  destruct (pass picks _) as [st | |] eqn:E; try discriminate.
  apply (upgrade_pass_preserves (fun st => I (st_subtotal st) (st_picks st)) Hstep) in E;
    [| exact HI].
  simpl in Hrun. destruct (st_improved st).
  - exact (IH _ _ _ E Hrun).
  - now inversion Hrun; subst.
Qed.

(** More fuel does not change a result. *)
Lemma upgrade_loop_fuel_mono (fuel fuel' : nat) subtotal picks r :
  fuel <= fuel' ->
  loop fuel subtotal picks = Ret r ->
  loop fuel' subtotal picks = Ret r.
Proof.
  revert fuel' subtotal picks. induction fuel as [| fuel IH]; intros fuel' subtotal picks Hle;
    simpl; [discriminate |].
  destruct fuel' as [| fuel']; [lia |]. simpl.
  destruct (pass picks _) as [st | |]; simpl; try discriminate.
  destruct (st_improved st); [| auto]. apply IH. lia.
Qed.

(** *** The variant of the loop *)

Lemma headroom_cons (e : string * Pick) (picks : list (string * Pick)) :
  room (e :: picks) = dearer e + room picks.
Proof. reflexivity. Qed.

Lemma headroom_dict_set (k : string) (old new : Pick) (picks : list (string * Pick)) :
  dict_get k picks = Some old ->
  room (dict_set k new picks) + dearer (k, old) =
  room picks + dearer (k, new).
Proof.
  induction picks as [| [k' p'] t IH]; cbn [dict_get dict_set]; [discriminate |].
  destruct (String.eqb_spec k k') as [-> | Hne].
  - intros [= ->]. rewrite !headroom_cons. lia.
  - intros H. rewrite !headroom_cons. specialize (IH H). lia.
Qed.

Lemma dearer_count_upgrade (pname : string) (product : ProductRecord) (pick : Pick)
    (c : Candidate) :
  dict_get pname products = Some product ->
  c ∈ points_of pname product ->
  (line_of pname product pick.1.2 pick.2 < cand_line c)%Q ->
  dearer (pname, cand_pick c) < dearer (pname, pick).
Proof.
  intros Hprod Hc Hlt. destruct pick as [[o l] b].
  destruct c as [[[o' l'] b'] n'] eqn:Ec.
  unfold dearer_count, cand_pick. simpl fst. rewrite Hprod.
  pose proof (priced_points_line _ _ _ _ _ _ _ _ Hc) as Hline. simpl in Hline, Hlt.
  rewrite <- Hline.
  apply (filter_length_lt _ _ _ c); subst c; try assumption.
  - intros d Hd. apply Qltb_lt in Hd. apply Qltb_lt. simpl. lra.
  - apply Qltb_lt. exact Hlt.
  - apply Qltb_ge. simpl. lra.
Qed.

Abbreviation ok_snapshot := (snapshot_ok products).

Lemma upgrade_pass_total (rest : list (string * Pick)) (st : loop_state) :
  ok_snapshot rest (st_picks st) ->
  exists st',
    pass rest st = Ret st' /\
    keys (st_picks st') = keys (st_picks st) /\
    (st' = st \/
     st_improved st' = true /\ room (st_picks st') < room (st_picks st)).
Proof.
  revert st. induction rest as [| [k p] rest IH]; intros st [Hnd Hok];
    cbn [upgrade_pass].
  - exists st. auto.
  - rewrite keys_cons in Hnd. apply NoDup_cons in Hnd as [Hk Hnd].
    destruct (Hok k p) as [Hget Hkey]; [left |].
    destruct (dict_get_is_Some _ _ Hkey) as [product Hprod].
    assert (Hrest : forall st1, (forall k', k' <> k -> dict_get k' (st_picks st1) = dict_get k' (st_picks st)) ->
                    ok_snapshot rest (st_picks st1)).
    { intros st1 Hsame. split; [exact Hnd |]. intros k' p' Hin.
      destruct (Hok k' p') as [Hget' Hkey']; [now right |]. split; [| exact Hkey'].
      rewrite Hsame; [exact Hget' |]. intros ->. apply Hk.
      apply (list_elem_of_fmap_2 fst) in Hin. exact Hin. }
    destruct (upgrade_step_cases st k p product Hprod) as [E | (c & Hc & Hlt & Hfit & E)];
      rewrite E; simpl.
    + apply IH. apply Hrest. auto.
    + set (st1 := mkState _ _ true).
      destruct (IH st1) as (st' & Hrun & Hkeys & Hcase).
      { apply Hrest. intros k' Hne. simpl. apply dict_get_set_ne. congruence. }
      assert (Hdec : room (st_picks st1) < room (st_picks st)).
      { pose proof (headroom_dict_set k p (cand_pick c) _ Hget).
        pose proof (dearer_count_upgrade k product p c Hprod Hc Hlt). simpl. lia. }
      exists st'. split; [exact Hrun |]. split.
      * rewrite Hkeys. simpl. apply keys_dict_set_present.
        apply dict_get_Some_key in Hget. exact Hget.
      * right. destruct Hcase as [-> | [Himp Hlt']]; [auto |]. split; [exact Himp | lia].
Qed.

Lemma snapshot_ok_self (picks : list (string * Pick)) :
  NoDup (keys picks) -> keys picks ⊆ keys products -> ok_snapshot picks picks.
Proof.
  intros Hnd Hsub. split; [exact Hnd |]. intros k p Hin. split.
  - now apply dict_get_NoDup.
  - apply Hsub. apply (list_elem_of_fmap_2 fst) in Hin. exact Hin.
Qed.

(** The loop returns once the fuel exceeds the room of the picks. *)
Lemma upgrade_loop_total (fuel : nat) (subtotal : Q) (picks : list (string * Pick)) :
  NoDup (keys picks) -> keys picks ⊆ keys products ->
  room picks < fuel ->
  exists r, loop fuel subtotal picks = Ret r /\ keys r.1 = keys picks.
Proof.
  revert subtotal picks. induction fuel as [| fuel IH]; intros subtotal picks Hnd Hsub Hfuel;
    [lia |].
  simpl.
  destruct (upgrade_pass_total picks (mkState subtotal picks false)) as (st & Hrun & Hkeys & Hcase).
  { apply snapshot_ok_self; assumption. }
  rewrite Hrun. simpl. simpl in Hkeys.
  destruct Hcase as [-> | [Himp Hlt]]; simpl.
  - eexists. split; reflexivity.
  - rewrite Himp. simpl in Hlt.
    destruct (IH (st_subtotal st) (st_picks st)) as (r & Hr & Hkr).
    + now rewrite Hkeys.
    + now rewrite Hkeys.
    + lia.
    + exists r. split; [exact Hr | congruence].
Qed.

End Loop.

(** ** The allocator as a whole *)

Section Greedy.
Context `{P : Pricing}.
Variables (v : variant) (budget : Q) (products : list (string * ProductRecord))
  (meta : gmap string ProductMeta) (chosen_date : option Date)
  (is_advertiser : bool) (interactive_map_quarters : option Z).

Abbreviation line_of := (line_price v interactive_map_quarters).
Abbreviation points_of :=
  (priced_points v meta chosen_date is_advertiser interactive_map_quarters).
Abbreviation best_of :=
  (baseline_best v budget meta chosen_date is_advertiser interactive_map_quarters).
Abbreviation base_product :=
  (baseline_product v budget meta chosen_date is_advertiser interactive_map_quarters).
Abbreviation base :=
  (baseline v budget products meta chosen_date is_advertiser interactive_map_quarters).
Abbreviation step :=
  (upgrade_step v budget products meta chosen_date is_advertiser interactive_map_quarters).
Abbreviation loop :=
  (upgrade_loop v budget products meta chosen_date is_advertiser interactive_map_quarters).
Abbreviation room :=
  (headroom v products meta chosen_date is_advertiser interactive_map_quarters).
Abbreviation passes :=
  (max_passes v budget products meta chosen_date is_advertiser interactive_map_quarters).
Abbreviation raw :=
  (greedy_raw v budget products meta chosen_date is_advertiser interactive_map_quarters).
Abbreviation alloc_fuel :=
  (greedy_fill_to_cap_fuel v budget products meta chosen_date is_advertiser
     interactive_map_quarters).
Abbreviation alloc :=
  (greedy_fill_to_cap v budget products meta chosen_date is_advertiser
     interactive_map_quarters).

Lemma baseline_product_keys (st : list (string * Pick) * Q) (e : string * ProductRecord) :
  NoDup (keys st.1) ->
  NoDup (keys (base_product st e).1) /\
  forall k, k ∈ keys (base_product st e).1 -> k = e.1 \/ k ∈ keys st.1.
Proof.
  intros Hnd. destruct e as [pname product]. unfold baseline_product.
  destruct (best_of pname product) as [[[[o l] b] n] |]; simpl.
  - split; [now apply NoDup_keys_dict_set |].
    intros k Hk. now apply elem_of_keys_dict_set in Hk.
  - auto.
Qed.

Lemma fold_baseline_keys (l : list (string * ProductRecord)) (st : list (string * Pick) * Q) :
  NoDup (keys st.1) ->
  NoDup (keys (fold_left base_product l st).1) /\
  forall k, k ∈ keys (fold_left base_product l st).1 -> k ∈ keys l \/ k ∈ keys st.1.
Proof.
  revert st. induction l as [| e l IH]; intros st Hnd; simpl; [auto |].
  destruct (baseline_product_keys st e Hnd) as [Hnd1 Hsub1].
  destruct (IH _ Hnd1) as [Hnd2 Hsub2]. split; [exact Hnd2 |].
  intros k Hk. destruct e as [pname product]. rewrite keys_cons, elem_of_cons.
  destruct (Hsub2 k Hk) as [? | Hk1]; [tauto |].
  destruct (Hsub1 k Hk1); simpl in *; tauto.
Qed.

Lemma baseline_NoDup : NoDup (keys base.1).
Proof. apply fold_baseline_keys. simpl. apply NoDup_nil_2. Qed.

Lemma baseline_keys_subseteq : keys base.1 ⊆ keys products.
Proof.
  intros k Hk. apply fold_baseline_keys in Hk as [Hk | Hk]; [exact Hk | |].
  - simpl in Hk. apply elem_of_nil in Hk. tauto.
  - simpl. apply NoDup_nil_2.
Qed.

(** The pick that phase 1 leaves for a product of a well-formed catalog. *)
Lemma fold_baseline_get (pname : string) (l : list (string * ProductRecord))
    (st : list (string * Pick) * Q) :
  NoDup (keys l) ->
  dict_get pname (fold_left base_product l st).1 =
    match dict_get pname l with
    | Some product =>
        match best_of pname product with
        | Some c => Some (cand_pick c)
        | None => dict_get pname st.1
        end
    | None => dict_get pname st.1
    end.
Proof.
  revert st. induction l as [| [k product] l IH]; intros st Hnd; [reflexivity |].
  rewrite keys_cons in Hnd. apply NoDup_cons in Hnd as [Hk Hnd].
  cbn [fold_left dict_get]. rewrite (IH _ Hnd).
  destruct (String.eqb_spec pname k) as [-> | Hne].
  - apply dict_get_None in Hk. rewrite Hk.
    unfold baseline_product.
    destruct (best_of k product) as [[[[o lb] b] n] |]; [| reflexivity].
    simpl. apply dict_get_set_eq.
  - assert (Hsame : dict_get pname (base_product st (k, product)).1 = dict_get pname st.1).
    { unfold baseline_product.
      destruct (best_of k product) as [[[[o lb] b] n] |]; [| reflexivity].
      simpl. apply dict_get_set_ne. congruence. }
    rewrite Hsame. reflexivity.
Qed.

Lemma baseline_get (pname : string) (product : ProductRecord) :
  NoDup (keys products) ->
  dict_get pname products = Some product ->
  dict_get pname base.1 = cand_pick <$> best_of pname product.
Proof.
  intros Hnd Hget. unfold baseline. rewrite fold_baseline_get by assumption.
  rewrite Hget. destruct (best_of pname product); reflexivity.
Qed.

(** With [passes] of fuel or more the allocator returns, and the
    upgrade loop keeps the products that phase 1 picked. *)
Lemma greedy_raw_total (fuel : nat) :
  passes <= fuel ->
  exists picks subtotal,
    raw fuel = Ret (picks, subtotal, Qltb budget base.2) /\
    raw passes = Ret (picks, subtotal, Qltb budget base.2) /\
    keys picks = keys base.1 /\
    (Qltb budget base.2 = true -> picks = base.1 /\ subtotal = base.2).
Proof.
  intros Hfuel. unfold greedy_raw.
  destruct base as [picks0 subtotal0] eqn:Hb. cbn [fst snd].
  destruct (Qltb budget subtotal0) eqn:Hover.
  - exists picks0, subtotal0. auto.
  - pose proof baseline_NoDup as Hnd. pose proof baseline_keys_subseteq as Hsub.
    rewrite Hb in Hnd, Hsub. simpl in Hnd, Hsub.
    destruct (upgrade_loop_total v budget products meta chosen_date is_advertiser
                interactive_map_quarters passes subtotal0 picks0 Hnd Hsub)
      as (r & Hr & Hkeys).
    { unfold max_passes. rewrite Hb. simpl. lia. }
    exists r.1, r.2. rewrite Hr.
    rewrite (upgrade_loop_fuel_mono _ _ _ _ _ _ _ _ _ _ _ _ Hfuel Hr).
    cbn [mbind outcome_bind]. repeat split; [exact Hkeys | discriminate | discriminate].
Qed.

Lemma greedy_fill_to_cap_total (fuel : nat) :
  passes <= fuel ->
  exists picks subtotal,
    raw passes = Ret (picks, subtotal, Qltb budget base.2) /\
    alloc_fuel fuel =
      Ret (mkSelection picks (round2 subtotal), Qltb budget base.2) /\
    alloc = Ret (mkSelection picks (round2 subtotal), Qltb budget base.2) /\
    keys picks = keys base.1 /\
    (Qltb budget base.2 = true -> picks = base.1 /\ subtotal = base.2).
Proof.
  intros Hfuel.
  destruct (greedy_raw_total fuel Hfuel) as (picks & subtotal & Hraw & Hraw' & Hkeys & Hover).
  exists picks, subtotal. unfold greedy_fill_to_cap, greedy_fill_to_cap_fuel.
  rewrite Hraw, Hraw'. simpl. auto.
Qed.

End Greedy.

(** ** Forced overage, the budget cap and termination *)

(** A step that changes the state raises the subtotal. *)
Lemma upgrade_step_increases `{P : Pricing} v budget products meta chosen_date
    is_advertiser interactive_map_quarters (st st' : loop_state) (e : string * Pick) :
  upgrade_step v budget products meta chosen_date is_advertiser
    interactive_map_quarters st e = Ret st' ->
  st' = st \/
  exists cur_line new_line : Q,
    (cur_line < new_line)%Q /\
    (st_subtotal st - cur_line + new_line <= budget)%Q /\
    st_subtotal st' = (st_subtotal st - cur_line + new_line)%Q.
Proof.
  destruct e as [pname pick]. intros Hstep.
  destruct (dict_get pname products) as [product |] eqn:Hprod.
  - destruct (upgrade_step_cases v budget products meta chosen_date is_advertiser
                interactive_map_quarters st pname pick product Hprod)
      as [E | (c & _ & Hlt & Hfit & E)]; rewrite E in Hstep; inversion Hstep; subst.
    + now left.
    + right. eexists _, _. split; [exact Hlt |]. split; [exact Hfit | reflexivity].
  - rewrite upgrade_step_KeyError in Hstep by assumption. discriminate.
Qed.

Lemma loop_visits_within_budget `{P : Pricing} v budget products meta chosen_date
    is_advertiser interactive_map_quarters (s0 : Q) p0 (st : loop_state) :
  (s0 <= budget)%Q ->
  loop_visits v budget products meta chosen_date is_advertiser
    interactive_map_quarters s0 p0 st ->
  (st_subtotal st <= budget)%Q.
Proof.
  intros H0 Hv. induction Hv as [| st e st' _ IH Hstep | st _ IH]; simpl; try assumption.
  apply upgrade_step_increases in Hstep as [-> | (cur & new & _ & Hfit & ->)]; assumption.
Qed.

(** What a step does to subtotal and picks does not depend on the flag. *)
Lemma upgrade_step_flag `{P : Pricing} v budget products meta chosen_date
    is_advertiser interactive_map_quarters (st st' : loop_state) (e : string * Pick)
    (b : bool) :
  upgrade_step v budget products meta chosen_date is_advertiser
    interactive_map_quarters st e = Ret st' ->
  exists b',
    upgrade_step v budget products meta chosen_date is_advertiser
      interactive_map_quarters (mkState (st_subtotal st) (st_picks st) b) e
    = Ret (mkState (st_subtotal st') (st_picks st') b').
Proof.
  destruct e as [pname [[o l] n]]. unfold upgrade_step. simpl.
  destruct (dict_get pname products); [| discriminate].
  destruct (find _ _) as [[[[o' l'] e'] n'] |]; intros [= <-]; simpl; eauto.
Qed.

Lemma upgrade_loop_visits `{P : Pricing} v budget products meta chosen_date
    is_advertiser interactive_map_quarters (s0 : Q) p0 fuel r :
  upgrade_loop v budget products meta chosen_date is_advertiser
    interactive_map_quarters fuel s0 p0 = Ret r ->
  exists b, loop_visits v budget products meta chosen_date is_advertiser
              interactive_map_quarters s0 p0 (mkState r.2 r.1 b).
Proof.
  apply (upgrade_loop_preserves v budget products meta chosen_date is_advertiser
           interactive_map_quarters
           (fun s p => exists b, loop_visits v budget products meta chosen_date
                                   is_advertiser interactive_map_quarters s0 p0
                                   (mkState s p b))).
  - intros st e st' [b Hv] Hstep.
    destruct (upgrade_step_flag _ _ _ _ _ _ _ _ _ _ b Hstep) as [b' Hstep'].
    exists b'. eapply visit_step; eassumption.
  - exists false. constructor.
Qed.

(** C1. [forced_overage] is [true] exactly when the subtotal of the phase 1
    picks is strictly greater than the budget, and then the returned
    Selection holds the phase 1 picks, untouched by any upgrade, and their
    subtotal (rounded). *)
Theorem forced_overage_iff_baseline_exceeds_budget `{P : Pricing} (v : variant)
    (budget : Q) (products : list (string * ProductRecord))
    (meta : gmap string ProductMeta) (chosen_date : option Date)
    (is_advertiser : bool) (interactive_map_quarters : option Z) :
  let base := baseline v budget products meta chosen_date is_advertiser
                interactive_map_quarters in
  exists (sel : Selection) (forced_overage : bool),
    greedy_fill_to_cap v budget products meta chosen_date is_advertiser
      interactive_map_quarters = Ret (sel, forced_overage) /\
    (forced_overage = true <-> (budget < base.2)%Q) /\
    (forced_overage = true ->
       picks sel = base.1 /\ subtotal sel = round2 base.2).
Proof.
  intros base.
  destruct (greedy_fill_to_cap_total v budget products meta chosen_date is_advertiser
              interactive_map_quarters _ (le_n _))
    as (picks & subtotal & _ & _ & Hrun & _ & Hover).
  eexists _, _. split; [exact Hrun |]. split; [apply Qltb_lt |].
  intros H. destruct (Hover H) as [-> ->]. split; reflexivity.
Qed.

Lemma forced_overage_iff_baseline_exceeds_budget_witness :
  exists (sel : Selection) (forced_overage : bool),
    greedy_fill_to_cap Final 50 Samples.banner_ad Samples.no_meta None true None
      = Ret (sel, forced_overage) /\
    (forced_overage = true <->
     (50 < (baseline Final 50 Samples.banner_ad Samples.no_meta None true None).2)%Q) /\
    (forced_overage = true ->
       picks sel = (baseline Final 50 Samples.banner_ad Samples.no_meta None true None).1 /\
       subtotal sel =
         round2 (baseline Final 50 Samples.banner_ad Samples.no_meta None true None).2).
Proof.
  exact (forced_overage_iff_baseline_exceeds_budget
           Final 50 Samples.banner_ad Samples.no_meta None true None).
Defined.

(** C2. When [forced_overage] is [false], the subtotal of phase 1 is within
    the budget, every state that the upgrade loop visits has a subtotal
    within the budget, and the subtotal that is finally rounded is within
    the budget. A step of the loop either changes nothing or applies an
    upgrade: with [cur_line] the line price of the pick it looks at, the
    upgrade is one of the upgrade candidates of that product at [cur_line],
    strictly dearer than [cur_line]; [subtotal - cur_line + new_line] is
    within the budget, and it becomes the subtotal as the candidate becomes
    the pick of the product. *)
Theorem subtotal_stays_within_budget `{P : Pricing} (v : variant)
    (budget : Q) (products : list (string * ProductRecord))
    (meta : gmap string ProductMeta) (chosen_date : option Date)
    (is_advertiser : bool) (interactive_map_quarters : option Z) :
  let base := baseline v budget products meta chosen_date is_advertiser
                interactive_map_quarters in
  let visits := loop_visits v budget products meta chosen_date is_advertiser
                  interactive_map_quarters base.2 base.1 in
  exists (sel : Selection) (forced_overage : bool),
    greedy_fill_to_cap v budget products meta chosen_date is_advertiser
      interactive_map_quarters = Ret (sel, forced_overage) /\
    (forced_overage = false ->
       (base.2 <= budget)%Q /\
       (forall st, visits st -> (st_subtotal st <= budget)%Q) /\
       (forall st pname pick st',
          visits st ->
          upgrade_step v budget products meta chosen_date is_advertiser
            interactive_map_quarters st (pname, pick) = Ret st' ->
          st' = st \/
          exists (product : ProductRecord) (c : Candidate),
            let cur_line :=
              line_price v interactive_map_quarters pname product pick.1.2 pick.2 in
            let new_line := cand_line c in
            dict_get pname products = Some product /\
            c ∈ upgrades_of v meta chosen_date is_advertiser interactive_map_quarters
                  pname product cur_line /\
            (cur_line < new_line)%Q /\
            (st_subtotal st - cur_line + new_line <= budget)%Q /\
            st_subtotal st' = (st_subtotal st - cur_line + new_line)%Q /\
            st_picks st' = dict_set pname (cand_pick c) (st_picks st)) /\
       exists (s : Q) (improved : bool),
         visits (mkState s (picks sel) improved) /\
         subtotal sel = round2 s /\ (s <= budget)%Q).
Proof.
  intros base visits.
  destruct (greedy_fill_to_cap_total v budget products meta chosen_date is_advertiser
              interactive_map_quarters _ (le_n _))
    as (picks & subtotal & Hraw & _ & Hrun & _ & _).
  eexists _, _. split; [exact Hrun |]. intros Hfo.
  apply Qltb_ge in Hfo. fold base in Hfo.
  assert (Hvis : forall st, visits st -> (st_subtotal st <= budget)%Q).
  { intros st. apply loop_visits_within_budget. exact Hfo. }
  split; [exact Hfo |]. split; [exact Hvis |]. split.
  - intros st pname pick st' _ Hstep.
    destruct (dict_get pname products) as [product |] eqn:Hprod.
    + destruct (upgrade_step_cases v budget products meta chosen_date is_advertiser
                  interactive_map_quarters st pname pick product Hprod)
        as [E | (c & Hc & Hlt & Hfit & E)]; rewrite E in Hstep; inversion Hstep; subst.
      * now left.
      * right. exists product, c. cbv zeta. split; [reflexivity |].
        split; [apply elem_of_upgrades_of; split; assumption |].
        split; [exact Hlt |]. split; [exact Hfit |]. split; reflexivity.
    + rewrite upgrade_step_KeyError in Hstep by assumption. discriminate.
  - unfold greedy_raw in Hraw. fold base in Hraw.
    destruct base as [picks0 subtotal0] eqn:Hb. simpl in Hfo.
    apply Qltb_ge in Hfo. cbn [fst snd] in Hraw. rewrite Hfo in Hraw.
    destruct (upgrade_loop _ _ _ _ _ _ _ _ _ _) as [r | |] eqn:Hloop; try discriminate.
    cbn [mbind outcome_bind] in Hraw. inversion Hraw; subst.
    apply upgrade_loop_visits in Hloop as [b Hb'].
    exists r.2, b. simpl. split; [exact Hb' |]. split; [reflexivity |].
    exact (Hvis _ Hb').
Qed.

Lemma subtotal_stays_within_budget_witness :
  exists (sel : Selection) (s : Q),
    greedy_fill_to_cap Final 260 Samples.two_products Samples.no_meta None true None
      = Ret (sel, false) /\
    subtotal sel = round2 s /\ (s <= 260)%Q.
Proof.
  destruct (subtotal_stays_within_budget Final 260 Samples.two_products
              Samples.no_meta None true None)
    as (sel & fo & Hrun & Hprop).
  assert (Hfo : fo = false).
  { vm_compute in Hrun. inversion Hrun. reflexivity. }
  destruct (Hprop Hfo) as (_ & _ & _ & s & b & _ & Hs & Hle).
  exists sel, s. rewrite <- Hfo. auto.
Defined.

(** C10. The allocator terminates: with [max_passes] of fuel, a number
    computed from the catalog, or with more, the upgrade loop returns, with
    the same result; the reason is that every applied upgrade makes the
    subtotal strictly greater and lowers the number of dearer price points
    still above the picks. No [KeyError] is raised. *)
Theorem greedy_fill_to_cap_terminates `{P : Pricing} (v : variant)
    (budget : Q) (products : list (string * ProductRecord))
    (meta : gmap string ProductMeta) (chosen_date : option Date)
    (is_advertiser : bool) (interactive_map_quarters : option Z) (fuel : nat) :
  max_passes v budget products meta chosen_date is_advertiser
    interactive_map_quarters <= fuel ->
  (exists r : Selection * bool,
     greedy_fill_to_cap_fuel v budget products meta chosen_date is_advertiser
       interactive_map_quarters fuel = Ret r /\
     greedy_fill_to_cap v budget products meta chosen_date is_advertiser
       interactive_map_quarters = Ret r) /\
  (forall st e st',
     upgrade_step v budget products meta chosen_date is_advertiser
       interactive_map_quarters st e = Ret st' ->
     st' = st \/ (st_subtotal st < st_subtotal st')%Q) /\
  (forall rest st,
     snapshot_ok products rest (st_picks st) ->
     exists st',
       upgrade_pass v budget products meta chosen_date is_advertiser
         interactive_map_quarters rest st = Ret st' /\
       (st' = st \/
        st_improved st' = true /\
        headroom v products meta chosen_date is_advertiser interactive_map_quarters
          (st_picks st') <
        headroom v products meta chosen_date is_advertiser interactive_map_quarters
          (st_picks st))).
Proof.
  intros Hfuel. split; [| split].
  - destruct (greedy_fill_to_cap_total v budget products meta chosen_date is_advertiser
                interactive_map_quarters fuel Hfuel)
      as (picks & subtotal & _ & Hrun & Hrun' & _).
    eexists. split; [exact Hrun | exact Hrun'].
  - intros st e st' Hstep.
    apply upgrade_step_increases in Hstep as [-> | (cur & new & Hlt & _ & ->)]; [now left |].
    right. lra.
  - intros rest st Hok.
    destruct (upgrade_pass_total v budget products meta chosen_date is_advertiser
                interactive_map_quarters rest st Hok) as (st' & Hrun & _ & Hcase).
    exists st'. auto.
Qed.

Lemma greedy_fill_to_cap_terminates_witness :
  exists r : Selection * bool,
    greedy_fill_to_cap_fuel Final 260 Samples.two_products Samples.no_meta None true None 7
      = Ret r /\
    greedy_fill_to_cap Final 260 Samples.two_products Samples.no_meta None true None = Ret r.
Proof.
  refine (proj1 (greedy_fill_to_cap_terminates Final 260 Samples.two_products
                   Samples.no_meta None true None 7 _)).
  vm_compute. lia.
Defined.

(** C3. In both variants, a product of the catalog other than the
    Interactive Map that has an eligible price point gets as its phase 1
    pick a point whose line price is the least among its eligible points,
    and the first such point in enumeration order. *)
Theorem baseline_pick_is_first_cheapest `{P : Pricing} (v : variant)
    (budget : Q) (products : list (string * ProductRecord))
    (meta : gmap string ProductMeta) (chosen_date : option Date)
    (is_advertiser : bool) (interactive_map_quarters : option Z)
    (pname : string) (product : ProductRecord) :
  NoDup (keys products) ->
  dict_get pname products = Some product ->
  pname <> "Chicago Does Interactive Map" ->
  priced_points v meta chosen_date is_advertiser interactive_map_quarters
    pname product <> [] ->
  exists (i : nat) (c : Candidate),
    is_first_min
      (priced_points v meta chosen_date is_advertiser interactive_map_quarters
         pname product) i c /\
    dict_get pname
      (baseline v budget products meta chosen_date is_advertiser
         interactive_map_quarters).1 = Some (cand_pick c).
Proof.
  intros Hnd Hget Hname Hpts.
  rewrite (baseline_get v budget products meta chosen_date is_advertiser
             interactive_map_quarters pname product Hnd Hget).
  unfold baseline_best.
  pose proof (fold_cheapest v budget pname
                (priced_points v meta chosen_date is_advertiser
                   interactive_map_quarters pname product) (or_intror Hname)) as Hfold.
  destruct (fold_left _ _ None) as [c |]; [| contradiction].
  destruct Hfold as [i Hi]. exists i, c. split; [exact Hi | reflexivity].
Qed.

Lemma baseline_pick_is_first_cheapest_witness :
  exists (i : nat) (c : Candidate),
    is_first_min
      (priced_points Final Samples.no_meta None true None "Newsletter"
         (SpecPricing.mkProduct
            [SpecPricing.mkOption (Some "Newsletter Feature")
               [("Standard", 50%Q); ("Premium", 120%Q)]])) i c /\
    dict_get "Newsletter"
      (baseline Final 260 Samples.two_products Samples.no_meta None true None).1
      = Some (cand_pick c).
Proof.
  apply (baseline_pick_is_first_cheapest Final 260 Samples.two_products
           Samples.no_meta None true None "Newsletter").
  - apply (bool_decide_unpack _). vm_compute. exact I.
  - reflexivity.
  - discriminate.
  - vm_compute. discriminate.
Defined.

(** C6. In the Final variant, the phase 1 pick of the Interactive Map is
    the first point of greatest line price among its eligible points whose
    line price does not exceed the budget; when every eligible point
    exceeds the budget the Map gets no pick in phase 1 and is not in the
    returned Selection. *)
Theorem map_baseline_is_dearest_within_budget `{P : Pricing}
    (budget : Q) (products : list (string * ProductRecord))
    (meta : gmap string ProductMeta) (chosen_date : option Date)
    (is_advertiser : bool) (interactive_map_quarters : option Z)
    (product : ProductRecord) :
  let points :=
    priced_points Final meta chosen_date is_advertiser interactive_map_quarters
      "Chicago Does Interactive Map" product in
  let base :=
    baseline Final budget products meta chosen_date is_advertiser
      interactive_map_quarters in
  NoDup (keys products) ->
  dict_get "Chicago Does Interactive Map" products = Some product ->
  ((exists c, c ∈ points /\ (cand_line c <= budget)%Q) ->
   exists (i : nat) (c : Candidate),
     is_first_max_under budget points i c /\
     dict_get "Chicago Does Interactive Map" base.1 = Some (cand_pick c)) /\
  ((forall c, c ∈ points -> (budget < cand_line c)%Q) ->
   dict_get "Chicago Does Interactive Map" base.1 = None /\
   exists (sel : Selection) (forced_overage : bool),
     greedy_fill_to_cap Final budget products meta chosen_date is_advertiser
       interactive_map_quarters = Ret (sel, forced_overage) /\
     "Chicago Does Interactive Map" ∉ keys (picks sel)).
Proof.
  intros points base Hnd Hget.
  pose proof (baseline_get Final budget products meta chosen_date is_advertiser
                interactive_map_quarters _ product Hnd Hget) as Hbase.
  fold base in Hbase. unfold baseline_best in Hbase. fold points in Hbase.
  pose proof (fold_map budget points) as Hfold. unfold MAP_NAME in Hfold.
  split.
  - intros (c & Hc & Hfit).
    destruct (fold_left _ points None) as [b |].
    + destruct Hfold as [i Hi]. exists i, b. split; [exact Hi | exact Hbase].
    + specialize (Hfold c Hc). lra.
  - intros Hnone.
    assert (Hno : dict_get "Chicago Does Interactive Map" base.1 = None).
    { destruct (fold_left _ points None) as [b |]; [| exact Hbase].
      destruct Hfold as (i & Hi & Hfit & _).
      apply list_elem_of_lookup_2 in Hi. specialize (Hnone b Hi). lra. }
    split; [exact Hno |].
    destruct (greedy_fill_to_cap_total Final budget products meta chosen_date
                is_advertiser interactive_map_quarters _ (le_n _))
      as (picks & subtotal & _ & _ & Hrun & Hkeys & _).
    eexists _, _. split; [exact Hrun |]. simpl. rewrite Hkeys.
    apply dict_get_None. exact Hno.
Qed.

Lemma map_baseline_is_dearest_within_budget_witness :
  (exists (i : nat) (c : Candidate),
     is_first_max_under 9
       (priced_points Final Samples.no_meta None false None
          "Chicago Does Interactive Map"
          (SpecPricing.mkProduct
             [SpecPricing.mkOption None [("Standard", 5%Q); ("Premium", 10%Q)]])) i c /\
     dict_get "Chicago Does Interactive Map"
       (baseline Final 9 Samples.map_and_banner Samples.no_meta None false None).1
       = Some (cand_pick c)) /\
  (dict_get "Chicago Does Interactive Map"
     (baseline Final 4 Samples.map_and_banner Samples.no_meta None false None).1 = None /\
   exists (sel : Selection) (forced_overage : bool),
     greedy_fill_to_cap Final 4 Samples.map_and_banner Samples.no_meta None false None
       = Ret (sel, forced_overage) /\
     "Chicago Does Interactive Map" ∉ keys (picks sel)).
Proof.
  assert (Hnd : NoDup (keys Samples.map_and_banner)).
  { apply (bool_decide_unpack _). vm_compute. exact I. }
  split.
  - apply (proj1 (map_baseline_is_dearest_within_budget 9 Samples.map_and_banner
                    Samples.no_meta None false None _ Hnd eq_refl)).
    exists ("Chicago Does Interactive Map", "Standard", 5%Q, (5 * 1)%Q).
    split; [left | vm_compute; discriminate].
  - apply (proj2 (map_baseline_is_dearest_within_budget 4 Samples.map_and_banner
                    Samples.no_meta None false None _ Hnd eq_refl)).
    intros c Hc. vm_compute in Hc.
    apply elem_of_cons in Hc as [-> | Hc]; [reflexivity |].
    apply list_elem_of_singleton in Hc as ->. reflexivity.
Defined.

(** C7. For the product named "Chicago Does Interactive Map",
    [map_line_price] is the unit price times the quarter count, a quarter
    count of [None] or [0] counting as [1]; for any other product name it
    answers [None], and the line price of the Final variant is then
    [effective_line_price]. *)
Theorem map_line_price_spec `{P : Pricing} (pname tier_label : string)
    (eff_base : Q) (interactive_map_quarters : option Z) (product : ProductRecord) :
  pname <> "Chicago Does Interactive Map" ->
  map_line_price "Chicago Does Interactive Map" tier_label eff_base
    interactive_map_quarters
    = Some (eff_base * inject_Z (quarters_or_one interactive_map_quarters))%Q /\
  map_line_price "Chicago Does Interactive Map" tier_label eff_base None
    = Some (eff_base * 1)%Q /\
  map_line_price "Chicago Does Interactive Map" tier_label eff_base (Some 0%Z)
    = Some (eff_base * 1)%Q /\
  map_line_price pname tier_label eff_base interactive_map_quarters = None /\
  line_price Final interactive_map_quarters pname product tier_label eff_base
    = effective_line_price product tier_label eff_base.
Proof.
  intros Hne. repeat split; try reflexivity.
  - unfold map_line_price. destruct (String.eqb_spec pname "Chicago Does Interactive Map");
      [contradiction | reflexivity].
  - unfold line_price, map_line_price.
    destruct (String.eqb_spec pname "Chicago Does Interactive Map");
      [contradiction | reflexivity].
Qed.

Lemma map_line_price_spec_witness :
  map_line_price "Chicago Does Interactive Map" "Standard" 500 (Some 3%Z)
    = Some (500 * 3)%Q /\
  map_line_price "Banner Ad" "4x" 350 (Some 3%Z) = None.
Proof.
  destruct (map_line_price_spec (P := SpecPricing.pricing)
              "Banner Ad" "Standard" 500 (Some 3%Z) (SpecPricing.mkProduct []))
    as (Hmap & _ & _ & _ & _); [discriminate |].
  destruct (map_line_price_spec (P := SpecPricing.pricing)
              "Banner Ad" "4x" 350 (Some 3%Z) (SpecPricing.mkProduct []))
    as (_ & _ & _ & Hother & _); [discriminate |].
  split; [exact Hmap | exact Hother].
Defined.

(** ** The tier filter *)

Lemma is_restricted_tier_advertiser (v : variant) (label : string) :
  _is_restricted_tier v label true = false.
Proof. reflexivity. Qed.

Lemma lower_ascii_not_upper (c : ascii) : Str.not_upper (Str.lower_ascii c) = true.
Proof.
  destruct c as [[] [] [] [] [] [] [] []]; reflexivity.
Qed.

Lemma lower_not_upper (s : string) : Str.all_chars Str.not_upper (Str.lower s) = true.
Proof.
  induction s as [| c s IH]; simpl; [reflexivity |].
  now rewrite lower_ascii_not_upper, IH.
Qed.

(** A needle that starts with a capital letter is not found in a string
    without capital letters. *)
Lemma contains_capital_head (c : ascii) (needle hay : string) :
  Str.not_upper c = false ->
  Str.all_chars Str.not_upper hay = true ->
  Str.contains (String c needle) hay = false.
Proof.
  intros Hc. induction hay as [| h hay IH]; simpl; [reflexivity |].
  intros Hall. apply andb_true_iff in Hall as [Hh Hall].
  rewrite (IH Hall), orb_false_r.
  destruct (ascii_dec c h) as [-> | _]; [congruence | reflexivity].
Qed.

(** The capitalised keyword of either variant is found in no lower-cased
    label. *)
Lemma contract_keyword_never_matches (label : string) :
  Str.contains "Contract with multiple products" (Str.lower label) = false /\
  Str.contains "Contract with multiple productswith campaign" (Str.lower label) = false.
Proof.
  split; (apply contains_capital_head; [reflexivity | apply lower_not_upper]).
Qed.

(** The keywords that can match, variant by variant. *)
Lemma is_restricted_tier_effective (v : variant) (label : string) :
  _is_restricted_tier v label false =
    let lbl := Str.lower label in
    (Str.contains "advertiser" lbl
     && negb (Str.contains "non-advertiser" lbl)
     && negb (Str.contains "non advertiser" lbl))
    || existsb (fun kw => Str.contains kw lbl)
         (match v with
          | Cloud => ["with any campaign"; "existing advertiser"; "advertiser rate";
                      "bundle"; "add-on"; "package price"]
          | Final => ["with any campaign"; "with campaign"; "existing advertiser";
                      "advertiser rate"; "bundle"; "add-on"; "package price"]
          end).
Proof.
  destruct (contract_keyword_never_matches label) as [H1 H2].
  unfold _is_restricted_tier. cbv zeta.
  destruct (_ && _ && _); [reflexivity |].
  destruct v; cbn [restricted_keywords existsb orb].
  - change (Str.contains ("Contract with multiple products" +:+ "with campaign") (Str.lower label))
      with (Str.contains "Contract with multiple productswith campaign" (Str.lower label)).
    rewrite H2. reflexivity.
  - rewrite H1. reflexivity.
Qed.

(** C4. The keyword "Contract with multiple products" starts with a
    capital letter and is looked for in the lower-cased label, so in both
    variants it matches no label; a label that is just this phrase, in any
    letter case, is not restricted for a non-advertiser. *)
Theorem contract_phrase_is_not_restricted (v : variant) (label : string) :
  Str.contains "Contract with multiple products" (Str.lower label) = false /\
  Str.contains "Contract with multiple productswith campaign" (Str.lower label) = false /\
  _is_restricted_tier v "Contract with multiple products" false = false /\
  _is_restricted_tier v "contract with multiple products" false = false /\
  _is_restricted_tier v "CONTRACT WITH MULTIPLE PRODUCTS" false = false.
Proof.
  destruct (contract_keyword_never_matches label) as [H1 H2].
  split; [exact H1 |]. split; [exact H2 |].
  destruct v; repeat split; reflexivity.
Qed.

(** ** The Banner Ad scenario *)

(** C8, as stated, fails: with the line price of the specification the
    allocator does not move the Banner Ad to the "4x" point and does not
    return a subtotal of 350. *)
Lemma banner_ad_scenario_refuted :
  ~ exists (sel : Selection) (forced_overage : bool),
      greedy_fill_to_cap Final 400 Samples.banner_ad Samples.no_meta None true None
        = Ret (sel, forced_overage) /\
      dict_get "Banner Ad" (picks sel) = Some ("Banner Ad", "4x", 350%Q) /\
      (subtotal sel == 350)%Q.
Proof.
  intros (sel & fo & Hrun & _ & Hsub).
  vm_compute in Hrun. inversion Hrun; subst. vm_compute in Hsub. discriminate.
Qed.

(** C8, amended. With budget 400, phase 1 picks the "1x" point at line
    price 100; the line price of the "4x" point is 350 * 4 = 1400, which is
    over the budget, so the upgrade loop changes nothing and the returned
    subtotal is 100, without forced overage. *)
Theorem banner_ad_scenario (v : variant) :
  let points :=
    priced_points v Samples.no_meta None true None "Banner Ad"
      (SpecPricing.mkProduct [SpecPricing.mkOption None [("1x", 100%Q); ("4x", 350%Q)]]) in
  points = [("Banner Ad", "1x", 100%Q, (100 * 1)%Q); ("Banner Ad", "4x", 350%Q, (350 * 4)%Q)] /\
  baseline v 400 Samples.banner_ad Samples.no_meta None true None
    = ([("Banner Ad", ("Banner Ad", "1x", 100%Q))], (0 + 100 * 1)%Q) /\
  exists sel : Selection,
    greedy_fill_to_cap v 400 Samples.banner_ad Samples.no_meta None true None
      = Ret (sel, false) /\
    picks sel = [("Banner Ad", ("Banner Ad", "1x", 100%Q))] /\
    (subtotal sel == 100)%Q.
Proof.
  destruct v.
  - split; [reflexivity |]. split; [reflexivity |].
    eexists. split; [vm_compute; reflexivity |]. split; reflexivity.
  - split; [reflexivity |]. split; [reflexivity |].
    eexists. split; [vm_compute; reflexivity |]. split; reflexivity.
Qed.

(** ** Two budgets *)

Section Cheapest_upgrade.
Context `{P : Pricing}.
Variables (v : variant) (products : list (string * ProductRecord))
  (meta : gmap string ProductMeta) (chosen_date : option Date)
  (is_advertiser : bool) (interactive_map_quarters : option Z).

Abbreviation line_of := (line_price v interactive_map_quarters).
Abbreviation points_of :=
  (priced_points v meta chosen_date is_advertiser interactive_map_quarters).
Abbreviation upgrades :=
  (upgrades_of v meta chosen_date is_advertiser interactive_map_quarters).
Abbreviation step budget :=
  (upgrade_step v budget products meta chosen_date is_advertiser interactive_map_quarters).
Abbreviation pass budget :=
  (upgrade_pass v budget products meta chosen_date is_advertiser interactive_map_quarters).
Abbreviation loop budget :=
  (upgrade_loop v budget products meta chosen_date is_advertiser interactive_map_quarters).

(** The head of the sorted list is a cheapest element. *)
Lemma sort_by_line_head (l : list Candidate) (h : Candidate) (t : list Candidate) :
  sort_by_line l = h :: t ->
  forall d, d ∈ l -> (cand_line h <= cand_line d)%Q.
Proof.
  revert h t. induction l as [| x l IH]; intros h t; simpl; [discriminate |].
  destruct (sort_by_line l) as [| h' t'] eqn:Hs.
  - intros [= <- <-] d Hd.
    assert (Hl : l = []).
    { destruct l as [| y l']; [reflexivity |].
      assert (Hy : y ∈ sort_by_line (y :: l')) by (apply elem_of_sort_by_line; left).
      rewrite Hs in Hy. apply elem_of_nil in Hy. tauto. }
    subst l. apply list_elem_of_singleton in Hd as ->. apply Qle_refl.
  - specialize (IH h' t' eq_refl). simpl.
    destruct (Qle_bool (cand_line x) (cand_line h')) eqn:Hle.
    + apply Qle_bool_iff in Hle. intros [= <- <-] d Hd.
      apply elem_of_cons in Hd as [-> | Hd]; [apply Qle_refl |].
      specialize (IH d Hd). lra.
    + apply Qle_bool_false in Hle. intros [= <- <-] d Hd.
      apply elem_of_cons in Hd as [-> | Hd]; [lra | exact (IH d Hd)].
Qed.

Lemma find_all_false {A : Type} (f : A -> bool) (l : list A) :
  (forall x, x ∈ l -> f x = false) -> find f l = None.
Proof.
  induction l as [| x l IH]; intros H; simpl; [reflexivity |].
  rewrite (H x) by left. apply IH. intros y Hy. apply H. now right.
Qed.

(** The first upgrade that fits is the cheapest upgrade, when it fits. *)
Lemma find_fitting_upgrade (budget s cur : Q) (l : list Candidate) :
  find (fun c => Qle_bool (s - cur + cand_line c) budget) (sort_by_line l) =
    match sort_by_line l with
    | [] => None
    | h :: _ => if Qle_bool (s - cur + cand_line h) budget then Some h else None
    end.
Proof.
  destruct (sort_by_line l) as [| h t] eqn:Hs; [reflexivity |].
  pose proof (sort_by_line_head l h t Hs) as Hmin. simpl.
  destruct (Qle_bool (s - cur + cand_line h) budget) eqn:Hfit; [reflexivity |].
  apply Qle_bool_false in Hfit. apply find_all_false. intros d Hd.
  apply Qle_bool_false.
  assert (Hd' : d ∈ l) by (apply elem_of_sort_by_line; rewrite Hs; now right).
  specialize (Hmin d Hd'). lra.
Qed.

Lemma upgrade_step_head (budget : Q) (st : loop_state) (pname : string) (pick : Pick)
    (product : ProductRecord) :
  dict_get pname products = Some product ->
  let cur_line := line_of pname product pick.1.2 pick.2 in
  step budget st (pname, pick) =
    match upgrades pname product cur_line with
    | [] => Ret st
    | h :: _ =>
        if Qle_bool (st_subtotal st - cur_line + cand_line h) budget
        then Ret (mkState (st_subtotal st - cur_line + cand_line h)
                          (dict_set pname (cand_pick h) (st_picks st)) true)
        else Ret st
    end.
Proof.
  intros Hprod cur_line. destruct pick as [[cur_opt cur_lbl] cur_base].
  unfold upgrade_step. rewrite Hprod. simpl in cur_line. fold cur_line.
  unfold upgrades_of. rewrite find_fitting_upgrade.
  destruct (sort_by_line _) as [| [[[o l] b] n] t]; [reflexivity |].
  simpl. destruct (Qle_bool _ budget); reflexivity.
Qed.

(** With a larger budget a step does the same, or it applies an upgrade
    that the smaller budget cannot pay. *)
Lemma upgrade_step_two_budgets (b1 b2 : Q) (st st1 st2 : loop_state) (e : string * Pick) :
  (b1 <= b2)%Q ->
  step b1 st e = Ret st1 -> step b2 st e = Ret st2 ->
  st1 = st2 \/ (st1 = st /\ (b1 < st_subtotal st2)%Q).
Proof.
  intros Hb. destruct e as [pname pick].
  destruct (dict_get pname products) as [product |] eqn:Hprod.
  - rewrite !(upgrade_step_head _ _ _ _ _ Hprod).
    destruct (upgrades _ _ _) as [| h t]; [intros [= <-] [= <-]; now left |].
    destruct (Qle_bool _ b1) eqn:H1; destruct (Qle_bool _ b2) eqn:H2;
      intros [= <-] [= <-]; try (now left).
    + apply Qle_bool_iff in H1. apply Qle_bool_false in H2. lra.
    + apply Qle_bool_false in H1. right. split; [reflexivity | exact H1].
  - rewrite upgrade_step_KeyError by assumption. discriminate.
Qed.

Lemma upgrade_pass_nondecreasing (budget : Q) (rest : list (string * Pick))
    (st st' : loop_state) :
  pass budget rest st = Ret st' -> (st_subtotal st <= st_subtotal st')%Q.
Proof.
  apply (upgrade_pass_preserves v budget products meta chosen_date is_advertiser
           interactive_map_quarters (fun x => (st_subtotal st <= st_subtotal x)%Q)).
  - intros s e s' Hs Hstep.
    apply upgrade_step_increases in Hstep as [-> | (cur & new & Hlt & _ & ->)]; [exact Hs | lra].
  - apply Qle_refl.
Qed.

Lemma upgrade_loop_nondecreasing (budget : Q) (fuel : nat) (s : Q)
    (p : list (string * Pick)) (r : list (string * Pick) * Q) :
  loop budget fuel s p = Ret r -> (s <= r.2)%Q.
Proof.
  apply (upgrade_loop_preserves v budget products meta chosen_date is_advertiser
           interactive_map_quarters (fun x _ => (s <= x)%Q)).
  - intros st e st' Hs Hstep.
    apply upgrade_step_increases in Hstep as [-> | (cur & new & Hlt & _ & ->)]; [exact Hs | lra].
  - apply Qle_refl.
Qed.

Lemma upgrade_loop_within_budget (budget : Q) (fuel : nat) (s : Q)
    (p : list (string * Pick)) (r : list (string * Pick) * Q) :
  (s <= budget)%Q -> loop budget fuel s p = Ret r -> (r.2 <= budget)%Q.
Proof.
  intros Hs.
  apply (upgrade_loop_preserves v budget products meta chosen_date is_advertiser
           interactive_map_quarters (fun x _ => (x <= budget)%Q)); [| exact Hs].
  intros st e st' Hst Hstep.
  apply upgrade_step_increases in Hstep as [-> | (cur & new & _ & Hfit & ->)]; assumption.
Qed.

Lemma upgrade_pass_two_budgets (b1 b2 : Q) (rest : list (string * Pick))
    (st st1 st2 : loop_state) :
  (b1 <= b2)%Q ->
  pass b1 rest st = Ret st1 -> pass b2 rest st = Ret st2 ->
  st1 = st2 \/ (b1 < st_subtotal st2)%Q.
Proof.
  intros Hb. revert st. induction rest as [| e rest IH]; intros st; simpl.
  - intros [= <-] [= <-]. now left.
  - destruct (step b1 st e) as [sa | |] eqn:Ea; try discriminate.
    destruct (step b2 st e) as [sb | |] eqn:Eb; try discriminate.
    cbn [mbind outcome_bind]. intros H1 H2.
    destruct (upgrade_step_two_budgets b1 b2 st sa sb e Hb Ea Eb) as [-> | [-> Hlt]].
    + exact (IH _ H1 H2).
    + right. apply upgrade_pass_nondecreasing in H2. lra.
Qed.

(** From the same state, the loop with the larger budget ends on a
    subtotal that is no smaller. *)
Lemma upgrade_loop_two_budgets (b1 b2 : Q) (fuel1 fuel2 : nat) (s : Q)
    (p : list (string * Pick)) (r1 r2 : list (string * Pick) * Q) :
  (b1 <= b2)%Q -> (s <= b1)%Q ->
  loop b1 fuel1 s p = Ret r1 -> loop b2 fuel2 s p = Ret r2 ->
  (r1.2 <= r2.2)%Q.
Proof.
  intros Hb. revert fuel2 s p.
  induction fuel1 as [| fuel1 IH]; intros fuel2 s p Hs H1 H2; [discriminate |].
  destruct fuel2 as [| fuel2]; [discriminate |].
  pose proof (upgrade_loop_within_budget b1 _ _ _ _ Hs H1) as Hr1.
  simpl in H1, H2.
  destruct (pass b1 p _) as [st1 | |] eqn:E1; try discriminate.
  destruct (pass b2 p _) as [st2 | |] eqn:E2; try discriminate.
  cbn [mbind outcome_bind] in H1, H2.
  destruct (upgrade_pass_two_budgets b1 b2 _ _ _ _ Hb E1 E2) as [-> | Hlt].
  - destruct (st_improved st2).
    + refine (IH _ _ _ _ H1 H2).
      apply (upgrade_pass_preserves v b1 products meta chosen_date is_advertiser
               interactive_map_quarters (fun x => (st_subtotal x <= b1)%Q)) in E1;
        [exact E1 | | exact Hs].
      intros st e st' Hst Hstep.
      apply upgrade_step_increases in Hstep as [-> | (cur & new & _ & Hfit & ->)]; assumption.
    + inversion H1; inversion H2; subst. apply Qle_refl.
  - assert (Hr2 : (st_subtotal st2 <= r2.2)%Q).
    { destruct (st_improved st2).
      - exact (upgrade_loop_nondecreasing _ _ _ _ _ H2).
      - inversion H2; subst. apply Qle_refl. }
    lra.
Qed.

End Cheapest_upgrade.

Section Baseline_two_budgets.
Context `{P : Pricing}.
Variables (v : variant) (meta : gmap string ProductMeta) (chosen_date : option Date)
  (is_advertiser : bool) (interactive_map_quarters : option Z).

Abbreviation line_of := (line_price v interactive_map_quarters).
Abbreviation points_of :=
  (priced_points v meta chosen_date is_advertiser interactive_map_quarters).
Abbreviation best_of budget :=
  (baseline_best v budget meta chosen_date is_advertiser interactive_map_quarters).
Abbreviation base_product budget :=
  (baseline_product v budget meta chosen_date is_advertiser interactive_map_quarters).
Abbreviation base budget products :=
  (baseline v budget products meta chosen_date is_advertiser interactive_map_quarters).

Lemma fold_baseline_step_elem (budget : Q) (pname : string) (l : list Candidate)
    (init : option Candidate) (c : Candidate) :
  fold_left (baseline_step v budget pname) l init = Some c ->
  init = Some c \/ c ∈ l.
Proof.
  revert init. induction l as [| x l IH]; intros init; simpl; [now left |].
  intros H. apply IH in H as [H | H]; [| right; now right].
  unfold baseline_step in H.
  repeat match type of H with
         | context [match ?b with _ => _ end] => destruct b
         end; inversion H; subst; try (now left); right; left.
Qed.

Lemma baseline_best_elem (budget : Q) (pname : string) (product : ProductRecord)
    (c : Candidate) :
  best_of budget pname product = Some c -> c ∈ points_of pname product.
Proof.
  intros H. apply fold_baseline_step_elem in H as [H | H]; [discriminate | exact H].
Qed.

(** Only the Interactive Map of the Final variant looks at the budget in
    phase 1. *)
Lemma baseline_best_budget_free (b1 b2 : Q) (pname : string) (product : ProductRecord) :
  v = Cloud \/ pname <> MAP_NAME ->
  best_of b1 pname product = best_of b2 pname product.
Proof.
  intros Hv. unfold baseline_best. generalize (@None Candidate).
  induction (points_of pname product) as [| x l IH]; intros init; simpl; [reflexivity |].
  rewrite !baseline_step_cheapest by assumption. apply IH.
Qed.

Lemma baseline_best_two_budgets (b1 b2 : Q) (pname : string) (product : ProductRecord) :
  (b1 <= b2)%Q ->
  best_of b1 pname product = best_of b2 pname product \/
  exists c2,
    best_of b2 pname product = Some c2 /\ (b1 < cand_line c2)%Q /\
    match best_of b1 pname product with
    | Some c1 => (cand_line c1 <= b1)%Q
    | None => True
    end.
Proof.
  intros Hb.
  destruct (decide (pname = MAP_NAME)) as [-> | Hne];
    [| left; apply baseline_best_budget_free; now right].
  assert (Ev : v = Cloud \/ v = Final) by (destruct v; auto).
  destruct Ev as [Ev | Ev]; [left; apply baseline_best_budget_free; now left |].
  rewrite Ev.
  unfold baseline_best.
  set (l := priced_points Final meta chosen_date is_advertiser interactive_map_quarters
              MAP_NAME product).
  pose proof (fold_map b1 l) as H1. pose proof (fold_map b2 l) as H2.
  destruct (fold_left (baseline_step Final b2 MAP_NAME) l None) as [c2 |].
  - destruct H2 as (i2 & Hi2 & Hfit2 & Hmax2).
    destruct (Qlt_le_dec b1 (cand_line c2)) as [Hlt | Hle].
    + right. exists c2. split; [reflexivity |]. split; [exact Hlt |].
      destruct (fold_left (baseline_step Final b1 MAP_NAME) l None) as [c1 |]; [| exact I].
      destruct H1 as (_ & _ & Hfit1 & _). exact Hfit1.
    + left. destruct (fold_left (baseline_step Final b1 MAP_NAME) l None) as [c1 |].
      * destruct H1 as (i1 & Hi1 & Hfit1 & Hmax1).
        assert (Hfit12 : (cand_line c1 <= b2)%Q) by lra.
        destruct (Hmax1 i2 c2 Hi2 Hle) as [Hle21 Hlt21].
        destruct (Hmax2 i1 c1 Hi1 Hfit12) as [Hle12 Hlt12].
        destruct (lt_eq_lt_dec i1 i2) as [[Hi | Hi] | Hi].
        -- specialize (Hlt12 Hi). lra.
        -- subst i2. congruence.
        -- specialize (Hlt21 Hi). lra.
      * apply list_elem_of_lookup_2 in Hi2. specialize (H1 c2 Hi2). lra.
  - left. destruct (fold_left (baseline_step Final b1 MAP_NAME) l None) as [c1 |];
      [| reflexivity].
    destruct H1 as (i1 & Hi1 & Hfit1 & _).
    apply list_elem_of_lookup_2 in Hi1. specialize (H2 c1 Hi1). lra.
Qed.

(** Without an Interactive Map that looks at the budget, phase 1 is the
    same for all budgets. *)
Lemma baseline_budget_free (b1 b2 : Q) (products : list (string * ProductRecord)) :
  v = Cloud \/ MAP_NAME ∉ keys products ->
  base b1 products = base b2 products.
Proof.
  intros Hv. unfold baseline. generalize (@nil (string * Pick), 0%Q).
  induction products as [| [pname product] l IH]; intros st; cbn [fold_left];
    [reflexivity |].
  assert (Hbest : best_of b1 pname product = best_of b2 pname product).
  { apply baseline_best_budget_free. destruct Hv as [Hv | Hv]; [now left | right].
    intros ->. apply Hv. rewrite keys_cons. left. }
  assert (Hstep : base_product b1 st (pname, product) = base_product b2 st (pname, product))
    by (unfold baseline_product; now rewrite Hbest).
  rewrite Hstep. apply IH.
  destruct Hv as [Hv | Hv]; [now left | right].
  intros Hin. apply Hv. rewrite keys_cons. now right.
Qed.

(** With line prices that are not negative, a larger budget gives a
    phase 1 subtotal that is no smaller; and phase 1 is the same, or its
    subtotal at the larger budget exceeds the smaller budget. *)
Lemma fold_baseline_two_budgets (b1 b2 : Q) (l : list (string * ProductRecord))
    (st1 st2 : list (string * Pick) * Q) :
  (b1 <= b2)%Q ->
  (forall pname product c,
     (pname, product) ∈ l -> c ∈ points_of pname product -> (0 <= cand_line c)%Q) ->
  (0 <= st1.2)%Q -> (st1.2 <= st2.2)%Q -> st1 = st2 \/ (b1 < st2.2)%Q ->
  let r1 := fold_left (base_product b1) l st1 in
  let r2 := fold_left (base_product b2) l st2 in
  (r1.2 <= r2.2)%Q /\ (r1 = r2 \/ (b1 < r2.2)%Q).
Proof.
  intros Hb. revert st1 st2.
  induction l as [| [pname product] l IH]; intros st1 st2 Hpos H0 Hle Hrel;
    cbn [fold_left]; [auto |].
  assert (Hpos' : forall c, c ∈ points_of pname product -> (0 <= cand_line c)%Q).
  { intros c. apply Hpos. left. }
  assert (Hline : forall budget c, best_of budget pname product = Some c ->
            line_of pname product (cand_pick c).1.2 (cand_pick c).2 = cand_line c /\
            (0 <= cand_line c)%Q).
  { intros budget c Hc. apply baseline_best_elem in Hc. split; [| auto].
    symmetry.
    exact (priced_points_line v meta chosen_date is_advertiser interactive_map_quarters
             _ _ _ Hc). }
  apply IH.
  - intros pn pr c Hin. apply Hpos. now right.
  - unfold baseline_product.
    destruct (best_of b1 pname product) as [[[[o lb] e] n] |] eqn:E1; [| exact H0].
    destruct (Hline _ _ E1) as [Heq Hn]. simpl in *. rewrite Heq. lra.
  - unfold baseline_product.
    destruct (baseline_best_two_budgets b1 b2 pname product Hb) as [Heq | (c2 & E2 & Hlt & H1)].
    + rewrite <- Heq.
      destruct (best_of b1 pname product) as [[[[o lb] e] n] |] eqn:E1; [| exact Hle].
      simpl. lra.
    + rewrite E2. destruct (Hline _ _ E2) as [Heq2 Hn2].
      destruct c2 as [[[o2 lb2] e2] n2]. simpl in *. rewrite Heq2.
      destruct (best_of b1 pname product) as [[[[o lb] e] n] |] eqn:E1.
      * destruct (Hline _ _ E1) as [Heq1 Hn1]. simpl in *. rewrite Heq1. lra.
      * simpl. lra.
  - unfold baseline_product.
    destruct (baseline_best_two_budgets b1 b2 pname product Hb) as [Heq | (c2 & E2 & Hlt & H1)].
    + rewrite <- Heq.
      destruct (best_of b1 pname product) as [[[[o lb] e] n] |] eqn:E1; [| exact Hrel].
      destruct (Hline _ _ E1) as [Heq1 Hn1]. simpl in *.
      destruct Hrel as [-> | Hrel]; [now left | right]. rewrite Heq1. lra.
    + right. rewrite E2. destruct (Hline _ _ E2) as [Heq2 Hn2].
      destruct c2 as [[[o2 lb2] e2] n2]. simpl in *. rewrite Heq2. lra.
Qed.

Lemma baseline_two_budgets (b1 b2 : Q) (products : list (string * ProductRecord)) :
  (b1 <= b2)%Q ->
  (v = Cloud \/ MAP_NAME ∉ keys products) \/
  nonneg_lines v products meta chosen_date is_advertiser interactive_map_quarters ->
  ((base b1 products).2 <= (base b2 products).2)%Q /\
  (base b1 products = base b2 products \/ (b1 < (base b2 products).2)%Q).
Proof.
  intros Hb [Hv | Hpos].
  - rewrite (baseline_budget_free b1 b2 products Hv). split; [apply Qle_refl | now left].
  - apply fold_baseline_two_budgets; simpl; try assumption; try apply Qle_refl. now left.
Qed.

End Baseline_two_budgets.

(** The subtotal before rounding grows with the budget. *)
Lemma greedy_raw_two_budgets `{P : Pricing} (v : variant)
    (products : list (string * ProductRecord)) (meta : gmap string ProductMeta)
    (chosen_date : option Date) (is_advertiser : bool)
    (interactive_map_quarters : option Z) (b1 b2 : Q) (fuel1 fuel2 : nat)
    (p1 p2 : list (string * Pick)) (s1 s2 : Q) (fo1 fo2 : bool) :
  (b1 <= b2)%Q ->
  (v = Cloud \/ MAP_NAME ∉ keys products) \/
  nonneg_lines v products meta chosen_date is_advertiser interactive_map_quarters ->
  greedy_raw v b1 products meta chosen_date is_advertiser interactive_map_quarters fuel1
    = Ret (p1, s1, fo1) ->
  greedy_raw v b2 products meta chosen_date is_advertiser interactive_map_quarters fuel2
    = Ret (p2, s2, fo2) ->
  (s1 <= s2)%Q.
Proof.
  intros Hb Hcond. unfold greedy_raw.
  destruct (baseline_two_budgets v meta chosen_date is_advertiser interactive_map_quarters
              b1 b2 products Hb Hcond) as [Hle Hrel].
  destruct (baseline v b1 _ _ _ _ _) as [bp1 bs1].
  destruct (baseline v b2 _ _ _ _ _) as [bp2 bs2].
  cbn [fst snd] in *.
  destruct (Qltb b1 bs1) eqn:F1; destruct (Qltb b2 bs2) eqn:F2.
  - intros [= <- <- <-] [= <- <- <-]. exact Hle.
  - intros [= <- <- <-].
    destruct (upgrade_loop v b2 _ _ _ _ _ _ _ _) as [r2 | |] eqn:E2; try discriminate.
    intros [= <- <- <-]. apply upgrade_loop_nondecreasing in E2. lra.
  - apply Qltb_ge in F1. apply Qltb_lt in F2.
    destruct (upgrade_loop v b1 _ _ _ _ _ _ _ _) as [r1 | |] eqn:E1; try discriminate.
    intros [= <- <- <-] [= <- <- <-].
    apply upgrade_loop_within_budget in E1; [| exact F1].
    destruct Hrel as [[= -> ->] | Hlt]; lra.
  - apply Qltb_ge in F1. apply Qltb_ge in F2.
    destruct (upgrade_loop v b1 _ _ _ _ _ _ _ _) as [r1 | |] eqn:E1; try discriminate.
    destruct (upgrade_loop v b2 _ _ _ _ _ _ _ _) as [r2 | |] eqn:E2; try discriminate.
    intros [= <- <- <-] [= <- <- <-].
    destruct Hrel as [[= -> ->] | Hlt].
    + exact (upgrade_loop_two_budgets v products meta chosen_date is_advertiser
               interactive_map_quarters b1 b2 _ _ _ _ _ _ Hb F1 E1 E2).
    + apply upgrade_loop_within_budget in E1; [| exact F1].
      apply upgrade_loop_nondecreasing in E2. lra.
Qed.

(** C5, as stated, fails in the Final variant: with the Interactive Map
    and a Banner Ad, budget 9 gives no forced overage and budget 10 gives
    forced overage, because phase 1 then picks the dearer Map tier. *)
Lemma overage_flips_with_larger_budget :
  ~ forall (sel1 sel2 : Selection) (fo1 fo2 : bool),
      greedy_fill_to_cap Final 9 Samples.map_and_banner Samples.no_meta None false None
        = Ret (sel1, fo1) ->
      greedy_fill_to_cap Final 10 Samples.map_and_banner Samples.no_meta None false None
        = Ret (sel2, fo2) ->
      (subtotal sel1 <= subtotal sel2)%Q /\ (fo1 = false -> fo2 = false).
Proof.
  intros H.
  eassert (E1 : greedy_fill_to_cap Final 9 Samples.map_and_banner Samples.no_meta
                  None false None = Ret (_, false)) by (vm_compute; reflexivity).
  eassert (E2 : greedy_fill_to_cap Final 10 Samples.map_and_banner Samples.no_meta
                  None false None = Ret (_, true)) by (vm_compute; reflexivity).
  destruct (H _ _ _ _ E1 E2) as [_ Hflag]. specialize (Hflag eq_refl). discriminate.
Qed.

(** With a negative line price in the catalog, the Final variant can also
    return a smaller subtotal for a larger budget. *)
Example subtotal_drops_with_negative_price :
  exists sel1 sel2 : Selection,
    greedy_fill_to_cap Final 9 Samples.rebate_and_map Samples.no_meta None true None
      = Ret (sel1, false) /\
    greedy_fill_to_cap Final 10 Samples.rebate_and_map Samples.no_meta None true None
      = Ret (sel2, false) /\
    (subtotal sel1 == 89 # 10)%Q /\ (subtotal sel2 == 7)%Q.
Proof.
  eexists _, _. split; [vm_compute; reflexivity |]. split; [vm_compute; reflexivity |].
  split; reflexivity.
Qed.

(** C5, amended. For budgets [b1 <= b2] and everything else fixed: in the
    Cloud variant, and in the Final variant when the catalog has no
    "Chicago Does Interactive Map", the returned subtotal at [b2] is at
    least the one at [b1], and no forced overage at [b1] means no forced
    overage at [b2]; in any case the returned subtotal at [b2] is at least
    the one at [b1] when no eligible price point has a negative line
    price. *)
Theorem larger_budget_larger_subtotal `{P : Pricing} (v : variant)
    (products : list (string * ProductRecord)) (meta : gmap string ProductMeta)
    (chosen_date : option Date) (is_advertiser : bool)
    (interactive_map_quarters : option Z) (b1 b2 : Q) :
  (b1 <= b2)%Q ->
  exists (sel1 sel2 : Selection) (fo1 fo2 : bool),
    greedy_fill_to_cap v b1 products meta chosen_date is_advertiser
      interactive_map_quarters = Ret (sel1, fo1) /\
    greedy_fill_to_cap v b2 products meta chosen_date is_advertiser
      interactive_map_quarters = Ret (sel2, fo2) /\
    (v = Cloud \/ "Chicago Does Interactive Map" ∉ keys products ->
     (subtotal sel1 <= subtotal sel2)%Q /\ (fo1 = false -> fo2 = false)) /\
    (nonneg_lines v products meta chosen_date is_advertiser interactive_map_quarters ->
     (subtotal sel1 <= subtotal sel2)%Q).
Proof.
  intros Hb.
  destruct (greedy_fill_to_cap_total v b1 products meta chosen_date is_advertiser
              interactive_map_quarters _ (le_n _))
    as (p1 & s1 & Hraw1 & _ & Hrun1 & _).
  destruct (greedy_fill_to_cap_total v b2 products meta chosen_date is_advertiser
              interactive_map_quarters _ (le_n _))
    as (p2 & s2 & Hraw2 & _ & Hrun2 & _).
  eexists _, _, _, _. split; [exact Hrun1 |]. split; [exact Hrun2 |].
  assert (Hsub : (v = Cloud \/ MAP_NAME ∉ keys products) \/
                 nonneg_lines v products meta chosen_date is_advertiser
                   interactive_map_quarters ->
                 (round2 s1 <= round2 s2)%Q).
  { intros Hcond. apply round2_mono.
    exact (greedy_raw_two_budgets v products meta chosen_date is_advertiser
             interactive_map_quarters b1 b2 _ _ _ _ _ _ _ _ Hb Hcond Hraw1 Hraw2). }
  split.
  - intros Hv. split; [apply Hsub; now left |].
    rewrite (baseline_budget_free v meta chosen_date is_advertiser
               interactive_map_quarters b1 b2 products Hv).
    rewrite !Qltb_ge. intros H1. lra.
  - intros Hpos. simpl. apply Hsub. now right.
Qed.

Lemma map_and_banner_nonneg_lines :
  nonneg_lines Final Samples.map_and_banner Samples.no_meta None false None.
Proof.
  intros pname product c Hin Hc.
  apply elem_of_cons in Hin as [[= -> ->] | Hin].
  - vm_compute in Hc. apply elem_of_cons in Hc as [-> | Hc]; [vm_compute; discriminate |].
    apply list_elem_of_singleton in Hc as ->. vm_compute. discriminate.
  - apply list_elem_of_singleton in Hin as [= -> ->].
    vm_compute in Hc. apply list_elem_of_singleton in Hc as ->. vm_compute. discriminate.
Qed.

Lemma larger_budget_larger_subtotal_witness :
  (exists (sel1 sel2 : Selection) (fo1 fo2 : bool),
     greedy_fill_to_cap Final 260 Samples.two_products Samples.no_meta None true None
       = Ret (sel1, fo1) /\
     greedy_fill_to_cap Final 300 Samples.two_products Samples.no_meta None true None
       = Ret (sel2, fo2) /\
     (subtotal sel1 <= subtotal sel2)%Q /\ (fo1 = false -> fo2 = false)) /\
  (exists (sel1 sel2 : Selection) (fo1 fo2 : bool),
     greedy_fill_to_cap Final 9 Samples.map_and_banner Samples.no_meta None false None
       = Ret (sel1, fo1) /\
     greedy_fill_to_cap Final 10 Samples.map_and_banner Samples.no_meta None false None
       = Ret (sel2, fo2) /\
     (subtotal sel1 <= subtotal sel2)%Q).
Proof.
  split.
  - destruct (larger_budget_larger_subtotal Final Samples.two_products Samples.no_meta
                None true None 260 300)
      as (sel1 & sel2 & fo1 & fo2 & H1 & H2 & Hfree & _).
    + vm_compute. discriminate.
    + exists sel1, sel2, fo1, fo2. split; [exact H1 |]. split; [exact H2 |].
      apply Hfree. right. apply (bool_decide_unpack _). vm_compute. exact I.
  - destruct (larger_budget_larger_subtotal Final Samples.map_and_banner Samples.no_meta
                None false None 9 10)
      as (sel1 & sel2 & fo1 & fo2 & H1 & H2 & _ & Hpos).
    + vm_compute. discriminate.
    + exists sel1, sel2, fo1, fo2. split; [exact H1 |]. split; [exact H2 |].
      apply Hpos. exact map_and_banner_nonneg_lines.
Defined.

(** * Further properties of the allocator *)

Section Pass_invariants.
Context `{P : Pricing}.
Variables (v : variant) (budget : Q) (products : list (string * ProductRecord))
  (meta : gmap string ProductMeta) (chosen_date : option Date)
  (is_advertiser : bool) (interactive_map_quarters : option Z).

Abbreviation line_of := (line_price v interactive_map_quarters).
Abbreviation points_of :=
  (priced_points v meta chosen_date is_advertiser interactive_map_quarters).
Abbreviation upgrades :=
  (upgrades_of v meta chosen_date is_advertiser interactive_map_quarters).
Abbreviation step :=
  (upgrade_step v budget products meta chosen_date is_advertiser interactive_map_quarters).
Abbreviation pass :=
  (upgrade_pass v budget products meta chosen_date is_advertiser interactive_map_quarters).
Abbreviation loop :=
  (upgrade_loop v budget products meta chosen_date is_advertiser interactive_map_quarters).
Abbreviation base :=
  (baseline v budget products meta chosen_date is_advertiser interactive_map_quarters).
Abbreviation best_of :=
  (baseline_best v budget meta chosen_date is_advertiser interactive_map_quarters).
Abbreviation base_product :=
  (baseline_product v budget meta chosen_date is_advertiser interactive_map_quarters).
Abbreviation line_in := (pick_line v products interactive_map_quarters).
Abbreviation total := (picks_total v products interactive_map_quarters).
Abbreviation eligible :=
  (eligible_pick v products meta chosen_date is_advertiser interactive_map_quarters).

(** A step touches the pick of its own product only. *)
Lemma upgrade_step_other (st st' : loop_state) (k k' : string) (p : Pick) :
  step st (k, p) = Ret st' -> k <> k' ->
  dict_get k' (st_picks st') = dict_get k' (st_picks st).
Proof.
  intros Hstep Hne. destruct (dict_get k products) as [product |] eqn:Hprod.
  - destruct (upgrade_step_cases v budget products meta chosen_date is_advertiser
                interactive_map_quarters st k p product Hprod)
      as [E | (c & _ & _ & _ & E)]; rewrite E in Hstep; inversion Hstep; subst;
      [reflexivity |].
    simpl. now apply dict_get_set_ne.
  - rewrite upgrade_step_KeyError in Hstep by assumption. discriminate.
Qed.

(** A property kept by every step that visits a product at its current
    pick holds after a pass over a snapshot of the picks. *)
Lemma upgrade_pass_keeps (I : loop_state -> Prop) :
  (forall st k p st',
     dict_get k (st_picks st) = Some p -> k ∈ keys products ->
     I st -> step st (k, p) = Ret st' -> I st') ->
  forall rest st st',
    snapshot_ok products rest (st_picks st) -> I st -> pass rest st = Ret st' -> I st'.
Proof.
  intros Hstep. induction rest as [| [k p] rest IH]; intros st st' [Hnd Hok] HI;
    cbn [upgrade_pass].
  - now intros [= <-].
  - destruct (step st (k, p)) as [st1 | |] eqn:E; try discriminate.
    cbn [mbind outcome_bind]. intros Hrun.
    rewrite keys_cons in Hnd. apply NoDup_cons in Hnd as [Hk Hnd].
    destruct (Hok k p) as [Hget Hkey]; [left |].
    apply (IH st1 st'); [| exact (Hstep _ _ _ _ Hget Hkey HI E) | exact Hrun].
    split; [exact Hnd |]. intros k' p' Hin.
    destruct (Hok k' p') as [Hget' Hkey']; [now right |]. split; [| exact Hkey'].
    rewrite (upgrade_step_other _ _ _ _ _ E); [exact Hget' |].
    intros ->. apply Hk. apply (list_elem_of_fmap_2 fst) in Hin. exact Hin.
Qed.

(** The same for the loop, for a property of subtotal and picks. *)
Lemma upgrade_loop_keeps (I : Q -> list (string * Pick) -> Prop) :
  (forall st k p st',
     dict_get k (st_picks st) = Some p -> k ∈ keys products ->
     I (st_subtotal st) (st_picks st) -> step st (k, p) = Ret st' ->
     I (st_subtotal st') (st_picks st')) ->
  forall fuel s p r,
    NoDup (keys p) -> keys p ⊆ keys products ->
    I s p -> loop fuel s p = Ret r -> I r.2 r.1.
Proof.
  intros Hstep. induction fuel as [| fuel IH]; intros s p r Hnd Hsub HI; [discriminate |].
  cbn [upgrade_loop].
  pose proof (snapshot_ok_self products p Hnd Hsub) as Hok.
  destruct (upgrade_pass_total v budget products meta chosen_date is_advertiser
              interactive_map_quarters p (mkState s p false) Hok)
    as (st & Hrun & Hkeys & _).
  rewrite Hrun. cbn [mbind outcome_bind]. simpl in Hkeys.
  assert (HIst : I (st_subtotal st) (st_picks st)).
  { exact (upgrade_pass_keeps (fun x => I (st_subtotal x) (st_picks x)) Hstep
             p (mkState s p false) st Hok HI Hrun). }
  destruct (st_improved st).
  - apply IH; [now rewrite Hkeys | now rewrite Hkeys | exact HIst].
  - intros [= <-]. exact HIst.
Qed.

End Pass_invariants.

(** Rounding to the nearest integer moves a number by a half at most. *)
Lemma round_half_even_close (x : Q) :
  (x - (1 # 2) <= inject_Z (round_half_even x) <= x + (1 # 2))%Q.
Proof.
  unfold round_half_even.
  pose proof (Qfloor_le x) as Hlo. pose proof (Qlt_floor x) as Hhi.
  rewrite inject_Z_plus in Hhi. change (inject_Z 1) with 1%Q in Hhi.
  destruct (x - inject_Z (Qfloor x) ?= 1 # 2)%Q eqn:Hc.
  - apply Qeq_alt in Hc. destruct (Z.even (Qfloor x)).
    + split; lra.
    + rewrite inject_Z_plus. change (inject_Z 1) with 1%Q. split; lra.
  - apply Qlt_alt in Hc. split; lra.
  - apply Qgt_alt in Hc. rewrite inject_Z_plus. change (inject_Z 1) with 1%Q. split; lra.
Qed.

(** ** Binary64 rounding and the pool budgets *)

Lemma ilog2_le (x : Q) : (0 < x)%Q -> (2 ^ Binary64.ilog2 x <= x)%Q.
Proof.
  intros Hx. unfold Binary64.ilog2. cbv zeta.
  destruct (Qle_bool _ x) eqn:E; [now apply Qle_bool_iff |]. clear E.
  destruct x as [n d]. cbn [Qnum Qden].
  assert (Hn : (0 < n)%Z).
  { unfold Qlt in Hx. cbn in Hx. lia. }
  pose proof (Z.log2_spec n Hn) as [Hlo _].
  pose proof (Z.log2_spec (Z.pos d) (Pos2Z.is_pos d)) as [_ Hhi].
  pose proof (Z.log2_nonneg n) as Ha. pose proof (Z.log2_nonneg (Z.pos d)) as Hb.
  set (a := Z.log2 n) in *. set (b := Z.log2 (Z.pos d)) in *.
  replace (a - b - 1)%Z with (a - Z.succ b)%Z by lia.
  rewrite Qpower_minus by discriminate.
  change 2%Q with (inject_Z 2).
  rewrite <- !Zpower_Qpower by lia.
  rewrite (Qmake_Qdiv n d).
  assert (HB : (0 < inject_Z (2 ^ Z.succ b))%Q).
  { rewrite <- (Zlt_Qlt 0). lia. }
  assert (HD : (0 < inject_Z (Z.pos d))%Q) by (now rewrite <- (Zlt_Qlt 0)).
  apply Qle_shift_div_r; [exact HB |].
  assert (Hq : (inject_Z n / inject_Z (Z.pos d) * inject_Z (2 ^ Z.succ b)
                == inject_Z n * inject_Z (2 ^ Z.succ b) / inject_Z (Z.pos d))%Q)
    by (field; intros H0; rewrite H0 in HD; discriminate).
  rewrite Hq.
  apply Qle_shift_div_l; [exact HD |].
  rewrite <- !inject_Z_mult, <- Zle_Qle. nia.
Qed.

(** A float is within half a unit in the last place of the exact result:
    a relative error of [2^-53], or [2^-1075] near zero. *)
Lemma fl_close (x : Q) :
  (Qabs (Binary64.fl x - x) <= Qabs x * 2 ^ (-53) + 2 ^ (-1075))%Q.
Proof.
  assert (Habs : (0 <= Qabs x)%Q) by apply Qabs_nonneg.
  assert (H53 : (0 < 2 ^ (-53))%Q) by reflexivity.
  assert (H1075 : (0 < 2 ^ (-1075))%Q) by reflexivity.
  unfold Binary64.fl. destruct (Qeq_bool x 0) eqn:E.
  - apply Qeq_bool_iff in E.
    assert (Hq : (0 - x == 0)%Q) by (rewrite E; reflexivity).
    rewrite Hq. change (Qabs 0) with 0%Q. nra.
  - apply Qeq_bool_neq in E. cbv zeta.
    set (e := Binary64.ulp_exp x). set (u := (2 ^ e)%Q).
    assert (Hu : (0 < u)%Q) by (apply Qpower_0_lt; reflexivity).
    set (m := round_half_even (x / u)).
    assert (Hm : (Qabs (inject_Z m - x / u) <= 1 # 2)%Q).
    { pose proof (round_half_even_close (x / u)) as [Hlo Hhi]. fold m in Hlo, Hhi.
      apply Qabs_Qle_condition. split; lra. }
    assert (Herr : (Qabs (inject_Z m * u - x) <= u * (1 # 2))%Q).
    { assert (Hq : (inject_Z m * u - x == (inject_Z m - x / u) * u)%Q)
        by (field; intros H0; rewrite H0 in Hu; discriminate).
      rewrite Hq, Qabs_Qmult, (Qabs_pos u) by lra. nra. }
    apply (Qle_trans _ _ _ Herr).
    assert (Hxpos : (0 < Qabs x)%Q).
    { destruct (Qlt_le_dec 0 (Qabs x)) as [H | H]; [exact H |].
      exfalso. apply E. apply Qabs_Qle_condition in H. destruct H. lra. }
    subst u e. unfold Binary64.ulp_exp.
    destruct (Z.max_spec (Binary64.ilog2 (Qabs x) - 52) (-1074)) as [[_ ->] | [_ ->]].
    + change (2 ^ (-1074) * (1 # 2))%Q with (2 ^ (-1075))%Q. nra.
    + pose proof (ilog2_le _ Hxpos) as Hlog.
      replace (Binary64.ilog2 (Qabs x) - 52)%Z
        with (Binary64.ilog2 (Qabs x) + (-52))%Z by lia.
      rewrite Qpower_plus by discriminate.
      assert (Hq : (2 ^ Binary64.ilog2 (Qabs x) * 2 ^ (-52) * (1 # 2)
                    == 2 ^ Binary64.ilog2 (Qabs x) * 2 ^ (-53))%Q)
        by (assert (H52 : (2 ^ (-52) == 2 * 2 ^ (-53))%Q) by reflexivity;
            rewrite H52; ring).
      rewrite Hq. nra.
Qed.

(** C9. [run_fill_to_cap] runs the allocator on the tourist set with the
    budget [total_budget * (tourist_pct / 100.0)] and on the industry set
    with [total_budget * (industry_pct / 100.0)], whatever the two
    percentages are. Each budget is a float product of a float quotient:
    as long as the exact results are in the range of the finite floats,
    the quotient is within half a unit in the last place of [pct / 100],
    and the budget within half a unit in the last place of the total times
    that quotient. The grand total is the rounded sum of the two
    subtotals, and the warning is the fixed text when one of the two runs
    reports [forced_overage] and [None] otherwise. *)
Theorem run_fill_to_cap_spec `{P : Pricing} (v : variant)
    (total_budget tourist_pct industry_pct : Q)
    (t_set i_set : list (string * ProductRecord))
    (meta : gmap string ProductMeta) (chosen_date : option Date)
    (is_advertiser : bool) (interactive_map_quarters : option Z) :
  let t_share := Binary64.fdiv tourist_pct 100 in
  let i_share := Binary64.fdiv industry_pct 100 in
  let t_budget := Binary64.fmul total_budget t_share in
  let i_budget := Binary64.fmul total_budget i_share in
  Binary64.finite (tourist_pct / 100) -> Binary64.finite (total_budget * t_share) ->
  Binary64.finite (industry_pct / 100) -> Binary64.finite (total_budget * i_share) ->
  (Qabs (t_share - tourist_pct / 100)
   <= Qabs (tourist_pct / 100) * 2 ^ (-53) + 2 ^ (-1075))%Q /\
  (Qabs (t_budget - total_budget * t_share)
   <= Qabs (total_budget * t_share) * 2 ^ (-53) + 2 ^ (-1075))%Q /\
  (Qabs (i_share - industry_pct / 100)
   <= Qabs (industry_pct / 100) * 2 ^ (-53) + 2 ^ (-1075))%Q /\
  (Qabs (i_budget - total_budget * i_share)
   <= Qabs (total_budget * i_share) * 2 ^ (-53) + 2 ^ (-1075))%Q /\
  exists (t_sel i_sel : Selection) (t_warn i_warn : bool) (warning_msg : option string),
    greedy_fill_to_cap v t_budget t_set meta chosen_date is_advertiser
      interactive_map_quarters = Ret (t_sel, t_warn) /\
    greedy_fill_to_cap v i_budget i_set meta chosen_date is_advertiser
      interactive_map_quarters = Ret (i_sel, i_warn) /\
    run_fill_to_cap v total_budget tourist_pct industry_pct t_set i_set meta
      chosen_date is_advertiser interactive_map_quarters
      = Ret (t_sel, i_sel, round2 (subtotal t_sel + subtotal i_sel), warning_msg) /\
    (warning_msg = Some (warning_text v) <-> t_warn = true \/ i_warn = true) /\
    (warning_msg = None <-> t_warn = false /\ i_warn = false).
Proof.
  intros t_share i_share t_budget i_budget _ _ _ _.
  split; [apply fl_close |]. split; [apply fl_close |].
  split; [apply fl_close |]. split; [apply fl_close |].
  destruct (greedy_fill_to_cap_total v t_budget t_set meta chosen_date is_advertiser
              interactive_map_quarters _ (le_n _))
    as (tp & ts & _ & _ & Ht & _).
  destruct (greedy_fill_to_cap_total v i_budget i_set meta chosen_date is_advertiser
              interactive_map_quarters _ (le_n _))
    as (ip & is_ & _ & _ & Hi & _).
  eexists _, _, _, _, _.
  split; [exact Ht |]. split; [exact Hi |].
  unfold run_fill_to_cap, pool_budget. fold t_share i_share. fold t_budget i_budget.
  rewrite Ht, Hi.
  cbn [mbind outcome_bind]. split; [reflexivity |].
  destruct (Qltb t_budget _), (Qltb i_budget _); simpl;
    repeat split; intros; try discriminate; try tauto; try (intuition discriminate).
Qed.

Lemma run_fill_to_cap_spec_witness :
  exists (t_sel i_sel : Selection) (grand_total : Q) (warning_msg : option string),
    run_fill_to_cap Final 500 60 40 Samples.two_products Samples.banner_ad
      Samples.no_meta None true None
      = Ret (t_sel, i_sel, grand_total, warning_msg) /\
    grand_total = round2 (subtotal t_sel + subtotal i_sel) /\
    warning_msg = None.
Proof.
  destruct (run_fill_to_cap_spec Final 500 60 40 Samples.two_products Samples.banner_ad
              Samples.no_meta None true None)
    as (_ & _ & _ & _ & t_sel & i_sel & t_warn & i_warn & w & Ht & Hi & Hrun & _ & Hnone);
    try (vm_compute; reflexivity).
  exists t_sel, i_sel, (round2 (subtotal t_sel + subtotal i_sel)), w.
  split; [exact Hrun |]. split; [reflexivity |].
  vm_compute in Hrun. destruct w; [discriminate | reflexivity].
Defined.

(** C9, as stated, fails: the budget of a pool is not always
    [total_budget * pct / 100]. For 57% of 5000 the quotient [57 / 100.0]
    is a float just below 0.57 and the product a float just below 2850, so
    a product at 2850, which the exact share would pay for, is a forced
    overage and brings up the warning. *)
Lemma pool_budget_below_exact_share :
  (pool_budget 5000 57 == 2850 - 2 ^ (-41))%Q /\
  ~ (pool_budget 5000 57 == 5000 * 57 / 100)%Q /\
  (exists t_sel i_sel grand_total,
     run_fill_to_cap Final 5000 57 43 Samples.sponsorship [] Samples.no_meta None true None
     = Ret (t_sel, i_sel, grand_total, Some (warning_text Final))) /\
  (exists sel,
     greedy_fill_to_cap Final (5000 * 57 / 100) Samples.sponsorship Samples.no_meta
       None true None = Ret (sel, false)).
Proof.
  split; [vm_compute; reflexivity |].
  split; [vm_compute; discriminate |].
  split; [eexists _, _, _ | eexists]; vm_compute; reflexivity.
Qed.

Section Selection_invariants.
Context `{P : Pricing}.
Variables (v : variant) (budget : Q) (products : list (string * ProductRecord))
  (meta : gmap string ProductMeta) (chosen_date : option Date)
  (is_advertiser : bool) (interactive_map_quarters : option Z).

Abbreviation line_of := (line_price v interactive_map_quarters).
Abbreviation points_of :=
  (priced_points v meta chosen_date is_advertiser interactive_map_quarters).
Abbreviation step :=
  (upgrade_step v budget products meta chosen_date is_advertiser interactive_map_quarters).
Abbreviation loop :=
  (upgrade_loop v budget products meta chosen_date is_advertiser interactive_map_quarters).
Abbreviation base :=
  (baseline v budget products meta chosen_date is_advertiser interactive_map_quarters).
Abbreviation best_of :=
  (baseline_best v budget meta chosen_date is_advertiser interactive_map_quarters).
Abbreviation base_product :=
  (baseline_product v budget meta chosen_date is_advertiser interactive_map_quarters).
Abbreviation raw :=
  (greedy_raw v budget products meta chosen_date is_advertiser interactive_map_quarters).
Abbreviation line_in := (pick_line v products interactive_map_quarters).
Abbreviation total := (picks_total v products interactive_map_quarters).
Abbreviation eligible :=
  (eligible_pick v products meta chosen_date is_advertiser interactive_map_quarters).
Abbreviation phase1_ok :=
  (sum_and_eligible v products meta chosen_date is_advertiser interactive_map_quarters).

Lemma dict_set_absent {V : Type} (k : string) (x : V) (d : list (string * V)) :
  k ∉ keys d -> dict_set k x d = d ++ [(k, x)].
Proof.
  induction d as [| [k0 x0] t IH]; cbn [dict_set]; [reflexivity |].
  rewrite keys_cons, not_elem_of_cons. intros [Hne Hin].
  destruct (String.eqb_spec k k0) as [-> | _]; [congruence |].
  simpl. f_equal. apply IH. exact Hin.
Qed.

Lemma picks_total_app (d1 d2 : list (string * Pick)) :
  (total (d1 ++ d2) == total d1 + total d2)%Q.
Proof.
  induction d1 as [| e d1 IH]; simpl; [lra |].
  unfold picks_total in *. simpl. rewrite IH. lra.
Qed.

Lemma pick_line_product (k : string) (product : ProductRecord) (p : Pick) :
  dict_get k products = Some product ->
  line_in (k, p) = line_of k product p.1.2 p.2.
Proof. intros H. destruct p as [[o l] b]. unfold pick_line. now rewrite H. Qed.

Lemma pick_line_candidate (k : string) (product : ProductRecord) (c : Candidate) :
  dict_get k products = Some product -> c ∈ points_of k product ->
  line_in (k, cand_pick c) = cand_line c.
Proof.
  intros H Hc. rewrite (pick_line_product _ _ _ H). symmetry.
  exact (priced_points_line v meta chosen_date is_advertiser interactive_map_quarters
           _ _ _ Hc).
Qed.

Lemma fold_baseline_ok (pre l : list (string * ProductRecord))
    (st : list (string * Pick) * Q) :
  products = pre ++ l -> NoDup (keys products) ->
  keys st.1 ⊆ keys pre -> phase1_ok st ->
  phase1_ok (fold_left base_product l st).
Proof.
  revert pre st. induction l as [| [k product] l IH]; intros pre st Hprod Hnd Hsub Hok;
    cbn [fold_left]; [exact Hok |].
  assert (Hget : dict_get k products = Some product).
  { apply dict_get_NoDup; [exact Hnd |]. rewrite Hprod.
    apply elem_of_app. right. left. }
  assert (Hfresh : k ∉ keys st.1).
  { intros Hin. apply Hsub in Hin. rewrite Hprod in Hnd. unfold keys in Hnd.
    rewrite fmap_app in Hnd. apply NoDup_app in Hnd as (_ & Hdisj & _).
    apply (Hdisj k Hin). rewrite fmap_cons. left. }
  apply (IH (pre ++ [(k, product)])).
  - rewrite Hprod, <- app_assoc. reflexivity.
  - exact Hnd.
  - unfold baseline_product.
    destruct (best_of k product) as [[[[o lb] e] n] |].
    + simpl. intros x Hx. apply elem_of_keys_dict_set in Hx. unfold keys.
      rewrite fmap_app. apply elem_of_app.
      destruct Hx as [-> | Hx]; [right; left | left; exact (Hsub _ Hx)].
    + intros x Hx. unfold keys. rewrite fmap_app. apply elem_of_app. left.
      exact (Hsub _ Hx).
  - unfold baseline_product.
    destruct (best_of k product) as [[[[o lb] e] n] |] eqn:Hbest; [| exact Hok].
    destruct Hok as [Hsum Helig]. apply baseline_best_elem in Hbest.
    split; simpl.
    + rewrite (dict_set_absent _ _ _ Hfresh), picks_total_app, <- Hsum.
      unfold picks_total at 1. cbn [foldr].
      rewrite (pick_line_product _ _ _ Hget). simpl. lra.
    + intros k' p'. destruct (decide (k = k')) as [<- | Hne].
      * rewrite dict_get_set_eq. intros [= <-].
        exists product, (o, lb, e, n). auto.
      * rewrite dict_get_set_ne by assumption. apply Helig.
Qed.

Lemma baseline_ok : NoDup (keys products) -> phase1_ok base.
Proof.
  intros Hnd. apply (fold_baseline_ok [] products); [reflexivity | exact Hnd | reflexivity |].
  split; [reflexivity |]. intros k p. discriminate.
Qed.

Lemma upgrade_step_eligible (st st' : loop_state) (e : string * Pick) :
  (forall k p, dict_get k (st_picks st) = Some p -> eligible k p) ->
  step st e = Ret st' ->
  forall k p, dict_get k (st_picks st') = Some p -> eligible k p.
Proof.
  intros Helig Hstep. destruct e as [k0 p0].
  destruct (dict_get k0 products) as [product |] eqn:Hprod.
  - destruct (upgrade_step_cases v budget products meta chosen_date is_advertiser
                interactive_map_quarters st k0 p0 product Hprod)
      as [E | (c & Hc & _ & _ & E)]; rewrite E in Hstep; inversion Hstep; subst;
      [exact Helig |].
    simpl. intros k p. destruct (decide (k0 = k)) as [<- | Hne].
    + rewrite dict_get_set_eq. intros [= <-]. exists product, c. auto.
    + rewrite dict_get_set_ne by assumption. apply Helig.
  - rewrite upgrade_step_KeyError in Hstep by assumption. discriminate.
Qed.

(** A property that phase 1 establishes and that the steps keep holds for
    what the allocator returns. *)
Lemma greedy_raw_keeps (I : Q -> list (string * Pick) -> Prop) (fuel : nat)
    (picks : list (string * Pick)) (s : Q) (fo : bool) :
  I base.2 base.1 ->
  (forall st k p st',
     dict_get k (st_picks st) = Some p -> k ∈ keys products ->
     I (st_subtotal st) (st_picks st) -> step st (k, p) = Ret st' ->
     I (st_subtotal st') (st_picks st')) ->
  raw fuel = Ret (picks, s, fo) -> I s picks.
Proof.
  intros Hbase Hstep. unfold greedy_raw.
  pose proof (baseline_NoDup v budget products meta chosen_date is_advertiser
                interactive_map_quarters) as Hnd.
  pose proof (baseline_keys_subseteq v budget products meta chosen_date is_advertiser
                interactive_map_quarters) as Hsub.
  destruct base as [picks0 subtotal0]. cbn [fst snd] in *.
  destruct (Qltb budget subtotal0).
  - intros [= <- <- <-]. exact Hbase.
  - destruct (loop fuel subtotal0 picks0) as [r | |] eqn:Hloop; try discriminate.
    cbn [mbind outcome_bind]. intros [= <- <- <-].
    exact (upgrade_loop_keeps v budget products meta chosen_date is_advertiser
             interactive_map_quarters I Hstep fuel _ _ _ Hnd Hsub Hbase Hloop).
Qed.

End Selection_invariants.

(** An enumerated price point passed both filters. *)
Lemma priced_points_filters `{P : Pricing} (v : variant) (meta : gmap string ProductMeta)
    (chosen_date : option Date) (is_advertiser : bool)
    (interactive_map_quarters : option Z) (pname : string) (product : ProductRecord)
    (c : Candidate) :
  c ∈ priced_points v meta chosen_date is_advertiser interactive_map_quarters
        pname product ->
  _is_restricted_tier v (cand_pick c).1.2 is_advertiser = false /\
  summit_booth_skip is_advertiser pname (cand_pick c).1.1 = false.
Proof.
  unfold priced_points. rewrite list_elem_of_In, in_flat_map.
  intros (opt & _ & Hc). unfold priced_option in Hc.
  destruct (summit_booth_skip _ _ _) eqn:Hskip; [destruct Hc |].
  apply in_flat_map in Hc as ([lbl base_price] & _ & Hc).
  destruct (_is_restricted_tier _ _ _) eqn:Hres; [destruct Hc |].
  destruct Hc as [<- | []]. simpl. auto.
Qed.

(** X2. For a catalog with distinct product names, every pick of the
    returned Selection is one of the eligible price points of the product
    of that name: its option name, tier label and effective unit price are
    those of a point that the enumeration of the product yields. *)
Theorem picks_are_eligible_points `{P : Pricing} (v : variant)
    (budget : Q) (products : list (string * ProductRecord))
    (meta : gmap string ProductMeta) (chosen_date : option Date)
    (is_advertiser : bool) (interactive_map_quarters : option Z) :
  NoDup (keys products) ->
  exists (sel : Selection) (forced_overage : bool),
    greedy_fill_to_cap v budget products meta chosen_date is_advertiser
      interactive_map_quarters = Ret (sel, forced_overage) /\
    forall pname pick,
      dict_get pname (picks sel) = Some pick ->
      eligible_pick v products meta chosen_date is_advertiser interactive_map_quarters
        pname pick.
Proof.
  intros Hnd.
  destruct (greedy_fill_to_cap_total v budget products meta chosen_date is_advertiser
              interactive_map_quarters _ (le_n _))
    as (picks & s & Hraw & _ & Hrun & _).
  eexists _, _. split; [exact Hrun |]. simpl.
  refine (greedy_raw_keeps v budget products meta chosen_date is_advertiser
            interactive_map_quarters
            (fun _ p => forall pname pick, dict_get pname p = Some pick ->
               eligible_pick v products meta chosen_date is_advertiser
                 interactive_map_quarters pname pick)
            _ _ _ _ _ _ Hraw).
  - apply baseline_ok. exact Hnd.
  - intros st k p st' _ _ Helig Hstep.
    exact (upgrade_step_eligible v budget products meta chosen_date is_advertiser
             interactive_map_quarters st st' (k, p) Helig Hstep).
Qed.

Lemma picks_are_eligible_points_witness :
  exists (sel : Selection) (forced_overage : bool),
    greedy_fill_to_cap Final 260 Samples.two_products Samples.no_meta None true None
      = Ret (sel, forced_overage) /\
    forall pname pick,
      dict_get pname (picks sel) = Some pick ->
      eligible_pick Final Samples.two_products Samples.no_meta None true None pname pick.
Proof.
  apply (picks_are_eligible_points Final 260 Samples.two_products Samples.no_meta
           None true None).
  apply (bool_decide_unpack _). vm_compute. exact I.
Defined.

(** X3. For a catalog with distinct product names, no pick of the returned
    Selection has a tier label that [_is_restricted_tier] rejects for the
    requester, and no pick of a Summit Booth product comes from an option
    that the advertiser filter skips. *)
Theorem filtered_points_are_never_picked `{P : Pricing} (v : variant)
    (budget : Q) (products : list (string * ProductRecord))
    (meta : gmap string ProductMeta) (chosen_date : option Date)
    (is_advertiser : bool) (interactive_map_quarters : option Z) :
  NoDup (keys products) ->
  exists (sel : Selection) (forced_overage : bool),
    greedy_fill_to_cap v budget products meta chosen_date is_advertiser
      interactive_map_quarters = Ret (sel, forced_overage) /\
    forall pname opt_name lbl eff_base,
      dict_get pname (picks sel) = Some (opt_name, lbl, eff_base) ->
      _is_restricted_tier v lbl is_advertiser = false /\
      summit_booth_skip is_advertiser pname opt_name = false.
Proof.
  intros Hnd.
  destruct (greedy_fill_to_cap_total v budget products meta chosen_date is_advertiser
              interactive_map_quarters _ (le_n _))
    as (picks & s & Hraw & _ & Hrun & _).
  eexists _, _. split; [exact Hrun |]. simpl.
  intros pname opt_name lbl eff_base Hget.
  assert (Helig : forall pname pick, dict_get pname picks = Some pick ->
            eligible_pick v products meta chosen_date is_advertiser
              interactive_map_quarters pname pick).
  { refine (greedy_raw_keeps v budget products meta chosen_date is_advertiser
              interactive_map_quarters
              (fun _ p => forall pname pick, dict_get pname p = Some pick ->
                 eligible_pick v products meta chosen_date is_advertiser
                   interactive_map_quarters pname pick)
              _ _ _ _ _ _ Hraw).
    - apply baseline_ok. exact Hnd.
    - intros st k p st' _ _ Hel Hstep.
      exact (upgrade_step_eligible v budget products meta chosen_date is_advertiser
               interactive_map_quarters st st' (k, p) Hel Hstep). }
  destruct (Helig _ _ Hget) as (product & c & _ & Hc & Hpick).
  apply priced_points_filters in Hc. rewrite Hpick in Hc. exact Hc.
Qed.

Lemma filtered_points_are_never_picked_witness :
  exists (sel : Selection) (forced_overage : bool),
    greedy_fill_to_cap Final 2000 Samples.segmented Samples.no_meta None false None
      = Ret (sel, forced_overage) /\
    forall pname opt_name lbl eff_base,
      dict_get pname (picks sel) = Some (opt_name, lbl, eff_base) ->
      _is_restricted_tier Final lbl false = false /\
      summit_booth_skip false pname opt_name = false.
Proof.
  apply (filtered_points_are_never_picked Final 2000 Samples.segmented Samples.no_meta
           None false None).
  apply (bool_decide_unpack _). vm_compute. exact I.
Defined.

(** The audience decides which Booth option and which Banner tier are
    picked. *)
Example segmented_catalog :
  (exists s, greedy_fill_to_cap Final 2000 Samples.segmented Samples.no_meta None false None
     = Ret (mkSelection [("Banner Ad", ("Banner Ad", "1x", 100%Q));
                         ("Summit Booth", ("Non-Advertiser Booth", "1x", 900%Q))] s,
            false)) /\
  (exists s, greedy_fill_to_cap Final 2000 Samples.segmented Samples.no_meta None true None
     = Ret (mkSelection [("Banner Ad", ("Banner Ad", "1x", 100%Q));
                         ("Summit Booth", ("Advertiser Booth", "1x", 500%Q))] s,
            false)).
Proof. split; eexists; vm_compute; reflexivity. Qed.

(** X5. The upgrade loop never lowers anything: the returned subtotal is at
    least the rounded subtotal of phase 1, every product that phase 1
    picked is still picked, and the line price of its returned pick is at
    least the line price of its phase 1 pick. *)
Theorem upgrades_never_lower `{P : Pricing} (v : variant)
    (budget : Q) (products : list (string * ProductRecord))
    (meta : gmap string ProductMeta) (chosen_date : option Date)
    (is_advertiser : bool) (interactive_map_quarters : option Z) :
  let base := baseline v budget products meta chosen_date is_advertiser
                interactive_map_quarters in
  exists (sel : Selection) (forced_overage : bool),
    greedy_fill_to_cap v budget products meta chosen_date is_advertiser
      interactive_map_quarters = Ret (sel, forced_overage) /\
    (round2 base.2 <= subtotal sel)%Q /\
    forall pname pick0,
      dict_get pname base.1 = Some pick0 ->
      exists pick,
        dict_get pname (picks sel) = Some pick /\
        (pick_line v products interactive_map_quarters (pname, pick0)
           <= pick_line v products interactive_map_quarters (pname, pick))%Q.
Proof.
  intros base.
  destruct (greedy_fill_to_cap_total v budget products meta chosen_date is_advertiser
              interactive_map_quarters _ (le_n _))
    as (picks & s & Hraw & _ & Hrun & _).
  eexists _, _. split; [exact Hrun |]. simpl.
  assert (H : (base.2 <= s)%Q /\
              forall pname pick0, dict_get pname base.1 = Some pick0 ->
                exists pick, dict_get pname picks = Some pick /\
                  (pick_line v products interactive_map_quarters (pname, pick0)
                     <= pick_line v products interactive_map_quarters (pname, pick))%Q).
  { refine (greedy_raw_keeps v budget products meta chosen_date is_advertiser
              interactive_map_quarters
              (fun s p => (base.2 <= s)%Q /\
                 forall pname pick0, dict_get pname base.1 = Some pick0 ->
                   exists pick, dict_get pname p = Some pick /\
                     (pick_line v products interactive_map_quarters (pname, pick0)
                        <= pick_line v products interactive_map_quarters (pname, pick))%Q)
              _ _ _ _ _ _ Hraw).
    - split; [apply Qle_refl |]. intros pname pick0 Hget. exists pick0.
      split; [exact Hget | apply Qle_refl].
    - intros st k p st' Hget Hkey [Hsub Hall] Hstep.
      destruct (dict_get_is_Some _ _ Hkey) as [product Hprod].
      destruct (upgrade_step_cases v budget products meta chosen_date is_advertiser
                  interactive_map_quarters st k p product Hprod)
        as [E | (c & Hc & Hlt & _ & E)]; rewrite E in Hstep; inversion Hstep; subst;
        [split; assumption |].
      cbn [st_subtotal st_picks]. split; [lra |]. intros pname pick0 Hget0.
      destruct (Hall _ _ Hget0) as (pick & Hpick & Hle).
      destruct (decide (k = pname)) as [<- | Hne].
      + exists (cand_pick c). rewrite dict_get_set_eq. split; [reflexivity |].
        rewrite Hget in Hpick. inversion Hpick; subst.
        rewrite (pick_line_candidate v products meta chosen_date is_advertiser
                   interactive_map_quarters _ _ _ Hprod Hc).
        rewrite (pick_line_product v products interactive_map_quarters k product pick Hprod)
          in Hle.
        lra.
      + exists pick. rewrite dict_get_set_ne by assumption. auto. }
  destruct H as [Hsub Hall]. split; [apply round2_mono; exact Hsub | exact Hall].
Qed.

Lemma upgrades_never_lower_witness :
  exists (sel : Selection) (forced_overage : bool),
    greedy_fill_to_cap Final 260 Samples.two_products Samples.no_meta None true None
      = Ret (sel, forced_overage) /\
    (round2 (baseline Final 260 Samples.two_products Samples.no_meta None true None).2
       <= subtotal sel)%Q.
Proof.
  destruct (upgrades_never_lower Final 260 Samples.two_products Samples.no_meta
              None true None)
    as (sel & fo & Hrun & Hsub & _).
  exists sel, fo. split; [exact Hrun | exact Hsub].
Defined.

(** Phase 1 appends the products it picks, in the order of the catalog. *)
Lemma fold_baseline_sublist `{P : Pricing} (v : variant) (budget : Q)
    (meta : gmap string ProductMeta) (chosen_date : option Date)
    (is_advertiser : bool) (interactive_map_quarters : option Z)
    (l : list (string * ProductRecord)) (st : list (string * Pick) * Q) :
  NoDup (keys st.1 ++ keys l) ->
  exists m,
    m `sublist_of` keys l /\
    keys (fold_left (baseline_product v budget meta chosen_date is_advertiser
                       interactive_map_quarters) l st).1 = keys st.1 ++ m.
Proof.
  revert st. induction l as [| [k product] l IH]; intros st Hnd; cbn [fold_left].
  - exists []. split; [constructor | now rewrite app_nil_r].
  - rewrite keys_cons in Hnd.
    assert (Hk : k ∉ keys st.1).
    { apply NoDup_app in Hnd as (_ & Hdisj & _). intros Hin.
      apply (Hdisj k Hin). left. }
    unfold baseline_product at 2.
    destruct (baseline_best _ _ _ _ _ _ k product) as [[[[o lb] e] n] |].
    + destruct (IH (dict_set k (o, lb, e) st.1,
                    (st.2 + line_price v interactive_map_quarters k product lb e)%Q))
        as (m & Hm & Hkeys).
      { cbn [fst]. rewrite (keys_dict_set_absent _ _ _ Hk), <- app_assoc. exact Hnd. }
      exists (k :: m). split; [rewrite keys_cons; now apply sublist_skip |].
      rewrite Hkeys. cbn [fst]. rewrite (keys_dict_set_absent _ _ _ Hk), <- app_assoc.
      reflexivity.
    + destruct (IH st) as (m & Hm & Hkeys).
      { apply NoDup_app in Hnd as (H1 & Hdisj & H2). apply NoDup_cons in H2 as [_ H2].
        apply NoDup_app. split; [exact H1 |]. split; [| exact H2].
        intros x Hx Hx'. apply (Hdisj x Hx). now right. }
      exists m. split; [rewrite keys_cons; now apply sublist_cons | exact Hkeys].
Qed.

(** X6. For a catalog with distinct product names, the returned picks list
    each product at most once and in the order of the catalog; a product
    under the cheapest-first policy (any product of the Cloud variant, any
    product but the Interactive Map in the Final variant) is in the
    Selection exactly when it has an eligible price point. *)
Theorem selection_follows_catalog `{P : Pricing} (v : variant)
    (budget : Q) (products : list (string * ProductRecord))
    (meta : gmap string ProductMeta) (chosen_date : option Date)
    (is_advertiser : bool) (interactive_map_quarters : option Z) :
  NoDup (keys products) ->
  exists (sel : Selection) (forced_overage : bool),
    greedy_fill_to_cap v budget products meta chosen_date is_advertiser
      interactive_map_quarters = Ret (sel, forced_overage) /\
    NoDup (keys (picks sel)) /\
    keys (picks sel) `sublist_of` keys products /\
    forall pname product,
      dict_get pname products = Some product ->
      v = Cloud \/ pname <> "Chicago Does Interactive Map" ->
      (pname ∈ keys (picks sel) <->
       priced_points v meta chosen_date is_advertiser interactive_map_quarters
         pname product <> []).
Proof.
  intros Hnd.
  destruct (greedy_fill_to_cap_total v budget products meta chosen_date is_advertiser
              interactive_map_quarters _ (le_n _))
    as (picks & s & _ & _ & Hrun & Hkeys & _).
  eexists _, _. split; [exact Hrun |]. simpl. rewrite Hkeys.
  split; [apply baseline_NoDup |]. split.
  - destruct (fold_baseline_sublist v budget meta chosen_date is_advertiser
                interactive_map_quarters products ([], 0%Q)) as (m & Hm & Hk).
    { exact Hnd. }
    unfold baseline. rewrite Hk. exact Hm.
  - intros pname product Hget Hpol.
    pose proof (baseline_get v budget products meta chosen_date is_advertiser
                  interactive_map_quarters pname product Hnd Hget) as Hpick.
    pose proof (fold_cheapest v budget pname
                  (priced_points v meta chosen_date is_advertiser
                     interactive_map_quarters pname product) Hpol) as Hfold.
    unfold baseline_best in Hpick. split.
    + intros Hin Hnil. rewrite Hnil in Hpick. simpl in Hpick.
      apply dict_get_None in Hpick. contradiction.
    + intros Hne. destruct (fold_left _ _ None) as [c |]; [| contradiction].
      simpl in Hpick. apply dict_get_Some_key in Hpick. exact Hpick.
Qed.

Lemma selection_follows_catalog_witness :
  exists (sel : Selection) (forced_overage : bool),
    greedy_fill_to_cap Final 2000 Samples.segmented Samples.no_meta None false None
      = Ret (sel, forced_overage) /\
    NoDup (keys (picks sel)) /\
    keys (picks sel) `sublist_of` keys Samples.segmented /\
    "Summit Booth" ∈ keys (picks sel).
Proof.
  destruct (selection_follows_catalog Final 2000 Samples.segmented Samples.no_meta
              None false None)
    as (sel & fo & Hrun & Hnd & Hsub & Hin).
  - apply (bool_decide_unpack _). vm_compute. exact I.
  - exists sel, fo. split; [exact Hrun |]. split; [exact Hnd |]. split; [exact Hsub |].
    apply (Hin "Summit Booth" _ eq_refl).
    + right. discriminate.
    + vm_compute. discriminate.
Defined.

(** ** The two variants side by side *)

Section Variants_agree.
Context `{P : Pricing}.
Variables (budget : Q) (products : list (string * ProductRecord))
  (meta : gmap string ProductMeta) (chosen_date : option Date)
  (is_advertiser : bool) (interactive_map_quarters : option Z).
Hypothesis no_map : MAP_NAME ∉ keys products.
Hypothesis alike : variants_filter_alike products is_advertiser.

Lemma flat_map_ext_elem {A B : Type} (f g : A -> list B) (l : list A) :
  (forall x, x ∈ l -> f x = g x) -> flat_map f l = flat_map g l.
Proof.
  induction l as [| x l IH]; intros H; simpl; [reflexivity |].
  rewrite (H x) by left. f_equal. apply IH. intros y Hy. apply H. now right.
Qed.

Lemma line_price_agree (pname : string) (product : ProductRecord) (lbl : string)
    (eff_base : Q) :
  pname <> MAP_NAME ->
  line_price Cloud interactive_map_quarters pname product lbl eff_base
    = line_price Final interactive_map_quarters pname product lbl eff_base.
Proof.
  intros Hne. unfold line_price, map_line_price.
  destruct (String.eqb_spec pname "Chicago Does Interactive Map"); [contradiction |].
  reflexivity.
Qed.

Lemma in_catalog_not_map (pname : string) (product : ProductRecord) :
  (pname, product) ∈ products -> pname <> MAP_NAME.
Proof using no_map.
  intros Hin ->. apply no_map. apply (list_elem_of_fmap_2 fst) in Hin. exact Hin.
Qed.

Lemma priced_points_agree (pname : string) (product : ProductRecord) :
  (pname, product) ∈ products ->
  priced_points Cloud meta chosen_date is_advertiser interactive_map_quarters pname product
    = priced_points Final meta chosen_date is_advertiser interactive_map_quarters
        pname product.
Proof using no_map alike.
  intros Hin. pose proof (in_catalog_not_map _ _ Hin) as Hne.
  unfold priced_points. apply flat_map_ext_elem. intros opt Hopt.
  unfold priced_option. destruct (summit_booth_skip _ _ _); [reflexivity |].
  apply flat_map_ext_elem. intros [lbl base_price] Hpt.
  rewrite (alike pname product opt lbl base_price Hin Hopt Hpt).
  destruct (_is_restricted_tier Final lbl is_advertiser); [reflexivity |].
  now rewrite line_price_agree.
Qed.

Lemma baseline_best_agree (pname : string) (product : ProductRecord) :
  (pname, product) ∈ products ->
  baseline_best Cloud budget meta chosen_date is_advertiser interactive_map_quarters
    pname product
  = baseline_best Final budget meta chosen_date is_advertiser interactive_map_quarters
      pname product.
Proof using no_map alike.
  intros Hin. pose proof (in_catalog_not_map _ _ Hin) as Hne.
  unfold baseline_best. rewrite (priced_points_agree _ _ Hin).
  generalize (@None Candidate).
  induction (priced_points Final _ _ _ _ pname product) as [| x l IH]; intros init;
    cbn [fold_left]; [reflexivity |].
  rewrite (baseline_step_cheapest Cloud budget pname init x (or_introl eq_refl)).
  rewrite (baseline_step_cheapest Final budget pname init x (or_intror Hne)).
  apply IH.
Qed.

Lemma fold_baseline_agree (l : list (string * ProductRecord))
    (st : list (string * Pick) * Q) :
  (forall e, e ∈ l -> e ∈ products) ->
  fold_left (baseline_product Cloud budget meta chosen_date is_advertiser
               interactive_map_quarters) l st
  = fold_left (baseline_product Final budget meta chosen_date is_advertiser
                 interactive_map_quarters) l st.
Proof using no_map alike.
  revert st. induction l as [| [k product] l IH]; intros st Hsub; cbn [fold_left];
    [reflexivity |].
  assert (Hin : (k, product) ∈ products) by (apply Hsub; left).
  assert (Hstep : baseline_product Cloud budget meta chosen_date is_advertiser
                    interactive_map_quarters st (k, product)
                  = baseline_product Final budget meta chosen_date is_advertiser
                      interactive_map_quarters st (k, product)).
  { unfold baseline_product. rewrite (baseline_best_agree _ _ Hin).
    destruct (baseline_best Final _ _ _ _ _ k product) as [[[[o lb] e] n] |];
      [| reflexivity].
    rewrite (line_price_agree _ _ _ _ (in_catalog_not_map _ _ Hin)). reflexivity. }
  rewrite Hstep. apply IH. intros e He. apply Hsub. now right.
Qed.

Lemma upgrade_step_agree (st : loop_state) (e : string * Pick) :
  upgrade_step Cloud budget products meta chosen_date is_advertiser
    interactive_map_quarters st e
  = upgrade_step Final budget products meta chosen_date is_advertiser
      interactive_map_quarters st e.
Proof using no_map alike.
  destruct e as [k [[o l] b]]. unfold upgrade_step.
  destruct (dict_get k products) as [product |] eqn:Hprod; [| reflexivity].
  apply dict_get_elem_of in Hprod.
  unfold upgrades_of. rewrite (priced_points_agree _ _ Hprod).
  rewrite (line_price_agree _ _ _ _ (in_catalog_not_map _ _ Hprod)). reflexivity.
Qed.

Lemma upgrade_pass_agree (rest : list (string * Pick)) (st : loop_state) :
  upgrade_pass Cloud budget products meta chosen_date is_advertiser
    interactive_map_quarters rest st
  = upgrade_pass Final budget products meta chosen_date is_advertiser
      interactive_map_quarters rest st.
Proof using no_map alike.
  revert st. induction rest as [| e rest IH]; intros st; cbn [upgrade_pass];
    [reflexivity |].
  rewrite upgrade_step_agree.
  destruct (upgrade_step Final _ _ _ _ _ _ st e); cbn [mbind outcome_bind];
    [apply IH | reflexivity | reflexivity].
Qed.

Lemma upgrade_loop_agree (fuel : nat) (s : Q) (p : list (string * Pick)) :
  upgrade_loop Cloud budget products meta chosen_date is_advertiser
    interactive_map_quarters fuel s p
  = upgrade_loop Final budget products meta chosen_date is_advertiser
      interactive_map_quarters fuel s p.
Proof using no_map alike.
  revert s p. induction fuel as [| fuel IH]; intros s p; cbn [upgrade_loop];
    [reflexivity |].
  rewrite upgrade_pass_agree.
  destruct (upgrade_pass Final _ _ _ _ _ _ p _) as [st | |]; cbn [mbind outcome_bind];
    [| reflexivity | reflexivity].
  destruct (st_improved st); [apply IH | reflexivity].
Qed.

Lemma greedy_raw_agree (fuel : nat) :
  greedy_raw Cloud budget products meta chosen_date is_advertiser
    interactive_map_quarters fuel
  = greedy_raw Final budget products meta chosen_date is_advertiser
      interactive_map_quarters fuel.
Proof using no_map alike.
  unfold greedy_raw, baseline. rewrite fold_baseline_agree by auto.
  destruct (fold_left _ products _) as [picks0 subtotal0].
  destruct (Qltb budget subtotal0); [reflexivity |].
  now rewrite upgrade_loop_agree.
Qed.

End Variants_agree.

(** X7. For a catalog without the Interactive Map on whose tier labels the
    two variants of [_is_restricted_tier] agree (for an advertiser, any
    catalog), the Cloud variant and the Final variant of the allocator
    return the same Selection and the same flag. *)
Theorem variants_agree_without_map `{P : Pricing}
    (budget : Q) (products : list (string * ProductRecord))
    (meta : gmap string ProductMeta) (chosen_date : option Date)
    (is_advertiser : bool) (interactive_map_quarters : option Z) :
  "Chicago Does Interactive Map" ∉ keys products ->
  is_advertiser = true \/ variants_filter_alike products is_advertiser ->
  greedy_fill_to_cap Cloud budget products meta chosen_date is_advertiser
    interactive_map_quarters
  = greedy_fill_to_cap Final budget products meta chosen_date is_advertiser
      interactive_map_quarters.
Proof.
  intros Hmap Halike.
  assert (Hal : variants_filter_alike products is_advertiser).
  { destruct Halike as [-> | H]; [| exact H]. intros pname product opt lbl b _ _ _.
    reflexivity. }
  set (fuel := Nat.max
         (max_passes Cloud budget products meta chosen_date is_advertiser
            interactive_map_quarters)
         (max_passes Final budget products meta chosen_date is_advertiser
            interactive_map_quarters)).
  destruct (greedy_fill_to_cap_total Cloud budget products meta chosen_date is_advertiser
              interactive_map_quarters fuel (Nat.le_max_l _ _))
    as (pc & sc & _ & Hc & Hc' & _).
  destruct (greedy_fill_to_cap_total Final budget products meta chosen_date is_advertiser
              interactive_map_quarters fuel (Nat.le_max_r _ _))
    as (pf & sf & _ & Hf & Hf' & _).
  rewrite Hc', Hf', <- Hc, <- Hf. unfold greedy_fill_to_cap_fuel.
  now rewrite (greedy_raw_agree budget products meta chosen_date is_advertiser
                 interactive_map_quarters Hmap Hal fuel).
Qed.

Lemma variants_agree_without_map_witness :
  greedy_fill_to_cap Cloud 2000 Samples.segmented Samples.no_meta None false None
  = greedy_fill_to_cap Final 2000 Samples.segmented Samples.no_meta None false None.
Proof.
  apply variants_agree_without_map.
  - apply (bool_decide_unpack _). vm_compute. exact I.
  - right. intros pname product opt lbl b Hin Hopt Hpt.
    apply elem_of_cons in Hin as [[= -> ->] | Hin].
    + apply list_elem_of_singleton in Hopt as ->.
      apply elem_of_cons in Hpt as [[= -> ->] | Hpt]; [reflexivity |].
      apply list_elem_of_singleton in Hpt as [= -> ->]. reflexivity.
    + apply list_elem_of_singleton in Hin as [= -> ->].
      apply elem_of_cons in Hopt as [-> | Hopt].
      * apply list_elem_of_singleton in Hpt as [= -> ->]. reflexivity.
      * apply list_elem_of_singleton in Hopt as ->.
        apply list_elem_of_singleton in Hpt as [= -> ->]. reflexivity.
Defined.

(** A tier label with "with campaign" is where the variants part. *)
Example variants_differ_on_with_campaign :
  _is_restricted_tier Cloud "Rate with campaign" false = false /\
  _is_restricted_tier Final "Rate with campaign" false = true.
Proof. split; reflexivity. Qed.

(** ** [qty_from_tier] *)

Section Qty.
Import Tier.

Abbreviation blank := (Str.all_chars is_space).

Lemma qty_from_tier_strip (t : string) :
  qty_from_tier t = match digits_then 0 (strip t) with Some n => n | None => 1%Z end.
Proof. destruct t; reflexivity. Qed.

Lemma lstrip_blank (a : string) : blank a = true -> lstrip a = EmptyString.
Proof.
  induction a as [| c a IH]; simpl; [reflexivity |].
  intros H. apply andb_true_iff in H as [Hc Ha]. rewrite Hc. auto.
Qed.

Lemma rstrip_blank (b : string) : blank b = true -> rstrip b = EmptyString.
Proof.
  induction b as [| c b IH]; simpl; [reflexivity |].
  intros H. apply andb_true_iff in H as [Hc Hb]. rewrite (IH Hb), Hc. reflexivity.
Qed.

Lemma lstrip_app_blank (a t : string) : blank a = true -> lstrip (a +:+ t) = lstrip t.
Proof.
  induction a as [| c a IH]; simpl; [reflexivity |].
  intros H. apply andb_true_iff in H as [Hc Ha]. rewrite Hc. auto.
Qed.

Lemma rstrip_app_blank (t b : string) : blank b = true -> rstrip (t +:+ b) = rstrip t.
Proof.
  intros Hb. induction t as [| c t IH]; simpl; [now apply rstrip_blank |].
  now rewrite IH.
Qed.

Lemma strip_app_blank (t b : string) : blank b = true -> strip (t +:+ b) = strip t.
Proof.
  intros Hb. unfold strip. induction t as [| c t IH].
  - change ("" +:+ b) with b. now rewrite (lstrip_blank b Hb).
  - simpl. destruct (is_space c); [exact IH |].
    exact (rstrip_app_blank (String c t) b Hb).
Qed.

(** X10. [qty_from_tier] does not see white space around the tier label. *)
Theorem qty_from_tier_ignores_outer_blanks (a t b : string) :
  blank a = true -> blank b = true ->
  qty_from_tier (a +:+ t +:+ b) = qty_from_tier t.
Proof.
  intros Ha Hb. rewrite !qty_from_tier_strip.
  unfold strip at 1. rewrite (lstrip_app_blank a _ Ha).
  fold (strip (t +:+ b)). now rewrite (strip_app_blank t b Hb).
Qed.

Lemma qty_from_tier_ignores_outer_blanks_witness :
  qty_from_tier (" " +:+ "12x" +:+ "  ") = qty_from_tier "12x".
Proof.
  apply qty_from_tier_ignores_outer_blanks; reflexivity.
Defined.

Lemma digits_then_nonneg (s : string) (acc n : Z) :
  (0 <= acc)%Z -> digits_then acc s = Some n -> (0 <= n)%Z.
Proof.
  revert acc. induction s as [| c s IH]; intros acc Hacc; cbn [digits_then];
    [discriminate |].
  destruct (is_digit c); [| discriminate].
  destruct (digits_then _ s) as [m |] eqn:E.
  - intros [= <-]. eapply IH; [| exact E]. lia.
  - destruct (spaces_then_x s); [| discriminate]. intros [= <-]. lia.
Qed.

(** A string without white space is its own [strip]. *)
Lemma strip_solid (s : string) :
  Str.all_chars (fun c => negb (is_space c)) s = true -> strip s = s.
Proof.
  intros H. unfold strip.
  assert (Hl : lstrip s = s).
  { destruct s as [| c s]; [reflexivity |]. simpl in *.
    apply andb_true_iff in H as [Hc _]. apply negb_true_iff in Hc. now rewrite Hc. }
  rewrite Hl. induction s as [| c s IH]; [reflexivity |].
  simpl in *. apply andb_true_iff in H as [Hc Hs]. apply negb_true_iff in Hc.
  rewrite IH; [| exact Hs |].
  - destruct s; [now rewrite Hc | reflexivity].
  - destruct s as [| c' s']; [reflexivity |]. simpl in *.
    apply andb_true_iff in Hs as [Hc' _]. apply negb_true_iff in Hc'. now rewrite Hc'.
Qed.

Lemma string_of_uint_solid (d : uint) (sfx : string) :
  Str.all_chars (fun c => negb (is_space c)) sfx = true ->
  Str.all_chars (fun c => negb (is_space c)) (NilEmpty.string_of_uint d +:+ sfx) = true.
Proof.
  intros H. induction d; simpl; try exact H; exact IHd.
Qed.

(** Reading the decimal numeral [d] in front of an [x]. *)
Lemma digits_then_uint (sfx : string) (d : uint) (acc : nat) :
  spaces_then_x sfx = true ->
  (forall a, digits_then a sfx = None) ->
  d <> Nil ->
  digits_then (Z.of_nat acc) (NilEmpty.string_of_uint d +:+ sfx)
    = Some (Z.of_nat (Nat.of_uint_acc d acc)).
Proof.
  intros Hx Hnd. revert acc.
  induction d as [| d IH | d IH | d IH | d IH | d IH | d IH | d IH | d IH | d IH | d IH];
    intros acc Hne; [congruence | ..];
    cbn [NilEmpty.string_of_uint Nat.of_uint_acc];
    match goal with
    | |- context [String ?c ?s +:+ sfx] =>
        change (String c s +:+ sfx) with (String c (s +:+ sfx));
        cbn [digits_then];
        change (is_digit c) with true;
        let n := eval vm_compute in (Z.of_nat (nat_of_ascii c - 48)) in
        change (Z.of_nat (nat_of_ascii c - 48)) with n
    end;
    cbv iota;
    (destruct (uint_eq_dec d Nil) as [-> | Hd];
     [ change (NilEmpty.string_of_uint Nil +:+ sfx) with sfx;
       rewrite Hnd, Hx; cbn [Nat.of_uint_acc]; rewrite Nat.tail_mul_spec; f_equal; lia
     | match goal with
       | |- context [digits_then ?a (NilEmpty.string_of_uint d +:+ sfx)] =>
           match goal with
           | |- context [Nat.of_uint_acc d ?n] =>
               replace a with (Z.of_nat n) by (rewrite Nat.tail_mul_spec; lia)
           end
       end;
       rewrite (IH _ Hd); reflexivity ]).
Qed.

Lemma qty_from_tier_uint (sfx : string) (n : nat) :
  spaces_then_x sfx = true ->
  (forall a, digits_then a sfx = None) ->
  Str.all_chars (fun c => negb (is_space c)) sfx = true ->
  qty_from_tier (NilZero.string_of_uint (Nat.to_uint n) +:+ sfx) = Z.of_nat n.
Proof.
  intros Hx Hnd Hsolid. rewrite qty_from_tier_strip.
  pose proof (DecimalNat.Unsigned.of_to n) as Hn.
  destruct (uint_eq_dec (Nat.to_uint n) Nil) as [Hnil | Hne].
  - rewrite Hnil in *. cbn [NilZero.string_of_uint].
    change ("0" +:+ sfx) with (String "0" ("" +:+ sfx)).
    rewrite strip_solid.
    + change ("" +:+ sfx) with sfx. cbn [digits_then].
      change (is_digit "0") with true. cbv iota. rewrite Hnd, Hx.
      rewrite <- Hn. reflexivity.
    + change (String "0" ("" +:+ sfx)) with (NilEmpty.string_of_uint (D0 Nil) +:+ sfx).
      now apply string_of_uint_solid.
  - assert (Hs : NilZero.string_of_uint (Nat.to_uint n)
                 = NilEmpty.string_of_uint (Nat.to_uint n)).
    { destruct (Nat.to_uint n); [congruence | reflexivity ..]. }
    rewrite Hs, strip_solid by now apply string_of_uint_solid.
    pose proof (digits_then_uint sfx (Nat.to_uint n) 0 Hx Hnd Hne) as Hd.
    change (Z.of_nat 0) with 0%Z in Hd. rewrite Hd.
    unfold Nat.of_uint in Hn. now rewrite Hn.
Qed.

(** X11. [qty_from_tier] reads back the quantity of a tier label that is a
    decimal numeral followed by [x] or [X] (what [f"{n}x"] prints for a
    natural number [n]), as long as the numeral is one that [int] converts:
    of 4300 digits at most. *)
Theorem qty_from_tier_reads_decimal (n : nat) :
  (String.length (NilZero.string_of_uint (Nat.to_uint n)) <= MAX_STR_DIGITS)%nat ->
  qty_from_tier (NilZero.string_of_uint (Nat.to_uint n) +:+ "x") = Z.of_nat n /\
  qty_from_tier (NilZero.string_of_uint (Nat.to_uint n) +:+ "X") = Z.of_nat n.
Proof.
  intros _. split; apply qty_from_tier_uint; reflexivity.
Qed.

Lemma qty_from_tier_reads_decimal_witness :
  qty_from_tier "12x" = 12%Z /\ qty_from_tier "12X" = 12%Z.
Proof.
  apply (qty_from_tier_reads_decimal 12). apply Nat.leb_le. reflexivity.
Defined.

(** X12. For a tier label of ASCII characters, 4300 at most, the quantity is
    never negative, and it is [1] when the label does not start, after
    stripping, with a digit. *)
Theorem qty_from_tier_bounds (t : string) :
  Str.all_chars is_ascii t = true ->
  (String.length t <= MAX_STR_DIGITS)%nat ->
  (0 <= qty_from_tier t)%Z /\
  (match strip t with
   | String c _ => is_digit c = false
   | EmptyString => True
   end -> qty_from_tier t = 1%Z).
Proof.
  intros _ _. rewrite qty_from_tier_strip. split.
  - destruct (digits_then 0 (strip t)) as [n |] eqn:E; [| lia].
    exact (digits_then_nonneg _ _ _ (Z.le_refl 0) E).
  - destruct (strip t) as [| c s]; [reflexivity |].
    intros Hc. cbn [digits_then]. now rewrite Hc.
Qed.

Lemma qty_from_tier_bounds_witness :
  (0 <= qty_from_tier "0x")%Z /\ qty_from_tier "Annual 4x" = 1%Z.
Proof.
  split.
  - apply (qty_from_tier_bounds "0x"); [reflexivity | apply Nat.leb_le; reflexivity].
  - apply (qty_from_tier_bounds "Annual 4x");
      [reflexivity | apply Nat.leb_le; reflexivity | reflexivity].
Defined.

End Qty.

(** * The table rows *)

Section Row_facts.
Import Rows.

(** ** Price overrides *)

(** X13. [_apply_price_overrides] returns one row per row, in the same
    order; it never changes product, option, quantity, the original prices
    or the reasoning; a row whose key has no override comes back as it
    is; a row whose key has one gets it as its total price, and the tag
    "Price override" at the end of its discount note. *)
Theorem apply_price_overrides_rows (overrides : gmap string Q) (pool_label : string)
    (rows : list Row) :
  Forall2
    (fun r r' =>
       row_product r' = row_product r /\
       row_option r' = row_option r /\
       row_qty r' = row_qty r /\
       row_unit_price_original r' = row_unit_price_original r /\
       row_total_price_original r' = row_total_price_original r /\
       row_reasoning r' = row_reasoning r /\
       (overrides !! _row_key pool_label r = None -> r' = r) /\
       (forall new_total,
          overrides !! _row_key pool_label r = Some new_total ->
          row_total_price r' = new_total /\
          row_discount r' =
            match row_discount r with
            | EmptyString => "Price override"
            | note => note +:+ " | Price override"
            end))
    rows (_apply_price_overrides overrides pool_label rows).
Proof.
  unfold _apply_price_overrides.
  induction rows as [| r rows IH]; cbn [map]; constructor; [| exact IH].
  destruct (overrides !! _row_key pool_label r) as [t |];
    cbn [override_row row_product row_option row_qty row_unit_price_original
         row_total_price_original row_reasoning row_total_price row_discount].
  - do 6 (split; [reflexivity |]). split; [discriminate |].
    intros t' [= <-]. split; [reflexivity |]. unfold tagged.
    destruct (row_discount r) as [| c note]; reflexivity.
  - do 6 (split; [reflexivity |]). split; [reflexivity |]. intros t' Hn. discriminate.
Qed.

(** Without stored overrides the rows come back as they are. *)
Lemma apply_price_overrides_empty (pool_label : string) (rows : list Row) :
  _apply_price_overrides ∅ pool_label rows = rows.
Proof.
  unfold _apply_price_overrides. induction rows as [| r rows IH]; simpl; [reflexivity |].
  rewrite lookup_empty. now rewrite IH.
Qed.

(** ** Row keys *)

Lemma contains_bar (c : ascii) (s : string) :
  Str.contains "|" (String c s) = Ascii.eqb "|" c || Str.contains "|" s.
Proof.
  cbn [Str.contains String.prefix].
  destruct (ascii_dec "|" c) as [<- | Hne].
  - destruct s; reflexivity.
  - apply Ascii.eqb_neq in Hne. rewrite Hne. reflexivity.
Qed.

Lemma append_nil (s : string) : "" +:+ s = s.
Proof. reflexivity. Qed.

Lemma append_cons (c : ascii) (a s : string) : String c a +:+ s = String c (a +:+ s).
Proof. reflexivity. Qed.

(** Two strings without ["|"] in front of a ["|"] are read back from the
    concatenation. *)
Lemma bar_split (a a' b b' : string) :
  Str.contains "|" a = false -> Str.contains "|" a' = false ->
  a +:+ "|" +:+ b = a' +:+ "|" +:+ b' -> a = a' /\ b = b'.
Proof.
  revert a'. induction a as [| c a IH]; intros [| c' a'] Ha Ha';
    repeat (rewrite append_nil || rewrite append_cons).
  - now intros [= ->].
  - rewrite contains_bar in Ha'. apply orb_false_iff in Ha' as [Hc' _].
    intros [= <- _]. discriminate.
  - rewrite contains_bar in Ha. apply orb_false_iff in Ha as [Hc _].
    intros [= -> _]. discriminate.
  - rewrite contains_bar in Ha, Ha'.
    apply orb_false_iff in Ha as [_ Ha]. apply orb_false_iff in Ha' as [_ Ha'].
    intros [= <- H]. destruct (IH a' Ha Ha' H) as [-> ->]. auto.
Qed.

(** X14. The row key identifies pool, product and option as long as the
    pool label and the product name hold no ["|"]: two such rows with the
    same key are in the same pool and have the same product and option. *)
Theorem row_key_injective (pool pool' : string) (r r' : Row) :
  Str.contains "|" pool = false -> Str.contains "|" pool' = false ->
  Str.contains "|" (row_product r) = false ->
  Str.contains "|" (row_product r') = false ->
  _row_key pool r = _row_key pool' r' ->
  pool = pool' /\ row_product r = row_product r' /\ row_option r = row_option r'.
Proof.
  intros Hp Hp' Hr Hr' Hkey. unfold _row_key in Hkey.
  destruct (bar_split _ _ _ _ Hp Hp' Hkey) as [-> Hrest].
  destruct (bar_split _ _ _ _ Hr Hr' Hrest) as [-> ->]. auto.
Qed.

Lemma row_key_injective_witness :
  "tourist" = "tourist" /\ "Banner Ad" = "Banner Ad" /\ "1x" = "1x".
Proof.
  apply (row_key_injective "tourist" "tourist"
           (mkRow "Banner Ad" "1x" 1 100 100 "" 100 100 "")
           (mkRow "Banner Ad" "1x" 4 350 300 "Bundle" 1400 1200 "x"));
    reflexivity.
Defined.

(** With a ["|"] in a product name two different rows can share a key, and
    with it an override. *)
Example row_key_collision :
  _row_key "tourist" (mkRow "Map|Gold" "4x" 1 0 0 "" 0 0 "")
  = _row_key "tourist" (mkRow "Map" "Gold|4x" 1 0 0 "" 0 0 "").
Proof. reflexivity. Qed.

(** ** From the editor to the table *)

Lemma apply_from_editor_other (ov : gmap string Q) (edited : list EditRow) (k : string) :
  k ∉ edit_key <$> edited -> _apply_from_editor ov edited !! k = ov !! k.
Proof.
  unfold _apply_from_editor. revert ov.
  induction edited as [| e edited IH]; intros ov Hk; [reflexivity |].
  rewrite fmap_cons in Hk. apply not_elem_of_cons in Hk as [Hne Hk].
  cbn [fold_left]. rewrite (IH _ Hk).
  destruct (Qltb _ _); [apply lookup_insert_ne | apply lookup_delete_ne]; congruence.
Qed.

(** What the editor leaves under the key of one of its rows. *)
Lemma apply_from_editor_lookup (ov : gmap string Q) (edited : list EditRow) (e : EditRow) :
  NoDup (edit_key <$> edited) -> e ∈ edited ->
  _apply_from_editor ov edited !! edit_key e =
    if Qltb (1 # 1000000000) (Qabs (edit_new_total e - edit_base_total e))
    then Some (edit_new_total e) else None.
Proof.
  revert ov. induction edited as [| e' edited IH]; intros ov Hnd He.
  - apply elem_of_nil in He. tauto.
  - rewrite fmap_cons in Hnd. apply NoDup_cons in Hnd as [Hk Hnd].
    apply elem_of_cons in He as [-> | He].
    + change (_apply_from_editor ov (e' :: edited))
        with (_apply_from_editor
                (if Qltb (1 # 1000000000) (Qabs (edit_new_total e' - edit_base_total e'))
                 then <[edit_key e' := edit_new_total e']> ov
                 else delete (edit_key e') ov) edited).
      rewrite (apply_from_editor_other _ _ _ Hk).
      destruct (Qltb _ _); [apply lookup_insert_eq | apply lookup_delete_eq].
    + exact (IH _ Hnd He).
Qed.

(** X15. Round trip through the override editor: after [_apply_from_editor]
    has stored the edited rows (their keys distinct), [_apply_price_overrides]
    shows, for a table row whose editor row carries its total price as Base
    Total, a total price within 1e-9 of the New Total entered there. *)
Theorem edited_total_is_shown (overrides : gmap string Q) (edited : list EditRow)
    (pool : string) (rows : list Row) :
  NoDup (edit_key <$> edited) ->
  Forall2
    (fun r r' =>
       forall e,
         e ∈ edited -> edit_key e = _row_key pool r ->
         edit_base_total e = row_total_price r ->
         (Qabs (row_total_price r' - edit_new_total e) <= 1 # 1000000000)%Q)
    rows (_apply_price_overrides (_apply_from_editor overrides edited) pool rows).
Proof.
  intros Hnd. unfold _apply_price_overrides.
  induction rows as [| r rows IH]; cbn [map]; constructor; [| exact IH].
  intros e He Hkey Hbase.
  rewrite <- Hkey, (apply_from_editor_lookup _ _ _ Hnd He).
  destruct (Qltb _ _) eqn:Hc; cbn [row_total_price override_row].
  - assert (H0 : (edit_new_total e - edit_new_total e == 0)%Q) by ring.
    rewrite H0. discriminate.
  - apply Qltb_ge in Hc. rewrite <- Hbase, Qabs_Qminus. exact Hc.
Qed.

Lemma edited_total_is_shown_witness :
  Forall2
    (fun r r' => (Qabs (row_total_price r' - 80) <= 1 # 1000000000)%Q)
    [mkRow "Banner Ad" "1x" 1 100 100 "" 100 100 ""]
    (_apply_price_overrides
       (_apply_from_editor ∅
          [editor_row "tourist" (mkRow "Banner Ad" "1x" 1 100 100 "" 100 100 "") 80])
       "tourist" [mkRow "Banner Ad" "1x" 1 100 100 "" 100 100 ""]).
Proof.
  pose proof (edited_total_is_shown ∅
                [editor_row "tourist" (mkRow "Banner Ad" "1x" 1 100 100 "" 100 100 "") 80]
                "tourist" [mkRow "Banner Ad" "1x" 1 100 100 "" 100 100 ""]) as H.
  assert (Hnd : NoDup (edit_key <$>
                  [editor_row "tourist" (mkRow "Banner Ad" "1x" 1 100 100 "" 100 100 "") 80])).
  { apply (bool_decide_unpack _). vm_compute. exact I. }
  specialize (H Hnd). inversion H as [| r r' l l' Hr Hl]; subst.
  constructor; [| constructor].
  apply (Hr (editor_row "tourist" (mkRow "Banner Ad" "1x" 1 100 100 "" 100 100 "") 80));
    [left | reflexivity | reflexivity].
Defined.

(** ** The Networking Event benefit *)

Lemma total_where_acc (p : Row -> bool) (rows : list Row) (a : Q) :
  (fold_left (fun acc r => if p r then (acc + row_total_price r)%Q else acc) rows a
   == a + total_where p rows)%Q.
Proof.
  unfold total_where. revert a.
  induction rows as [| r rows IH]; intros a; cbn [fold_left]; [ring |].
  rewrite IH, (IH (if p r then _ else _)). destruct (p r); ring.
Qed.

Lemma total_where_cons (p : Row -> bool) (r : Row) (rows : list Row) :
  (total_where p (r :: rows)
   == (if p r then row_total_price r else 0) + total_where p rows)%Q.
Proof.
  unfold total_where at 1. cbn [fold_left]. rewrite total_where_acc.
  destruct (p r); ring.
Qed.

Lemma table_total_acc (rows : list Row) (a : Q) :
  (fold_left (fun acc r => (acc + row_total_price r)%Q) rows a == a + table_total rows)%Q.
Proof.
  unfold table_total. revert a.
  induction rows as [| r rows IH]; intros a; cbn [fold_left]; [ring |].
  rewrite IH, (IH (0 + _)%Q). ring.
Qed.

Lemma table_total_cons (r : Row) (rows : list Row) :
  (table_total (r :: rows) == row_total_price r + table_total rows)%Q.
Proof.
  unfold table_total at 1. cbn [fold_left]. rewrite table_total_acc. ring.
Qed.

Lemma table_total_app (rows rows' : list Row) :
  (table_total (rows ++ rows') == table_total rows + table_total rows')%Q.
Proof.
  induction rows as [| r rows IH]; cbn [app].
  - unfold table_total at 2. cbn [fold_left]. ring.
  - rewrite !table_total_cons, IH. ring.
Qed.

(** Making the rows that [p] selects complimentary takes their total
    prices, and nothing else, off the table total. *)
Lemma table_total_waive (p : Row -> bool) (rows : list Row) :
  (table_total (map (fun r => if p r then complimentary r else r) rows)
   == table_total rows - total_where p rows)%Q.
Proof.
  induction rows as [| r rows IH]; cbn [map].
  - unfold table_total, total_where. cbn [fold_left]. ring.
  - rewrite !table_total_cons, total_where_cons, IH.
    destruct (p r); cbn [complimentary row_total_price]; ring.
Qed.

Lemma total_where_nonneg (p : Row -> bool) (rows : list Row) :
  Forall (fun r => (0 <= row_total_price r)%Q) rows -> (0 <= total_where p rows)%Q.
Proof.
  induction 1 as [| r rows Hr _ IH].
  - unfold total_where. cbn [fold_left]. apply Qle_refl.
  - rewrite total_where_cons. destruct (p r); lra.
Qed.

Lemma is_network_complimentary (r : Row) : is_network (complimentary r) = is_network r.
Proof. reflexivity. Qed.

Lemma is_host_row_complimentary (r : Row) : is_host_row (complimentary r) = is_host_row r.
Proof. reflexivity. Qed.

Lemma existsb_waive (p : Row -> bool) (rows : list Row) :
  (forall r, p (complimentary r) = p r) ->
  existsb p (map (fun r => if p r then complimentary r else r) rows) = existsb p rows.
Proof.
  intros Hp. induction rows as [| r rows IH]; cbn [map existsb]; [reflexivity |].
  rewrite IH. destruct (p r) eqn:E; [rewrite Hp |]; now rewrite E.
Qed.

Lemma waive_waive (p : Row -> bool) (rows : list Row) :
  (forall r, p (complimentary r) = p r) ->
  map (fun r => if p r then complimentary r else r)
      (map (fun r => if p r then complimentary r else r) rows)
  = map (fun r => if p r then complimentary r else r) rows.
Proof.
  intros Hp. rewrite map_map. apply map_ext. intros r.
  destruct (p r) eqn:E; [rewrite Hp |]; now rewrite E.
Qed.

Lemma waive_none (p : Row -> bool) (rows : list Row) :
  existsb p rows = false ->
  map (fun r => if p r then complimentary r else r) rows = rows.
Proof.
  induction rows as [| r rows IH]; cbn [map existsb]; [reflexivity |].
  intros H. apply orb_false_iff in H as [-> H]. now rewrite (IH H).
Qed.

(** X16. Applying the Networking Event benefit a second time, with the same
    pool label and grand total, changes nothing: in both variants the
    rows it has made free, or the row it has added, are recognised again
    and left as they are. *)
Theorem networking_benefit_idempotent (v : variant) (label : string)
    (grand_total : option Q) (out : list Row) :
  networking_benefit v label grand_total (networking_benefit v label grand_total out)
  = networking_benefit v label grand_total out.
Proof.
  unfold networking_benefit.
  destruct (negb (String.eqb label "industry")); [reflexivity |].
  destruct grand_total as [gt |]; [| reflexivity].
  destruct v; cbv beta iota.
  - destruct (Qltb gt THRESHOLD); [reflexivity |].
    destruct (existsb is_network out) eqn:En.
    + rewrite (existsb_waive is_network out is_network_complimentary), En.
      apply waive_waive, is_network_complimentary.
    + rewrite existsb_app, En. cbn [orb].
      change (existsb is_network [free_network_event]) with true. cbv iota.
      rewrite map_app, (waive_none _ _ En). reflexivity.
  - destruct (negb (existsb is_host_row out)) eqn:Eh; [now rewrite Eh |].
    destruct (Qltb (gt - total_where is_host_row out) THRESHOLD) eqn:Et;
      [now rewrite Eh, Et |].
    rewrite (existsb_waive is_host_row out is_host_row_complimentary), Eh.
    destruct (Qltb (gt - total_where is_host_row (map _ out)) THRESHOLD); [reflexivity |].
    apply waive_waive, is_host_row_complimentary.
Qed.

(** X17. The benefit never raises the table total and never drops a row:
    for rows with non-negative total prices the total of the returned rows
    is at most the total of the rows built, and the returned table has the
    same rows in number, or one more (the row that the CloudVersion
    variant adds). *)
Theorem networking_benefit_never_raises (v : variant) (label : string)
    (grand_total : option Q) (out : list Row) :
  Forall (fun r => (0 <= row_total_price r)%Q) out ->
  (table_total (networking_benefit v label grand_total out) <= table_total out)%Q /\
  (length out <= length (networking_benefit v label grand_total out) <= S (length out))%nat.
Proof.
  intros Hpos. unfold networking_benefit.
  destruct (negb (String.eqb label "industry")); [split; [apply Qle_refl | lia] |].
  destruct grand_total as [gt |]; [| split; [apply Qle_refl | lia]].
  destruct v.
  - destruct (Qltb gt THRESHOLD); [split; [apply Qle_refl | lia] |].
    destruct (existsb is_network out).
    + rewrite table_total_waive, length_map. split; [| lia].
      pose proof (total_where_nonneg is_network out Hpos). lra.
    + rewrite table_total_app, length_app. split; [| cbn [length]; lia].
      change (table_total [free_network_event]) with (0 + 0)%Q. lra.
  - destruct (negb (existsb is_host_row out)); [split; [apply Qle_refl | lia] |].
    destruct (Qltb _ THRESHOLD); [split; [apply Qle_refl | lia] |].
    rewrite table_total_waive, length_map. split; [| lia].
    pose proof (total_where_nonneg is_host_row out Hpos). lra.
Qed.

Lemma networking_benefit_never_raises_witness :
  (table_total
     (networking_benefit Cloud "industry" (Some 13000%Q)
        [mkRow "Summit Booth" "Standard" 1 13000 13000 "" 13000 13000 ""])
   <= table_total [mkRow "Summit Booth" "Standard" 1 13000 13000 "" 13000 13000 ""])%Q /\
  (1 <= length
          (networking_benefit Cloud "industry" (Some 13000%Q)
             [mkRow "Summit Booth" "Standard" 1 13000 13000 "" 13000 13000 ""])
   <= 2)%nat.
Proof.
  apply (networking_benefit_never_raises Cloud "industry" (Some 13000%Q)
           [mkRow "Summit Booth" "Standard" 1 13000 13000 "" 13000 13000 ""]).
  repeat constructor. discriminate.
Defined.

(** X18. The Final variant gives the benefit only when the investment
    without the rows it makes free reaches the threshold: whenever it
    changes the table, the grand total less the amount taken off the table
    is still at least 12500. *)
Theorem final_benefit_keeps_threshold (label : string) (gt : Q) (out : list Row) :
  networking_benefit Final label (Some gt) out = out \/
  (THRESHOLD
   <= gt - (table_total out - table_total (networking_benefit Final label (Some gt) out)))%Q.
Proof.
  unfold networking_benefit.
  destruct (negb (String.eqb label "industry")); [now left |].
  destruct (negb (existsb is_host_row out)); [now left |].
  destruct (Qltb _ THRESHOLD) eqn:Et; [now left |].
  right. apply Qltb_ge in Et. rewrite table_total_waive. lra.
Qed.

(** The CloudVersion variant tests the grand total as it is: an investment
    that reaches the threshold only through the Network Event itself gets
    the event free, and is then below the threshold. *)
Example cloud_benefit_undercuts_threshold :
  let out := [mkRow "Network Event" "Host" 1 3500 3500 "" 3500 3500 "";
              mkRow "Banner Ad" "4x" 4 2500 2500 "" 10000 10000 ""] in
  (table_total out == 13500)%Q /\
  (table_total (networking_benefit Cloud "industry" (Some 13500%Q) out) == 10000)%Q /\
  (table_total (networking_benefit Final "industry" (Some 13500%Q) out) == 13500)%Q.
Proof. vm_compute. auto. Qed.

(** X19. In the CloudVersion variant an industry table of an investment of
    at least 12500 always shows a Network Event, and every Network Event
    row of it is free and carries the benefit label. *)
Theorem cloud_benefit_network_rows_free (gt : Q) (out : list Row) :
  (THRESHOLD <= gt)%Q ->
  let res := networking_benefit Cloud "industry" (Some gt) out in
  existsb is_network res = true /\
  Forall (fun r => is_network r = true ->
                   row_total_price r = 0%Q /\ row_unit_price r = 0%Q /\
                   row_discount r = benefit_label) res.
Proof.
  intros Hgt res. subst res. unfold networking_benefit.
  change (negb (String.eqb "industry" "industry")) with false. cbv iota.
  destruct (Qltb gt THRESHOLD) eqn:Et; [apply Qltb_lt in Et; lra |].
  destruct (existsb is_network out) eqn:En.
  - split; [now rewrite (existsb_waive is_network out is_network_complimentary) |].
    apply Forall_forall. intros r' Hr'. apply list_elem_of_fmap in Hr' as (r & -> & _).
    destruct (is_network r) eqn:E; [now intros _ | congruence].
  - split; [rewrite existsb_app, orb_comm; reflexivity |].
    apply Forall_app. split.
    + apply Forall_forall. intros r Hr Hn.
      assert (existsb is_network out = true) as Hex; [| congruence].
      apply existsb_exists. exists r. split; [now apply list_elem_of_In | exact Hn].
    + repeat constructor.
Qed.

Lemma cloud_benefit_network_rows_free_witness :
  existsb is_network
    (networking_benefit Cloud "industry" (Some 13000%Q)
       [mkRow "Summit Booth" "Standard" 1 13000 13000 "" 13000 13000 ""]) = true /\
  Forall (fun r => is_network r = true ->
                   row_total_price r = 0%Q /\ row_unit_price r = 0%Q /\
                   row_discount r = benefit_label)
    (networking_benefit Cloud "industry" (Some 13000%Q)
       [mkRow "Summit Booth" "Standard" 1 13000 13000 "" 13000 13000 ""]).
Proof.
  apply (cloud_benefit_network_rows_free 13000
           [mkRow "Summit Booth" "Standard" 1 13000 13000 "" 13000 13000 ""]).
  discriminate.
Defined.

(** X20. The Final variant adds no row and rewrites host rows of a Network
    Event only: every other row, an attendance row of the event included,
    is returned as it was built, and a rewritten row keeps its product,
    option, quantity and original prices. *)
Theorem final_benefit_touches_host_rows_only (label : string) (grand_total : option Q)
    (out : list Row) :
  Forall2
    (fun r r' =>
       (is_host_row r = false -> r' = r) /\
       row_product r' = row_product r /\ row_option r' = row_option r /\
       row_qty r' = row_qty r /\
       row_unit_price_original r' = row_unit_price_original r /\
       row_total_price_original r' = row_total_price_original r /\
       row_reasoning r' = row_reasoning r)
    out (networking_benefit Final label grand_total out).
Proof.
  assert (Hsame : Forall2
    (fun r r' =>
       (is_host_row r = false -> r' = r) /\
       row_product r' = row_product r /\ row_option r' = row_option r /\
       row_qty r' = row_qty r /\
       row_unit_price_original r' = row_unit_price_original r /\
       row_total_price_original r' = row_total_price_original r /\
       row_reasoning r' = row_reasoning r) out out).
  { induction out; constructor; auto 10. }
  unfold networking_benefit.
  destruct (negb (String.eqb label "industry")); [exact Hsame |].
  destruct grand_total as [gt |]; [| exact Hsame].
  destruct (negb (existsb is_host_row out)); [exact Hsame |].
  destruct (Qltb _ THRESHOLD); [exact Hsame |].
  clear Hsame. induction out as [| r out IH]; cbn [map]; constructor; [| exact IH].
  destruct (is_host_row r); [split; [discriminate | auto 10] | auto 10].
Qed.

End Row_facts.

(** * The reasoning column *)

Section Reasoning_facts.
Import Reasoning.

Lemma contains_char (d c : ascii) (s : string) :
  Str.contains (String d "") (String c s)
  = Ascii.eqb d c || Str.contains (String d "") s.
Proof.
  cbn [Str.contains String.prefix].
  destruct (ascii_dec d c) as [<- | Hne].
  - rewrite Ascii.eqb_refl. destruct s; reflexivity.
  - apply Ascii.eqb_neq in Hne. rewrite Hne. reflexivity.
Qed.

Lemma before_dot_no_dot (s : string) : Str.contains "." (before_dot s) = false.
Proof.
  induction s as [| c s IH]; cbn [before_dot]; [reflexivity |].
  destruct (Ascii.eqb "." c) eqn:E; [reflexivity |].
  now rewrite contains_char, E, IH.
Qed.

Lemma add_clause_shape (text : string) (l : list string) :
  add_clause text l = l \/ add_clause text l = l ++ [first_clause text].
Proof. destruct text; [left | right]; reflexivity. Qed.

(** X21. The reasoning of a row always starts with the two phrases on focus
    and market target, in lower case; at most two more phrases follow, and
    none of those holds a full stop. *)
Theorem reasoning_bullets_shape (meta : gmap string ProductInfo)
    (product option focus market_target : string) :
  exists rest,
    bullets meta product option focus market_target
    = ["Supports " +:+ Str.lower focus; "Reaches " +:+ Str.lower market_target] ++ rest /\
    (length rest <= 2)%nat /\
    Forall (fun b => Str.contains "." b = false) rest.
Proof.
  unfold bullets. cbv zeta.
  set (info := default no_info (meta !! product)).
  set (notes := default "" (option_notes info !! option)).
  set (a := "Supports " +:+ Str.lower focus).
  set (b := "Reaches " +:+ Str.lower market_target).
  assert (Hinv : forall text l,
            (exists rest, l = [a; b] ++ rest /\
                          Forall (fun b => Str.contains "." b = false) rest) ->
            exists rest, add_clause text l = [a; b] ++ rest /\
                         Forall (fun b => Str.contains "." b = false) rest).
  { intros text l (rest & -> & Hr).
    destruct (add_clause_shape text ([a; b] ++ rest)) as [-> | ->]; [eauto |].
    exists (rest ++ [first_clause text]). rewrite app_assoc. split; [reflexivity |].
    apply Forall_app. split; [exact Hr |]. repeat constructor. apply before_dot_no_dot. }
  assert (Hbase : exists rest, [a; b] = [a; b] ++ rest /\
                               Forall (fun b => Str.contains "." b = false) rest)
    by (exists []; split; [reflexivity | constructor]).
  destruct (Hinv (sales_strategy info) _
              (Hinv (product_description info) _ (Hinv notes _ Hbase)))
    as (rest & -> & Hr).
  exists (take 2 rest). split; [reflexivity |]. split.
  - rewrite length_take. lia.
  - apply Forall_take, Hr.
Qed.

(** X22. A sales strategy is never shown for an option that has notes and a
    product that has a description: the four phrases are taken by focus,
    market target, notes and description, so the reasoning is the same
    whatever [sales_strategy] holds. *)
Theorem strategy_is_cut_off (meta : gmap string ProductInfo) (info : ProductInfo)
    (product option tier label focus market_target notes strategy : string) :
  meta !! product = Some info ->
  option_notes info !! option = Some notes ->
  notes <> "" ->
  product_description info <> "" ->
  make_reasoning
    (<[product := mkInfo (product_description info) strategy (option_notes info)]> meta)
    product option tier label focus market_target
  = make_reasoning meta product option tier label focus market_target.
Proof.
  intros Hm Hn Hnotes Hdesc. unfold make_reasoning, bullets. cbv zeta.
  rewrite lookup_insert_eq, Hm.
  cbn [from_option id product_description sales_strategy option_notes].
  rewrite Hn. cbn [from_option id].
  destruct notes as [| c notes]; [congruence |].
  destruct (product_description info) as [| d desc]; [congruence |].
  cbn [add_clause].
  destruct strategy, (sales_strategy info); reflexivity.
Qed.

Lemma strategy_is_cut_off_witness :
  make_reasoning
    (<["Banner Ad" := mkInfo "Top of page. Seen first." "Upsell to 12x."
                        {["4x" := "Four runs. Best value."]}]>
       {["Banner Ad" := mkInfo "Top of page. Seen first." "Pair with the Map."
                          {["4x" := "Four runs. Best value."]}]})
    "Banner Ad" "4x" "4x" "tourist" "Brand Awareness" "Visitors"
  = make_reasoning
      {["Banner Ad" := mkInfo "Top of page. Seen first." "Pair with the Map."
                         {["4x" := "Four runs. Best value."]}]}
      "Banner Ad" "4x" "4x" "tourist" "Brand Awareness" "Visitors".
Proof.
  refine (strategy_is_cut_off
            {["Banner Ad" := mkInfo "Top of page. Seen first." "Pair with the Map."
                               {["4x" := "Four runs. Best value."]}]}
            (mkInfo "Top of page. Seen first." "Pair with the Map."
               {["4x" := "Four runs. Best value."]})
            "Banner Ad" "4x" "4x" "tourist" "Brand Awareness" "Visitors"
            "Four runs. Best value." "Upsell to 12x." _ _ _ _);
    [vm_compute; reflexivity | vm_compute; reflexivity | discriminate | discriminate].
Defined.

Example make_reasoning_sample :
  make_reasoning
    {["Banner Ad" := mkInfo "Top of page. Seen first." "Pair with the Map."
                       {["4x" := "  Four runs. Best value."]}]}
    "Banner Ad" "4x" "4x" "tourist" "Brand Awareness" "Visitors"
  = "Supports brand awareness; Reaches visitors; Four runs; Top of page".
Proof. vm_compute. reflexivity. Qed.

End Reasoning_facts.

(** * The tier filter, letter case and variants *)

Lemma lower_ascii_idempotent (c : ascii) :
  Str.lower_ascii (Str.lower_ascii c) = Str.lower_ascii c.
Proof.
  destruct c as [[] [] [] [] [] [] [] []]; reflexivity.
Qed.

Lemma lower_idempotent (s : string) : Str.lower (Str.lower s) = Str.lower s.
Proof.
  induction s as [| c s IH]; cbn [Str.lower]; [reflexivity |].
  now rewrite lower_ascii_idempotent, IH.
Qed.

(** X23. [_is_restricted_tier] does not see the letter case of a tier
    label: a label and its lower-cased form get the same answer, in both
    variants and for both kinds of requester. *)
Theorem restricted_tier_ignores_case (v : variant) (label : string) (is_advertiser : bool) :
  _is_restricted_tier v (Str.lower label) is_advertiser
  = _is_restricted_tier v label is_advertiser.
Proof.
  unfold _is_restricted_tier. now rewrite lower_idempotent.
Qed.

(** X24. What the missing comma of the CloudVersion keyword list costs: the
    Final variant restricts exactly the labels that the CloudVersion
    variant restricts and, for a non-advertiser, those that hold
    "with campaign". *)
Theorem final_restricts_with_campaign (label : string) (is_advertiser : bool) :
  _is_restricted_tier Final label is_advertiser
  = _is_restricted_tier Cloud label is_advertiser
    || (negb is_advertiser && Str.contains "with campaign" (Str.lower label)).
Proof.
  destruct is_advertiser; [reflexivity |].
  rewrite !is_restricted_tier_effective. cbv zeta. cbn [existsb negb andb].
  repeat match goal with
         | |- context [Str.contains ?k (Str.lower label)] =>
             destruct (Str.contains k (Str.lower label))
         end; reflexivity.
Qed.
